(** * Resumable download pipeline: shallow embedding and verified properties

    The development embeds the two Go programs of the repository:

    - [MainGo]: [src/main.go], the pipeline with an in-memory ledger set,
      a name-normalising sanitizer and a bounded retry after HTTP 429;
    - [Part000]: [src/unnamed/part_000], the variant with a
      digest-based sanitizer and a substring-based resume check.

    Strings are Go strings, that is byte sequences ([string] of [ascii]).
    Go maps used as sets are [gset string]; the file system is a
    [gmap string Node].  Effects (file system, network, sleeping, logging)
    are threaded through a small state monad over [World]; everything the
    programs obtain from outside (HTTP responses, I/O faults, and the
    library parsers [net/url], [encoding/json], [crypto/sha256]) is read
    from an [Env]. *)

From Stdlib Require Import Ascii String.
From stdpp Require Import base strings list gmap sets pretty.

#[local] Set Warnings "-clear-no-such-hyp".

(** ** Go library functions on strings *)

Module GoLib.

Definition byte_eqb (a b : ascii) : bool := Ascii.eqb a b.

(** The newline byte, as a string. *)
Definition LF : string := String (ascii_of_nat 10) EmptyString.

Definition isSlash (c : ascii) : bool := byte_eqb c "/".
Definition isDot (c : ascii) : bool := byte_eqb c ".".
Definition isUnderscore (c : ascii) : bool := byte_eqb c "_".

(** Membership in the character class [a-z0-9]. *)
Definition isLowerAlnum (c : ascii) : bool :=
  let n := nat_of_ascii c in
  ((97 <=? n) && (n <=? 122)) || ((48 <=? n) && (n <=? 57)).

(** [strings.ToLower].  On a string of ASCII bytes Go shifts 'A'..'Z' by
    32 byte by byte; any other string goes through the Unicode case
    tables, which are taken as the parameter [unicodeLower]. *)
Definition lowerByte (c : ascii) : ascii :=
  let n := nat_of_ascii c in
  if (65 <=? n) && (n <=? 90) then ascii_of_nat (n + 32) else c.

Fixpoint isASCII (s : string) : bool :=
  match s with
  | EmptyString => true
  | String c s' => (nat_of_ascii c <? 128) && isASCII s'
  end.

Fixpoint lowerBytes (s : string) : string :=
  match s with
  | EmptyString => EmptyString
  | String c s' => String (lowerByte c) (lowerBytes s')
  end.

Definition strings_ToLower (unicodeLower : string -> string) (s : string) : string :=
  if isASCII s then lowerBytes s else unicodeLower s.

(** [strings.HasPrefix s prefix]. *)
Fixpoint strings_HasPrefix (s pre : string) {struct pre} : bool :=
  match pre, s with
  | EmptyString, _ => true
  | String _ _, EmptyString => false
  | String p pre', String c s' => byte_eqb c p && strings_HasPrefix s' pre'
  end.

(** [strings.Contains s substr]: [substr] occurs at some offset of [s]. *)
Fixpoint strings_Contains (s substr : string) : bool :=
  strings_HasPrefix s substr ||
  match s with
  | EmptyString => false
  | String _ s' => strings_Contains s' substr
  end.

(** [strings.Split s sep] for a non-empty [sep] (the programs split on a
    newline and on the arrow separator only): the pieces between the
    non-overlapping occurrences of [sep], scanned from the left.  [skip]
    counts the bytes of a matched separator that are still to be dropped. *)
Fixpoint split_go (sep : string) (skip : nat) (s : string) : list string :=
  match s with
  | EmptyString => [EmptyString]
  | String c s' =>
      match skip with
      | S k => split_go sep k s'
      | O =>
          if strings_HasPrefix s sep
          then EmptyString :: split_go sep (String.length sep - 1) s'
          else match split_go sep 0 s' with
               | piece :: rest => String c piece :: rest
               | [] => [String c EmptyString]
               end
      end
  end.

Definition strings_Split (s sep : string) : list string := split_go sep 0 s.

(** [strings.ReplaceAll s old new] for a non-empty [old]. *)
Fixpoint replace_go (old new : string) (skip : nat) (s : string) : string :=
  match s with
  | EmptyString => EmptyString
  | String c s' =>
      match skip with
      | S k => replace_go old new k s'
      | O =>
          if strings_HasPrefix s old
          then new +:+ replace_go old new (String.length old - 1) s'
          else String c (replace_go old new 0 s')
      end
  end.

Definition strings_ReplaceAll (s old new : string) : string :=
  replace_go old new 0 s.

(** [strings.CutPrefix s prefix]: the rest and whether the prefix was there. *)
Fixpoint strings_CutPrefix (s pre : string) {struct pre} : string * bool :=
  match pre, s with
  | EmptyString, _ => (s, true)
  | String _ _, EmptyString => (s, false)
  | String p pre', String c s' =>
      if byte_eqb c p
      then match strings_CutPrefix s' pre' with
           | (rest, true) => (rest, true)
           | (_, false) => (s, false)
           end
      else (s, false)
  end.

Definition strings_TrimPrefix (s pre : string) : string :=
  fst (strings_CutPrefix s pre).

(** The suffix of [s] that starts at the last byte satisfying [p]. *)
Fixpoint lastFrom (p : ascii -> bool) (s : string) : option string :=
  match s with
  | EmptyString => None
  | String c s' =>
      match lastFrom p s' with
      | Some t => Some t
      | None => if p c then Some s else None
      end
  end.

(** The last path element: what follows the last slash. *)
Definition lastElement (path : string) : string :=
  match lastFrom isSlash path with
  | Some (String _ t) => t
  | _ => path
  end.

(** [filepath.Ext] (Unix separator): the suffix starting at the last dot
    of the last path element, empty when it has no dot. *)
Definition filepath_Ext (path : string) : string :=
  match lastFrom isDot (lastElement path) with
  | Some e => e
  | None => EmptyString
  end.

(** Removal of trailing slashes, the first loop of [path.Base]. *)
Fixpoint trimTrailingSlashes (s : string) : string :=
  match s with
  | EmptyString => EmptyString
  | String c s' =>
      match trimTrailingSlashes s' with
      | EmptyString => if isSlash c then EmptyString else String c EmptyString
      | t => String c t
      end
  end.

(** [path.Base]. *)
Definition path_Base (path : string) : string :=
  match path with
  | EmptyString => "."
  | _ =>
      match lastElement (trimTrailingSlashes path) with
      | EmptyString => "/"
      | e => e
      end
  end.

(** [regexp.ReplaceAllString] for a pattern [[^...]+] or [c+]: every
    maximal run of bytes outside [keep] becomes one underscore.  The
    patterns work on bytes here; a rune outside ASCII consists of bytes
    >= 0x80, none of which is in a class used below, so runs of runes and
    runs of bytes coincide. *)
Fixpoint replaceRuns (keep : ascii -> bool) (inRun : bool) (s : string) : string :=
  match s with
  | EmptyString => EmptyString
  | String c s' =>
      if keep c then String c (replaceRuns keep false s')
      else if inRun then replaceRuns keep true s'
      else String "_" (replaceRuns keep true s')
  end.

(** [filepath.Clean] on the slash-separated elements: empty and [.]
    elements vanish, [..] removes the element before it when there is one
    to remove. *)
Fixpoint clean_go (rooted : bool) (elems : list string) (out : list string) : list string :=
  match elems with
  | [] => out
  | e :: rest =>
      if decide (e = EmptyString) then clean_go rooted rest out
      else if decide (e = ".") then clean_go rooted rest out
      else if decide (e = "..") then
        match out with
        | top :: below =>
            if decide (top = "..") then clean_go rooted rest (e :: out)
            else clean_go rooted rest below
        | [] => if rooted then clean_go rooted rest out
                else clean_go rooted rest (e :: out)
        end
      else clean_go rooted rest (e :: out)
  end.

Fixpoint joinWith (sep : string) (l : list string) : string :=
  match l with
  | [] => EmptyString
  | [x] => x
  | x :: rest => x +:+ sep +:+ joinWith sep rest
  end.

Definition filepath_Clean (path : string) : string :=
  match path with
  | EmptyString => "."
  | String c _ =>
      let rooted := isSlash c in
      let out := rev (clean_go rooted (strings_Split path "/") []) in
      match rooted, out with
      | false, [] => "."
      | false, _ => joinWith "/" out
      | true, _ => "/" +:+ joinWith "/" out
      end
  end.

(** [filepath.Join] of two elements: empty elements are ignored and the
    result is cleaned. *)
Definition filepath_Join (dir name : string) : string :=
  match dir, name with
  | EmptyString, EmptyString => EmptyString
  | EmptyString, _ => filepath_Clean name
  | _, _ => filepath_Clean (dir +:+ "/" +:+ name)
  end.

(** [encoding/hex.EncodeToString]: two lower-case digits per byte. *)
Definition hexDigit (n : nat) : ascii :=
  if n <? 10 then ascii_of_nat (48 + n) else ascii_of_nat (87 + n).

Fixpoint hex_EncodeToString (bytes : string) : string :=
  match bytes with
  | EmptyString => EmptyString
  | String b rest =>
      String (hexDigit (nat_of_ascii b / 16))
        (String (hexDigit (nat_of_ascii b mod 16)) (hex_EncodeToString rest))
  end.

End GoLib.

Import GoLib.

(** ** The outside world *)

(** A Go [error] is its text; [None] is [nil]. *)
Definition error := option string.

Inductive result (A : Type) : Type :=
  | Ok (a : A)
  | Err (msg : string).
Arguments Ok {A} a.
Arguments Err {A} msg.

(** The fields of [net/url.URL] that the programs read. *)
Record ParsedURL := { Scheme : string; Host : string }.

(** The JSON shape of one page, as [src/main.go] declares it. *)
Record PDFVariant := { DownloadURL : string; FileName : string }.
Record ResultContainer := { Variants : list PDFVariant }.
Record JSONDataRoot := { Results : list ResultContainer }.

(** The JSON shape of one page, as [src/unnamed/part_000] declares it. *)
Module JSON000.
Record Variant := { DownloadURL : string }.
Record Result := { Variants : list Variant }.
Record Data := { Results : list Result }.
End JSON000.

(** An HTTP response: status code, status line text, the Content-Type
    header, the bytes the body delivers, and the error that ends the
    body stream when reading it fails. *)
Record Response := {
  StatusCode : nat;
  Status : string;
  ContentType : string;
  Body : string;
  ReadErr : error
}.

Inductive GetResult :=
  | GetFailed (err : string)
  | GetResponse (resp : Response).

(** A failing system call (opening, creating or writing a file, making
    a directory, closing a response body): its error text and, for a data
    write, how many bytes reached the file before it failed. *)
Record IOFault := { fault_text : string; fault_written : nat }.

(** Everything the programs take from their environment.  The network
    and the fault oracle are indexed by the [clock] of the world, the
    number of external calls made so far, so one [Env] fixes a whole run
    and may answer the same request differently at different times. *)
Record Env := {
  url_Parse : string -> option ParsedURL;
  url_ParseRequestURI : string -> option ParsedURL;
  unicode_ToLower : string -> string;
  json_Unmarshal : string -> result JSONDataRoot;
  json_Unmarshal_Data : string -> result JSON000.Data;
  sha256_Sum256 : string -> string;
  http_Get : nat -> string -> GetResult;
  io_fault : nat -> option IOFault
}.

Inductive Node :=
  | File (content : string)
  | Dir.

(** Observable effects, in the order they happen. *)
Inductive Event :=
  | EvGet (url : string)
  | EvCreate (path : string)
  | EvWrite (path : string) (data : string)
  | EvAppend (path : string) (text : string)
  | EvMkdir (path : string)
  | EvSleep (minutes : nat)
  | EvLog (line : string).

Record World := {
  fs : gmap string Node;
  clock : nat;
  trace : list Event
}.

(** The state monad of the programs. *)
Definition M (A : Type) : Type := World -> A * World.

Definition ret {A} (a : A) : M A := fun w => (a, w).
Definition bind {A B} (m : M A) (k : A -> M B) : M B :=
  fun w => let (a, w') := m w in k a w'.

Notation "'let*' x ':=' m 'in' k" := (bind m (fun x => k))
  (at level 10, x binder, k at level 200).
Notation "m ';;' k" := (bind m (fun _ => k))
  (at level 100, right associativity).

Fixpoint forEach {A} (l : list A) (body : A -> M unit) : M unit :=
  match l with
  | [] => ret tt
  | x :: rest => body x ;; forEach rest body
  end.

Module Sys.

Definition emit (e : Event) : M unit :=
  fun w => (tt, {| fs := fs w; clock := clock w; trace := trace w ++ [e] |}).

Definition tick : M nat :=
  fun w => (clock w, {| fs := fs w; clock := S (clock w); trace := trace w |}).

(** The file system is keyed by cleaned paths, so that [PDFs/] and
    [PDFs] name the same node. *)
Definition key (path : string) : string := filepath_Clean path.

Definition setNode (path : string) (n : Node) : M unit :=
  fun w => (tt, {| fs := <[key path := n]> (fs w); clock := clock w; trace := trace w |}).

(** [os.Stat]: what is at [path], if anything. *)
Definition os_Stat (path : string) : M (option Node) :=
  fun w => (fs w !! key path, w).

Definition log (line : string) : M unit := emit (EvLog line).

Definition time_Sleep (minutes : nat) : M unit := emit (EvSleep minutes).

(** [os.ReadFile]. *)
Definition os_ReadFile (path : string) : M (result string) :=
  let* n := os_Stat path in
  match n with
  | Some (File c) => ret (Ok c)
  | Some Dir => ret (Err ("read " +:+ path +:+ ": is a directory"))
  | None => ret (Err ("open " +:+ path +:+ ": no such file or directory"))
  end.

(** [client.Get]: one request, answered by the environment. *)
Definition client_Get (env : Env) (url : string) : M GetResult :=
  let* now := tick in
  emit (EvGet url) ;;
  ret (http_Get env now url).

(** [Body.Close] on a response whose body has been read: the call can
    fail, and the fault oracle says whether it does. *)
Definition body_Close (env : Env) : M error :=
  let* now := tick in
  match io_fault env now with
  | Some f => ret (Some (fault_text f))
  | None => ret None
  end.

(** [os.Create]: truncates or creates a regular file. *)
Definition os_Create (env : Env) (path : string) : M error :=
  let* now := tick in
  match io_fault env now with
  | Some f => ret (Some ("open " +:+ path +:+ ": " +:+ fault_text f))
  | None =>
      let* n := os_Stat path in
      match n with
      | Some Dir => ret (Some ("open " +:+ path +:+ ": is a directory"))
      | _ => setNode path (File "") ;; emit (EvCreate path) ;; ret None
      end
  end.

(** Writing [data] to the file just created at [path] ([WriteTo],
    [io.Copy]): a fault leaves a prefix of the data in the file. *)
Definition file_Write (env : Env) (path data : string) : M error :=
  let* now := tick in
  match io_fault env now with
  | Some f =>
      setNode path (File (String.substring 0 (fault_written f) data)) ;;
      ret (Some ("write " +:+ path +:+ ": " +:+ fault_text f))
  | None => setNode path (File data) ;; emit (EvWrite path data) ;; ret None
  end.

(** [os.OpenFile] with [O_APPEND|O_CREATE|O_WRONLY]: the current content
    of the file that will be appended to. *)
Definition os_OpenAppend (env : Env) (path : string) : M (result string) :=
  let* now := tick in
  match io_fault env now with
  | Some f => ret (Err ("open " +:+ path +:+ ": " +:+ fault_text f))
  | None =>
      let* n := os_Stat path in
      match n with
      | Some Dir => ret (Err ("open " +:+ path +:+ ": is a directory"))
      | Some (File c) => ret (Ok c)
      | None => setNode path (File "") ;; ret (Ok "")
      end
  end.

(** [file.WriteString] / [file.Write] on a file opened for appending,
    whose content was [old]. *)
Definition file_Append (env : Env) (path old text : string) : M error :=
  let* now := tick in
  match io_fault env now with
  | Some f =>
      setNode path (File (old +:+ String.substring 0 (fault_written f) text)) ;;
      ret (Some ("write " +:+ path +:+ ": " +:+ fault_text f))
  | None =>
      setNode path (File (old +:+ text)) ;; emit (EvAppend path text) ;; ret None
  end.

(** [os.MkdirAll] of a single directory: an existing directory is fine. *)
Definition os_MkdirAll (env : Env) (path : string) : M error :=
  let* now := tick in
  match io_fault env now with
  | Some f => ret (Some ("mkdir " +:+ path +:+ ": " +:+ fault_text f))
  | None =>
      let* n := os_Stat path in
      match n with
      | Some (File _) => ret (Some ("mkdir " +:+ path +:+ ": not a directory"))
      | Some Dir => ret None
      | None => setNode path Dir ;; emit (EvMkdir path) ;; ret None
      end
  end.

(** [os.Mkdir]: anything already at the path is an error. *)
Definition os_Mkdir (env : Env) (path : string) : M error :=
  let* now := tick in
  match io_fault env now with
  | Some f => ret (Some ("mkdir " +:+ path +:+ ": " +:+ fault_text f))
  | None =>
      let* n := os_Stat path in
      match n with
      | Some _ => ret (Some ("mkdir " +:+ path +:+ ": file exists"))
      | None => setNode path Dir ;; emit (EvMkdir path) ;; ret None
      end
  end.

End Sys.

Import Sys.

Fixpoint foldM {A S} (body : S -> A -> M S) (l : list A) (s : S) : M S :=
  match l with
  | [] => ret s
  | x :: rest => let* s' := body s x in foldM body rest s'
  end.

(** ** [src/main.go] *)

Module MainGo.

(** [ValidDownloadItem]; its second field is [FileName] in the source. *)
Record ValidDownloadItem := { URL : string; ItemFileName : string }.

Section Program.

Variable env : Env.

Definition ToLower : string -> string := strings_ToLower (unicode_ToLower env).

Definition isValidDownloadURL (rawURL : string) : bool :=
  match url_Parse env rawURL with
  | None => false
  | Some parsedURL =>
      if decide (Scheme parsedURL = "") then false
      else if decide (Host parsedURL = "") then false
      else
        let scheme := ToLower (Scheme parsedURL) in
        bool_decide (scheme = "http") || bool_decide (scheme = "https")
  end.

(** The body of the inner loop of [parseJSONForDownloads], on the pair
    ([seenURLs], [uniqueDownloads]). *)
Definition parseJSONForDownloads_variant
    (st : gset string * list ValidDownloadItem) (variant : PDFVariant)
    : gset string * list ValidDownloadItem :=
  let urlStr := DownloadURL variant in
  let fileName := FileName variant in
  if isValidDownloadURL urlStr then
    if decide (urlStr ∈ st.1) then st
    else ({[urlStr]} ∪ st.1,
          st.2 ++ [ {| URL := urlStr; ItemFileName := fileName |} ])
  else st.

Definition parseJSONForDownloads_loop (data : JSONDataRoot) : list ValidDownloadItem :=
  (fold_left
     (fun st result => fold_left parseJSONForDownloads_variant (Variants result) st)
     (Results data) (∅, [])).2.

Definition parseJSONForDownloads (jsonData : string) : M (list ValidDownloadItem) :=
  match json_Unmarshal env jsonData with
  | Err err => log ("JSON unmarshal error: " +:+ err) ;; ret []
  | Ok data => ret (parseJSONForDownloads_loop data)
  end.

Definition readLocalFileContent (filePath : string) : M string :=
  let* r := os_ReadFile filePath in
  match r with
  | Err err => log ("Error reading file: " +:+ err) ;; ret ""
  | Ok content => ret content
  end.

Definition doesFileExist (filePath : string) : M bool :=
  let* info := os_Stat filePath in
  match info with
  | Some (File _) => ret true
  | _ => ret false
  end.

Definition downloadDataFromURL (uri outputFileName : string) : M unit :=
  log ("Downloading JSON from: " +:+ uri +:+ " to " +:+ outputFileName) ;;
  let* r := client_Get env uri in
  match r with
  | GetFailed err =>
      log ("Failed to make GET request to " +:+ uri +:+ ": " +:+ err)
  | GetResponse resp =>
      if negb (StatusCode resp =? 200) then
        log ("Unexpected status code from " +:+ uri +:+ ": " +:+ pretty (StatusCode resp))
      else
        let* cerr := os_Create env outputFileName in
        match cerr with
        | Some err =>
            log ("Failed to create file " +:+ outputFileName +:+ ": " +:+ err)
        | None =>
            let* werr := file_Write env outputFileName (Body resp) in
            match werr, ReadErr resp with
            | Some err, _ | None, Some err =>
                log ("Failed to write response body to file " +:+ outputFileName
                     +:+ ": " +:+ err)
            | None, None =>
                log ("Successfully downloaded JSON: " +:+ outputFileName +:+ " ("
                     +:+ pretty (String.length (Body resp)) +:+ " bytes)")
            end
        end
  end.

Definition removeSubstring (input toRemove : string) : string :=
  strings_ReplaceAll input toRemove "".

Definition getFileExtension (path : string) : string := filepath_Ext path.

Definition getFileNameOnly (content : string) : string := path_Base content.

Definition urlToFilename (rawURL : string) : string :=
  let lowercaseURL := ToLower rawURL in
  let ext := getFileExtension lowercaseURL in
  let baseFilename := getFileNameOnly lowercaseURL in
  let safeFilename := replaceRuns isLowerAlnum false baseFilename in
  let safeFilename := replaceRuns (fun c => negb (isUnderscore c)) false safeFilename in
  let safeFilename :=
    match strings_CutPrefix safeFilename "_" with
    | (trimmed, true) => trimmed
    | (_, false) => safeFilename
    end in
  let invalid_ext := "_" +:+ strings_TrimPrefix ext "." in
  let invalidSubstrings := [invalid_ext] in
  let safeFilename := fold_left removeSubstring invalidSubstrings safeFilename in
  safeFilename +:+ ext.

Definition appendLineToFile (filePath content : string) : M unit :=
  let* r := os_OpenAppend env filePath in
  match r with
  | Err err =>
      log ("Error opening file " +:+ filePath +:+ " for appending: " +:+ err)
  | Ok old =>
      let* werr := file_Append env filePath old (content +:+ LF) in
      match werr with
      | Some err => log ("Error writing to file " +:+ filePath +:+ ": " +:+ err)
      | None => ret tt
      end
  end.

(** [downloadPDFFile]; the map [alreadyDownloaded] is passed in and its
    updated value is returned next to the error. *)
Definition downloadPDFFile
    (finalURL outputDirectory filename logFilePath : string)
    (alreadyDownloaded : gset string) : M (error * gset string) :=
  let filename := urlToFilename filename in
  let filePath := filepath_Join outputDirectory filename in
  if decide (finalURL ∈ alreadyDownloaded) then
    log ("URL already logged as downloaded, skipping: " +:+ finalURL) ;;
    ret (None, alreadyDownloaded)
  else
    let* onDisk := doesFileExist filePath in
    if onDisk then
      log ("File already exists locally, skipping and logging: " +:+ filePath) ;;
      appendLineToFile logFilePath (finalURL +:+ " → " +:+ filePath) ;;
      ret (None, {[finalURL]} ∪ alreadyDownloaded)
    else
      let* r := client_Get env finalURL in
      match r with
      | GetFailed err =>
          ret (Some ("failed to download " +:+ finalURL +:+ ": " +:+ err),
               alreadyDownloaded)
      | GetResponse resp =>
          if negb (StatusCode resp =? 200) then
            ret (Some ("download failed for " +:+ finalURL +:+ ": " +:+ Status resp),
                 alreadyDownloaded)
          else
            let contentType := ContentType resp in
            if negb (strings_Contains contentType "application/pdf") then
              ret (Some ("invalid content type for " +:+ finalURL +:+ ": "
                         +:+ contentType +:+ " (expected application/pdf)"),
                   alreadyDownloaded)
            else
              match ReadErr resp with
              | Some err =>
                  ret (Some ("failed to read PDF data from " +:+ finalURL +:+ ": "
                             +:+ err), alreadyDownloaded)
              | None =>
                  let writtenBytes := String.length (Body resp) in
                  if writtenBytes =? 0 then
                    ret (Some ("downloaded 0 bytes for " +:+ finalURL
                               +:+ ", not creating file"), alreadyDownloaded)
                  else
                    let* cerr := os_Create env filePath in
                    match cerr with
                    | Some err =>
                        ret (Some ("failed to create file " +:+ filePath +:+ ": "
                                   +:+ err), alreadyDownloaded)
                    | None =>
                        let* werr := file_Write env filePath (Body resp) in
                        match werr with
                        | Some err =>
                            ret (Some ("failed to write PDF to file " +:+ filePath
                                       +:+ ": " +:+ err), alreadyDownloaded)
                        | None =>
                            appendLineToFile logFilePath
                              (finalURL +:+ " → " +:+ filePath) ;;
                            log ("Successfully downloaded " +:+ pretty writtenBytes
                                 +:+ " bytes: " +:+ finalURL +:+ " → " +:+ filePath) ;;
                            ret (None, {[finalURL]} ∪ alreadyDownloaded)
                        end
                    end
              end
      end.

Definition doesDirectoryExist (path : string) : M bool :=
  let* directory := os_Stat path in
  match directory with
  | Some Dir => ret true
  | _ => ret false
  end.

Definition createDirectoryIfMissing (path : string) : M unit :=
  let* merr := os_MkdirAll env path in
  match merr with
  | Some err => log ("Error creating directory: " +:+ err)
  | None => ret tt
  end.

Definition readAFileAsString (filePath : string) : M string :=
  let* r := os_ReadFile filePath in
  match r with
  | Err err => log ("Error reading file " +:+ filePath +:+ ": " +:+ err) ;; ret ""
  | Ok content => ret content
  end.

(** The loop of [loadDownloadLogToMap] over the lines of the log. *)
Definition loadDownloadLogToMap_line (downloadedURLs : gset string) (line : string)
    : gset string :=
  if decide (line = "") then downloadedURLs
  else
    match strings_Split line " → " with
    | part0 :: _ => {[part0]} ∪ downloadedURLs
    | [] => downloadedURLs
    end.

Definition loadDownloadLogToMap (logFilePath : string) : M (gset string) :=
  let* present := doesFileExist logFilePath in
  if negb present then ret ∅
  else
    let* fileContent := readAFileAsString logFilePath in
    let lines := strings_Split fileContent LF in
    ret (fold_left loadDownloadLogToMap_line lines ∅).

Definition downloadLogFileName : string := "download.txt".
Definition maxPageIndex : nat := 75.
Definition outputDirectoryName : string := "PDFs".

(** The body of the inner download loop of [main]: one item, with the
    retry after a 429.  It returns the last value of [err] next to the
    ledger set. *)
Definition main_item (alreadyDownloadedURLs : gset string)
    (fileDownload : ValidDownloadItem) : M (error * gset string) :=
  let* '(err, already) :=
    downloadPDFFile (URL fileDownload) outputDirectoryName
      (ItemFileName fileDownload) downloadLogFileName alreadyDownloadedURLs in
  match err with
  | None => ret (None, already)
  | Some errorString =>
      log ("Download failed: " +:+ errorString) ;;
      if strings_Contains errorString "429" then
        log "Sleeping for 3 minutes due to rate limit (429 error)." ;;
        time_Sleep 3 ;;
        log ("Retrying download after sleep: " +:+ URL fileDownload) ;;
        let* '(err, already) :=
          downloadPDFFile (URL fileDownload) outputDirectoryName
            (ItemFileName fileDownload) downloadLogFileName already in
        match err with
        | Some e => log ("Retry failed: " +:+ e) ;; ret (err, already)
        | None => ret (err, already)
        end
      else ret (err, already)
  end.

Definition main_items (items : list ValidDownloadItem)
    (alreadyDownloadedURLs : gset string) : M (gset string) :=
  foldM (fun already item => let* r := main_item already item in ret r.2)
        items alreadyDownloadedURLs.

Definition apiURL (pageIndex : nat) : string :=
  "https://dss.wcms.basf.com/v1/results?locale=en-US&limit=1000&page="
  +:+ pretty pageIndex.

Definition jsonFileName (pageIndex : nat) : string :=
  "basf_" +:+ pretty pageIndex +:+ ".json".

(** The body of the page loop of [main]. *)
Definition main_page (alreadyDownloadedURLs : gset string) (pageIndex : nat)
    : M (gset string) :=
  log ("Processing page " +:+ pretty pageIndex +:+ "...") ;;
  let* cached := doesFileExist (jsonFileName pageIndex) in
  (if negb cached then downloadDataFromURL (apiURL pageIndex) (jsonFileName pageIndex)
   else ret tt) ;;
  let* present := doesFileExist (jsonFileName pageIndex) in
  if present then
    let* jsonFileContent := readLocalFileContent (jsonFileName pageIndex) in
    let* extractedDownloads := parseJSONForDownloads jsonFileContent in
    log ("Page " +:+ pretty pageIndex +:+ ": Found "
         +:+ pretty (length extractedDownloads) +:+ " unique URLs.") ;;
    main_items extractedDownloads alreadyDownloadedURLs
  else
    log ("Skipping PDF download for page " +:+ pretty pageIndex
         +:+ ": JSON file not found.") ;;
    ret alreadyDownloadedURLs.

Definition main : M unit :=
  let* dirThere := doesDirectoryExist outputDirectoryName in
  (if negb dirThere then createDirectoryIfMissing outputDirectoryName else ret tt) ;;
  let* alreadyDownloadedURLs := loadDownloadLogToMap downloadLogFileName in
  log ("Loaded " +:+ pretty (size alreadyDownloadedURLs)
       +:+ " URLs from download log file.") ;;
  foldM main_page (seq 0 (S maxPageIndex)) alreadyDownloadedURLs ;;
  log "Scraping and download process complete.".

End Program.

End MainGo.

(** ** [src/unnamed/part_000] *)

Module Part000.

Section Program.

Variable env : Env.

Definition isUrlValid (uri : string) : bool :=
  match url_ParseRequestURI env uri with
  | Some _ => true
  | None => false
  end.

(** The body of the loop of [removeDuplicatesFromSlice], on the pair
    ([check], [newReturnSlice]). *)
Definition removeDuplicatesFromSlice_step
    (st : gset string * list string) (content : string) : gset string * list string :=
  if decide (content ∈ st.1) then st
  else ({[content]} ∪ st.1, st.2 ++ [content]).

Definition removeDuplicatesFromSlice (slice : list string) : list string :=
  (fold_left removeDuplicatesFromSlice_step slice (∅, [])).2.

Definition extractDownloadURLsFromJSON (jsonData : string) : M (list string) :=
  match json_Unmarshal_Data env jsonData with
  | Err err => log err ;; ret []
  | Ok data =>
      let urls :=
        fold_left
          (fun urls result =>
             fold_left
               (fun urls variant =>
                  if isUrlValid (JSON000.DownloadURL variant)
                  then urls ++ [JSON000.DownloadURL variant]
                  else urls)
               (JSON000.Variants result) urls)
          (JSON000.Results data) [] in
      ret (removeDuplicatesFromSlice urls)
  end.

Definition readFileAndReturnAsByte (path : string) : M string :=
  let* r := os_ReadFile path in
  match r with
  | Err err => log err ;; ret ""
  | Ok content => ret content
  end.

Definition fileExists (filename : string) : M bool :=
  let* info := os_Stat filename in
  match info with
  | Some (File _) => ret true
  | _ => ret false
  end.

Definition combineMultipleSlices (sliceOne sliceTwo : list string) : list string :=
  sliceOne ++ sliceTwo.

Definition appendByteToFile (filename data : string) : M error :=
  let* r := os_OpenAppend env filename in
  match r with
  | Err err => ret (Some err)
  | Ok old => file_Append env filename old data
  end.

Definition getDataFromURL (uri fileName : string) : M unit :=
  let* r := client_Get env uri in
  match r with
  | GetFailed err => log ("Failed to make GET request: " +:+ err)
  | GetResponse response =>
      if negb (StatusCode response =? 200) then
        log ("Unexpected status code from " +:+ uri +:+ " -> "
             +:+ pretty (StatusCode response))
      else
        match ReadErr response with
        | Some err => log ("Failed to read response body: " +:+ err)
        | None =>
            let* cerr := body_Close env in
            match cerr with
            | Some err => log ("Failed to close response body: " +:+ err)
            | None =>
                let* werr := appendByteToFile fileName (Body response) in
                match werr with
                | Some err => log ("Failed to write to file: " +:+ err)
                | None => ret tt
                end
            end
        end
  end.

Definition generateHash (input : string) : string :=
  hex_EncodeToString (sha256_Sum256 env input).

Definition getFileExtension (path : string) : string := filepath_Ext path.

Definition urlToFilename (rawURL : string) : string :=
  let sanitized := generateHash rawURL in
  let sanitized :=
    if decide (getFileExtension sanitized = ".pdf") then sanitized
    else sanitized +:+ ".pdf" in
  strings_ToLower (unicode_ToLower env) sanitized.

Definition appendAndWriteToFile (path content : string) : M unit :=
  let* r := os_OpenAppend env path in
  match r with
  | Err err => log ("Error opening file: " +:+ err)
  | Ok old =>
      let* werr := file_Append env path old (content +:+ LF) in
      match werr with
      | Some err => log ("Error writing to file: " +:+ err)
      | None => ret tt
      end
  end.

(** [readAFileAsString].  On a read error the source ends the process
    with [log.Fatalln]; every call follows a successful [fileExists] on
    the same path, after which the read cannot fail, so that branch only
    logs here. *)
Definition readAFileAsString (path : string) : M string :=
  let* r := os_ReadFile path in
  match r with
  | Err err => log err ;; ret ""
  | Ok content => ret content
  end.

Definition downloadPDF (finalURL outputDir downloadURLFile : string) : M error :=
  let* logged := fileExists downloadURLFile in
  let* fileRead := (if logged then readAFileAsString downloadURLFile else ret "") in
  let rawFilename := urlToFilename finalURL in
  let filename := strings_ToLower (unicode_ToLower env) rawFilename in
  let filePath := filepath_Join outputDir filename in
  let* onDisk := fileExists filePath in
  if onDisk then
    log ("file already exists, skipping: " +:+ filePath) ;;
    (if negb (strings_Contains fileRead finalURL)
     then appendAndWriteToFile downloadURLFile (finalURL +:+ " → " +:+ filePath)
     else ret tt) ;;
    ret (Some ("file already exists, skipping: " +:+ filePath +:+ " (URL: "
               +:+ finalURL +:+ ")"))
  else
    let* r := client_Get env finalURL in
    match r with
    | GetFailed err =>
        ret (Some ("failed to download " +:+ finalURL +:+ ": " +:+ err))
    | GetResponse resp =>
        if negb (StatusCode resp =? 200) then
          ret (Some ("download failed for " +:+ finalURL +:+ ": " +:+ Status resp))
        else
          let ct := ContentType resp in
          if negb (strings_Contains ct "application/pdf") then
            ret (Some ("invalid content type for " +:+ finalURL +:+ ": " +:+ ct
                       +:+ " (expected application/pdf)"))
          else
            match ReadErr resp with
            | Some err =>
                ret (Some ("failed to read PDF data from " +:+ finalURL +:+ ": "
                           +:+ err))
            | None =>
                let written := String.length (Body resp) in
                if written =? 0 then
                  ret (Some ("downloaded 0 bytes for " +:+ finalURL
                             +:+ ", not creating file"))
                else
                  let* cerr := os_Create env filePath in
                  match cerr with
                  | Some err =>
                      ret (Some ("failed to create file " +:+ filePath +:+ ": "
                                 +:+ err))
                  | None =>
                      let* werr := file_Write env filePath (Body resp) in
                      match werr with
                      | Some err =>
                          ret (Some ("failed to write PDF to file " +:+ filePath
                                     +:+ ": " +:+ err))
                      | None =>
                          (if negb (strings_Contains fileRead finalURL) then
                             appendAndWriteToFile downloadURLFile
                               (finalURL +:+ " → " +:+ filePath) ;;
                             log ("successfully downloaded " +:+ pretty written
                                  +:+ " bytes: " +:+ finalURL +:+ " → " +:+ filePath)
                           else ret tt) ;;
                          ret None
                      end
                  end
            end
    end.

Definition directoryExists (path : string) : M bool :=
  let* directory := os_Stat path in
  match directory with
  | Some Dir => ret true
  | _ => ret false
  end.

Definition createDirectory (path : string) : M unit :=
  let* merr := os_Mkdir env path in
  match merr with
  | Some err => log err
  | None => ret tt
  end.

Definition appendToSlice (slice : list string) (content : string) : list string :=
  slice ++ [content].

Definition downloadedFilesURLLocation : string := "download.txt".
Definition endLoop : nat := 75.
Definition outputDir : string := "PDFs/".

Definition pageURL (index : nat) : string :=
  "https://dss.wcms.basf.com/v1/results?locale=en-US&limit=1000&page="
  +:+ pretty index.

Definition pageFile (index : nat) : string := "basf_" +:+ pretty index +:+ ".json".

(** The body of the download loop of [main] (lines 336-357): one URL.
    The slice returned by [appendToSlice] is dropped, as in the source. *)
Definition main_url (extractedURL : list string) (url : string) : M unit :=
  let* logged := fileExists downloadedFilesURLLocation in
  let* fileRead :=
    (if logged then readAFileAsString downloadedFilesURLLocation else ret "") in
  if negb (strings_Contains fileRead url) then
    let* err := downloadPDF url outputDir downloadedFilesURLLocation in
    match err with
    | Some errorString =>
        log errorString ;;
        if strings_Contains errorString "429" then
          let _ := appendToSlice extractedURL url in
          log "Sleeping 3m0s" ;;
          time_Sleep 3
        else ret tt
    | None => ret tt
    end
  else ret tt.

Definition main : M unit :=
  forEach (seq 0 (S endLoop))
    (fun index =>
       let* cached := fileExists (pageFile index) in
       if negb cached then getDataFromURL (pageURL index) (pageFile index)
       else ret tt) ;;
  let* extractedURL :=
    foldM
      (fun extractedURL index =>
         let* cached := fileExists (pageFile index) in
         if cached then
           let* jsonFileContent := readFileAndReturnAsByte (pageFile index) in
           let* newExtractedData := extractDownloadURLsFromJSON jsonFileContent in
           ret (combineMultipleSlices newExtractedData extractedURL)
         else ret extractedURL)
      (seq 0 (S endLoop)) [] in
  let extractedURL := removeDuplicatesFromSlice extractedURL in
  let* dirThere := directoryExists outputDir in
  (if negb dirThere then createDirectory outputDir else ret tt) ;;
  forEach extractedURL (main_url extractedURL).

End Program.

End Part000.

(** ** Specification-side definitions *)

Module Spec.

Import MainGo.

Definition toItem (v : PDFVariant) : ValidDownloadItem :=
  {| URL := DownloadURL v; ItemFileName := FileName v |}.

(** All variants of a page in traversal order: results outside, variants
    inside. *)
Definition variantsOf (data : JSONDataRoot) : list PDFVariant :=
  concat (Variants <$> Results data).

(** The items the extraction loop adds when it starts with the URLs
    [seen] marked. *)
Fixpoint keepFirst (env : Env) (seen : gset string) (vs : list PDFVariant)
    : list ValidDownloadItem :=
  match vs with
  | [] => []
  | v :: rest =>
      if isValidDownloadURL env (DownloadURL v) then
        if decide (DownloadURL v ∈ seen) then keepFirst env seen rest
        else toItem v :: keepFirst env ({[DownloadURL v]} ∪ seen) rest
      else keepFirst env seen rest
  end.

(** The URLs requested over HTTP, in order. *)
Fixpoint gets (t : list Event) : list string :=
  match t with
  | [] => []
  | EvGet url :: t' => url :: gets t'
  | _ :: t' => gets t'
  end.

(** The cooldown sleeps, in order. *)
Fixpoint sleeps (t : list Event) : list nat :=
  match t with
  | [] => []
  | EvSleep d :: t' => d :: sleeps t'
  | _ :: t' => sleeps t'
  end.

(** The completed file-system writes: creations, data writes, appends. *)
Fixpoint diskWrites (t : list Event) : list Event :=
  match t with
  | [] => []
  | EvCreate p :: t' => EvCreate p :: diskWrites t'
  | EvWrite p d :: t' => EvWrite p d :: diskWrites t'
  | EvAppend p x :: t' => EvAppend p x :: diskWrites t'
  | EvMkdir p :: t' => EvMkdir p :: diskWrites t'
  | _ :: t' => diskWrites t'
  end.

(** A regular file is at [path]. *)
Definition isFileAt (w : World) (path : string) : Prop :=
  ∃ content, fs w !! key path = Some (File content).

(** The text of the file at [path]; empty when there is none. *)
Definition fileText (w : World) (path : string) : string :=
  match fs w !! key path with
  | Some (File content) => content
  | _ => ""
  end.

(** The local path [downloadPDFFile] derives for a suggested name. *)
Definition localPath (env : Env) (outputDirectory filename : string) : string :=
  filepath_Join outputDirectory (urlToFilename env filename).

(** One ledger line, without its newline. *)
Definition ledgerLine (url path : string) : string := url +:+ " → " +:+ path.

(** The world with one more event. *)
Definition logged (w : World) (e : Event) : World :=
  {| fs := fs w; clock := clock w; trace := trace w ++ [e] |}.

(** A response that [downloadPDFFile] rejects before it touches the
    disk: wrong status, wrong content type, failed read or empty body. *)
Definition rejected (resp : Response) : Prop :=
  StatusCode resp ≠ 200
  ∨ strings_Contains (ContentType resp) "application/pdf" = false
  ∨ ReadErr resp ≠ None
  ∨ Body resp = "".

(** The world once the request for [url] has been sent. *)
Definition requested (w : World) (url : string) : World :=
  {| fs := fs w; clock := S (clock w); trace := trace w ++ [EvGet url] |}.

(** The world once [appendLineToFile] has run for the ledger line of
    [url]. *)
Definition recorded (env : Env) (logFilePath url path : string) (w : World) : World :=
  (appendLineToFile env logFilePath (ledgerLine url path) w).2.

(** The outcomes of one call of [downloadPDFFile] for [url] with local
    path [path], from the ledger set [s] and the world [w]: the returned
    error, the ledger set and the world afterwards. *)
Inductive Fetched (env : Env) (url path logFilePath : string)
    (s : gset string) (w : World) : error * gset string * World → Prop :=
  | SkippedLogged :
      url ∈ s →
      Fetched env url path logFilePath s w
        (None, s,
         logged w (EvLog ("URL already logged as downloaded, skipping: " +:+ url)))
  | SkippedOnDisk :
      url ∉ s → isFileAt w path →
      Fetched env url path logFilePath s w
        (None, {[url]} ∪ s,
         recorded env logFilePath url path
           (logged w (EvLog ("File already exists locally, skipping and logging: "
                             +:+ path))))
  | FailedRequest err :
      url ∉ s → ¬ isFileAt w path →
      http_Get env (clock w) url = GetFailed err →
      Fetched env url path logFilePath s w
        (Some ("failed to download " +:+ url +:+ ": " +:+ err), s, requested w url)
  | FailedResponse resp err :
      url ∉ s → ¬ isFileAt w path →
      http_Get env (clock w) url = GetResponse resp →
      rejected resp →
      Fetched env url path logFilePath s w (Some err, s, requested w url)
  | FailedCreate resp err :
      url ∉ s → ¬ isFileAt w path →
      http_Get env (clock w) url = GetResponse resp →
      ¬ rejected resp →
      Fetched env url path logFilePath s w
        (Some ("failed to create file " +:+ path +:+ ": " +:+ err), s,
         {| fs := fs w; clock := S (S (clock w)); trace := trace w ++ [EvGet url] |})
  | FailedWrite resp f :
      url ∉ s → fs w !! key path = None →
      http_Get env (clock w) url = GetResponse resp →
      ¬ rejected resp →
      io_fault env (S (clock w)) = None →
      io_fault env (S (S (clock w))) = Some f →
      Fetched env url path logFilePath s w
        (Some ("failed to write PDF to file " +:+ path +:+ ": write " +:+ path
               +:+ ": " +:+ fault_text f), s,
         {| fs := <[key path :=
                      File (String.substring 0 (fault_written f) (Body resp))]> (fs w);
            clock := S (S (S (clock w)));
            trace := (trace w ++ [EvGet url]) ++ [EvCreate path] |})
  | Downloaded resp :
      url ∉ s → fs w !! key path = None →
      http_Get env (clock w) url = GetResponse resp →
      ¬ rejected resp →
      io_fault env (S (clock w)) = None →
      io_fault env (S (S (clock w))) = None →
      Fetched env url path logFilePath s w
        (None, {[url]} ∪ s,
         logged
           (recorded env logFilePath url path
              {| fs := <[key path := File (Body resp)]> (fs w);
                 clock := S (S (S (clock w)));
                 trace := ((trace w ++ [EvGet url]) ++ [EvCreate path])
                          ++ [EvWrite path (Body resp)] |})
           (EvLog ("Successfully downloaded " +:+ pretty (String.length (Body resp))
                   +:+ " bytes: " +:+ url +:+ " → " +:+ path))).

(** A log line that reports an abandoned item or a skipped page: a
    failed retry, a first failure without the 429 signature, or a page
    whose JSON file is missing. *)
Definition abandonedLine (line : string) : bool :=
  strings_HasPrefix line "Retry failed: "
  || (strings_HasPrefix line "Download failed: " && negb (strings_Contains line "429"))
  || strings_HasPrefix line "Skipping PDF download for page ".

(** How many such lines a trace holds. *)
Fixpoint abandoned (t : list Event) : nat :=
  match t with
  | [] => 0
  | EvLog line :: t' => (if abandonedLine line then 1 else 0) + abandoned t'
  | _ :: t' => abandoned t'
  end.

(** [w'] can follow [w] in a run: a regular file stays one; its content
    is kept, except that the file at the key [L], the ledger, may have
    grown at its end. *)
Definition extends (L : string) (w w' : World) : Prop :=
  ∀ k c, fs w !! k = Some (File c) →
    if decide (k = L) then ∃ x, fs w' !! k = Some (File (c +:+ x))
    else fs w' !! k = Some (File c).

(** The ledger holds no line whose file is missing: every ledger line
    appended so far names a local path at which a regular file is. *)
Definition ledgerSound (logFilePath : string) (w : World) : Prop :=
  ∀ text, EvAppend logFilePath text ∈ trace w →
    ∃ url path, text = ledgerLine url path +:+ LF ∧ isFileAt w path.

(** The items [parseJSONForDownloads] returns for a page text. *)
Definition itemsOf (env : Env) (jsonData : string) : list ValidDownloadItem :=
  match json_Unmarshal env jsonData with
  | Ok data => parseJSONForDownloads_loop env data
  | Err _ => []
  end.

(** The ledger set [loadDownloadLogToMap] builds from a ledger text. *)
Definition ledgerSet (text : string) : gset string :=
  fold_left loadDownloadLogToMap_line (strings_Split text LF) ∅.


(** Every byte of [s] satisfies [p]. *)
Fixpoint allBytes (p : ascii -> bool) (s : string) : bool :=
  match s with
  | EmptyString => true
  | String c s' => p c && allBytes p s'
  end.

(** The bytes a sanitized stem is made of. *)
Definition isStemByte (c : ascii) : bool := isLowerAlnum c || isUnderscore c.

(** The stem [src/main.go] derives from the last path segment [base] of
    a lower-cased input whose extension is [ext]: every maximal run of
    bytes outside [a-z0-9] becomes one underscore, one leading underscore
    is dropped, and every occurrence of an underscore followed by the
    extension without its dot is deleted. *)
Definition stemOf (base ext : string) : string :=
  let runs := replaceRuns isLowerAlnum false base in
  let trimmed := match runs with String "_" rest => rest | _ => runs end in
  let extName := match ext with String "." name => name | _ => ext end in
  strings_ReplaceAll trimmed ("_" +:+ extName) "".

(** The digits of a lower-case hexadecimal string. *)
Definition isHexByte (c : ascii) : bool :=
  let n := nat_of_ascii c in
  ((48 <=? n) && (n <=? 57)) || ((97 <=? n) && (n <=? 102)).

(** The value of a hexadecimal digit, and the decoder of
    [hex_EncodeToString]. *)
Definition hexValue (c : ascii) : nat :=
  let n := nat_of_ascii c in if n <? 58 then n - 48 else n - 87.

Fixpoint hexDecode (s : string) : string :=
  match s with
  | String hi (String lo rest) =>
      String (ascii_of_nat (16 * hexValue hi + hexValue lo)) (hexDecode rest)
  | _ => EmptyString
  end.

(** A space, and the newline that ends a ledger line. *)
Definition isSpace (c : ascii) : bool := byte_eqb c " ".
Definition isNewline (c : ascii) : bool := byte_eqb c (ascii_of_nat 10).

(** The text of a ledger file that holds the given entries (URL and
    local path), one line each. *)
Definition ledgerText (entries : list (string * string)) : string :=
  foldr (fun entry text => ledgerLine entry.1 entry.2 +:+ LF +:+ text) "" entries.

(** A request the orchestrator may send: the API URL of one of its
    pages, or a URL that passes [isValidDownloadURL]. *)
Definition allowedRequest (env : Env) (url : string) : Prop :=
  (∃ k, k ≤ maxPageIndex ∧ url = apiURL k) ∨ isValidDownloadURL env url = true.

(** All download URLs of a page of [part_000], in traversal order. *)
Definition urlsOf000 (data : JSON000.Data) : list string :=
  JSON000.DownloadURL <$> concat (JSON000.Variants <$> JSON000.Results data).

End Spec.

(** ** Concrete environments and worlds used to exercise the programs *)

Module Scenario.

Import MainGo.

(** A URL parser for the plain form [scheme://host/path]; any other
    string parses to a URL with neither scheme nor host. *)
Definition plainParse (raw : string) : option ParsedURL :=
  match strings_Split raw "://" with
  | [scheme; rest] =>
      Some {| Scheme := scheme; Host := hd "" (strings_Split rest "/") |}
  | _ => Some {| Scheme := ""; Host := "" |}
  end.

Definition okPDF (body : string) : GetResult :=
  GetResponse {| StatusCode := 200; Status := "200 OK";
                 ContentType := "application/pdf"; Body := body; ReadErr := None |}.

Definition status (code : nat) (text : string) : GetResult :=
  GetResponse {| StatusCode := code; Status := text;
                 ContentType := "text/html"; Body := ""; ReadErr := None |}.

(** An environment without I/O faults whose page texts decode through
    [decode] and whose server answers through [net].  The digest is a
    stand-in (the identity): no statement below depends on its values. *)
Definition envOf (decode : string -> result JSONDataRoot)
    (net : nat -> string -> GetResult) : Env :=
  {| url_Parse := plainParse;
     url_ParseRequestURI := plainParse;
     unicode_ToLower := fun s => s;
     json_Unmarshal := decode;
     json_Unmarshal_Data := fun _ => Err "unexpected end of JSON input";
     sha256_Sum256 := fun s => s;
     http_Get := net;
     io_fault := fun _ => None |}.

(** The same with every page text decoding to [page]. *)
Definition envWith (page : JSONDataRoot) (net : nat -> string -> GetResult) : Env :=
  envOf (fun _ => Ok page) net.

Definition noPage : JSONDataRoot := {| Results := [] |}.

(** No pages and no network. *)
Definition offline : Env := envWith noPage (fun _ _ => GetFailed "connection refused").

Definition world (files : gmap string Node) : World :=
  {| fs := files; clock := 0; trace := [] |}.

(** The output directory, empty, and with one downloaded file in it. *)
Definition emptyDir : gmap string Node := {[ "PDFs" := Dir ]}.

Definition onDisk : gmap string Node :=
  {[ "PDFs" := Dir; "PDFs/a_report.pdf" := File "%PDF-1.4" ]}.

(** A ledger with one entry, its file on disk. *)
Definition oneEntry : gmap string Node :=
  {[ "PDFs" := Dir;
     "PDFs/0a1b.pdf" := File "%PDF-1.4";
     "download.txt" := File ("https://host/abc.pdf → PDFs/0a1b.pdf" +:+ LF) ]}.

(** An upstream whose page 0 lists the items of [page] and whose other
    pages are empty; [itemAnswer] is what the file server answers. *)
Definition decodePage (page : JSONDataRoot) (text : string) : result JSONDataRoot :=
  if decide (text = "page0") then Ok page else Ok noPage.

Definition upstream (itemAnswer : string -> GetResult) (n : nat) (url : string)
    : GetResult :=
  if strings_HasPrefix url "https://dss.wcms.basf.com/" then
    GetResponse {| StatusCode := 200; Status := "200 OK";
                   ContentType := "application/json";
                   Body := if decide (url = apiURL 0) then "page0" else "{}";
                   ReadErr := None |}
  else itemAnswer url.

Definition onePage : JSONDataRoot :=
  {| Results :=
       [ {| Variants :=
              [ {| DownloadURL := "https://host/a.pdf"; FileName := "A Report.PDF" |} ]
         |} ] |}.

(** The file server has the document. *)
Definition serving : Env :=
  envOf (decodePage onePage) (upstream (fun _ => okPDF "%PDF-1.4")).

(** The file server answers 404 for the document. *)
Definition missing : Env :=
  envOf (decodePage onePage) (upstream (fun _ => status 404 "404 Not Found")).

(** The file server answers every request with 429. *)
Definition throttled : Env :=
  envOf (decodePage onePage) (upstream (fun _ => status 429 "429 Too Many Requests")).

(** Two documents, and a ledger whose only line names the second one and
    lacks its newline. *)
Definition twoPage : JSONDataRoot :=
  {| Results :=
       [ {| Variants :=
              [ {| DownloadURL := "https://host/v.pdf"; FileName := "v.pdf" |};
                {| DownloadURL := "https://host/u.pdf"; FileName := "u.pdf" |} ]
         |} ] |}.

Definition servingTwo : Env :=
  envOf (decodePage twoPage) (upstream (fun _ => okPDF "%PDF-1.4")).

Definition unterminated : gmap string Node :=
  {[ "PDFs" := Dir; "download.txt" := File "https://host/u.pdf" ]}.

(** A page with two variants that share one download URL. *)
Definition twinPage : JSONDataRoot :=
  {| Results :=
       [ {| Variants :=
              [ {| DownloadURL := "https://host/file.pdf"; FileName := "first.pdf" |};
                {| DownloadURL := "https://host/file.pdf"; FileName := "second.pdf" |} ]
         |} ] |}.

(** An environment like [base] whose system calls fail as [faults]
    says. *)
Definition withFaults (base : Env) (faults : nat -> option IOFault) : Env :=
  {| url_Parse := url_Parse base;
     url_ParseRequestURI := url_ParseRequestURI base;
     unicode_ToLower := unicode_ToLower base;
     json_Unmarshal := json_Unmarshal base;
     json_Unmarshal_Data := json_Unmarshal_Data base;
     sha256_Sum256 := sha256_Sum256 base;
     http_Get := http_Get base;
     io_fault := faults |}.

(** The disk fills up while the third external call, the write of the
    document, is under way: three bytes reach the file. *)
Definition diskFull : Env :=
  withFaults serving
    (fun n => if decide (n = 2)
              then Some {| fault_text := "no space left on device"; fault_written := 3 |}
              else None).

(** Nothing can be opened for writing. *)
Definition readOnly : Env :=
  withFaults offline
    (fun _ => Some {| fault_text := "permission denied"; fault_written := 0 |}).

(** No page text decodes. *)
Definition garbled : Env :=
  envOf (fun _ => Err "invalid character '<' looking for beginning of value")
        (fun _ _ => GetFailed "connection refused").

(** The text of page 0 is on disk, and it is not JSON. *)
Definition cachedHTML : gmap string Node :=
  {[ "PDFs" := Dir; "basf_0.json" := File "<html>" ]}.

(** A file under the name [part_000] derives for the URL ["0a1b"] with
    the stand-in digest. *)
Definition hashed : gmap string Node :=
  {[ "PDFs" := Dir; "PDFs/30613162.pdf" := File "%PDF-1.4" ]}.

End Scenario.

(** * Properties *)

Import MainGo Spec.

(** ** Facts about the string functions *)

Section StringFacts.

Lemma append_nil_l s : "" +:+ s = s.
Proof. reflexivity. Qed.

Lemma append_cons c s t : String c s +:+ t = String c (s +:+ t).
Proof. reflexivity. Qed.

Lemma append_nil_r s : s +:+ "" = s.
Proof. induction s as [|c s IH]; [done|]. by rewrite append_cons, IH. Qed.

Lemma append_assoc s1 s2 s3 : (s1 +:+ s2) +:+ s3 = s1 +:+ s2 +:+ s3.
Proof. induction s1 as [|c s1 IH]; [done|]. by rewrite !append_cons, IH. Qed.

Lemma length_append s1 s2 :
  String.length (s1 +:+ s2) = String.length s1 + String.length s2.
Proof. induction s1 as [|c s1 IH]; [done|]. rewrite append_cons. simpl. by rewrite IH. Qed.

Lemma append_inv_tail s1 s2 t : s1 +:+ t = s2 +:+ t → s1 = s2.
Proof.
  revert s2. induction s1 as [|c s1 IH]; intros [|d s2] Heq;
    rewrite ?append_cons, ?append_nil_l in Heq.
  - done.
  - apply (f_equal String.length) in Heq. simpl in Heq.
    rewrite length_append in Heq. lia.
  - apply (f_equal String.length) in Heq. simpl in Heq.
    rewrite length_append in Heq. lia.
  - injection Heq as -> Heq. f_equal. by apply IH.
Qed.

Lemma allBytes_app p s1 s2 :
  allBytes p (s1 +:+ s2) = allBytes p s1 && allBytes p s2.
Proof.
  induction s1 as [|c s1 IH]; [done|]. rewrite append_cons. simpl.
  rewrite IH. by rewrite andb_assoc.
Qed.

Lemma allBytes_weaken (p q : ascii → bool) s :
  (∀ c, p c = true → q c = true) → allBytes p s = true → allBytes q s = true.
Proof.
  intros Hpq. induction s as [|c s IH]; simpl; [done|].
  intros [Hc Hs]%andb_true_iff. rewrite (Hpq _ Hc). by apply IH.
Qed.

Lemma lastFrom_none p s :
  lastFrom p s = None ↔ allBytes (fun c => negb (p c)) s = true.
Proof.
  induction s as [|c s IH]; simpl; [done|].
  destruct (lastFrom p s) as [t|].
  - split; [done|]. intros [_ Hs]%andb_true_iff. apply IH in Hs. done.
  - destruct (p c); simpl; [split; done|]. split; [intros _; by apply IH|done].
Qed.

Lemma lastFrom_app p s1 s2 :
  lastFrom p (s1 +:+ s2)
  = match lastFrom p s2 with
    | Some t => Some t
    | None => (fun t => t +:+ s2) <$> lastFrom p s1
    end.
Proof.
  induction s1 as [|c s1 IH].
  - rewrite append_nil_l. by destruct (lastFrom p s2).
  - rewrite append_cons. simpl. rewrite IH. destruct (lastFrom p s2); [done|].
    destruct (lastFrom p s1); simpl; [done|]. by destruct (p c).
Qed.

(** What [lastFrom] returns starts with a byte satisfying [p], has no
    further such byte, and is a suffix of the string. *)
Lemma lastFrom_some p s t :
  lastFrom p s = Some t →
  ∃ c t' pre, t = String c t' ∧ p c = true ∧
    allBytes (fun c => negb (p c)) t' = true ∧ s = pre +:+ t.
Proof.
  revert t. induction s as [|c s IH]; intros t; simpl; [done|].
  destruct (lastFrom p s) as [u|] eqn:Hu.
  - intros [= <-]. destruct (IH u eq_refl) as (c' & t' & pre & -> & ? & ? & ->).
    exists c', t', (String c pre). done.
  - destruct (p c) eqn:Hc; [|done]. intros [= <-].
    exists c, s, "". split_and!; [done|done| |done]. by apply lastFrom_none.
Qed.

Lemma lastElement_no_slash path :
  allBytes (fun c => negb (isSlash c)) (lastElement path) = true.
Proof.
  unfold lastElement. destruct (lastFrom isSlash path) as [t|] eqn:Ht.
  - apply lastFrom_some in Ht as (c & t' & pre & -> & _ & ? & _). done.
  - by apply lastFrom_none.
Qed.

Lemma lastElement_suffix path : ∃ pre, path = pre +:+ lastElement path.
Proof.
  unfold lastElement. destruct (lastFrom isSlash path) as [t|] eqn:Ht.
  - apply lastFrom_some in Ht as (c & t' & pre & -> & _ & ? & ->).
    exists (pre +:+ String c ""). by rewrite append_assoc.
  - by exists "".
Qed.

(** The shape of an extension: empty, or a dot followed by bytes that are
    neither dots nor slashes. *)
Lemma filepath_Ext_shape path :
  filepath_Ext path = ""
  ∨ ∃ e, filepath_Ext path = String "." e
         ∧ allBytes (fun c => negb (isDot c)) e = true
         ∧ allBytes (fun c => negb (isSlash c)) e = true.
Proof.
  unfold filepath_Ext.
  pose proof (lastElement_no_slash path) as Hns.
  destruct (lastFrom isDot (lastElement path)) as [t|] eqn:Ht; [|by left].
  right. apply lastFrom_some in Ht as (c & t' & pre & -> & Hc & Hnd & Hpre).
  exists t'. rewrite Hpre, allBytes_app in Hns.
  apply andb_true_iff in Hns as [_ [_ Hns]%andb_true_iff].
  split_and!; [|done|done].
  f_equal. unfold isDot, byte_eqb in Hc. by apply Ascii.eqb_eq in Hc.
Qed.

Lemma filepath_Ext_suffix path : ∃ pre, path = pre +:+ filepath_Ext path.
Proof.
  unfold filepath_Ext. destruct (lastElement_suffix path) as [pre Hpre].
  destruct (lastFrom isDot (lastElement path)) as [t|] eqn:Ht.
  - apply lastFrom_some in Ht as (c & t' & pre' & -> & _ & _ & Hl).
    exists (pre +:+ pre'). rewrite append_assoc, <- Hl. done.
  - exists path. by rewrite append_nil_r.
Qed.

(** The extension of a name built from a dot-free, slash-free stem and an
    extension is that extension. *)
Lemma filepath_Ext_stem stem path :
  allBytes isStemByte stem = true →
  filepath_Ext (stem +:+ filepath_Ext path) = filepath_Ext path.
Proof.
  intros Hstem.
  assert (Hsd : allBytes (fun c => negb (isDot c)) stem = true).
  { revert Hstem. apply allBytes_weaken.
    intros [[] [] [] [] [] [] [] []]; done. }
  assert (Hss : allBytes (fun c => negb (isSlash c)) stem = true).
  { revert Hstem. apply allBytes_weaken.
    intros [[] [] [] [] [] [] [] []]; done. }
  destruct (filepath_Ext_shape path) as [->|(e & -> & Hed & Hes)].
  - rewrite append_nil_r. unfold filepath_Ext, lastElement.
    apply lastFrom_none in Hss. rewrite Hss.
    apply lastFrom_none in Hsd. by rewrite Hsd.
  - unfold filepath_Ext at 1, lastElement.
    assert (lastFrom isSlash (stem +:+ String "." e) = None) as ->.
    { apply lastFrom_none. rewrite allBytes_app. simpl. by rewrite Hss, Hes. }
    rewrite lastFrom_app. simpl.
    apply lastFrom_none in Hed. by rewrite Hed.
Qed.

Lemma replaceRuns_bytes keep inRun s :
  allBytes (fun c => keep c || isUnderscore c) (replaceRuns keep inRun s) = true.
Proof.
  revert inRun. induction s as [|c s IH]; intros inRun; simpl; [done|].
  destruct (keep c) eqn:Hc; simpl; [by rewrite Hc, IH|].
  destruct inRun; simpl; [done|]. rewrite IH. by rewrite orb_true_r.
Qed.

Lemma replaceRuns_preserves (q : ascii → bool) keep inRun s :
  q "_"%char = true → allBytes q s = true →
  allBytes q (replaceRuns keep inRun s) = true.
Proof.
  intros Hq. revert inRun. induction s as [|c s IH]; intros inRun; simpl; [done|].
  intros [Hc Hs]%andb_true_iff.
  destruct (keep c); simpl; [by rewrite Hc, IH|].
  destruct inRun; simpl; [by apply IH|]. by rewrite Hq, IH.
Qed.

Lemma strings_CutPrefix_bytes (q : ascii → bool) s pre :
  allBytes q s = true → allBytes q (strings_CutPrefix s pre).1 = true.
Proof.
  revert s. induction pre as [|p pre IH]; intros [|c s]; simpl; try done.
  intros Hall. destruct (byte_eqb c p); [|done].
  apply andb_true_iff in Hall as [Hc Hs].
  specialize (IH s Hs). destruct (strings_CutPrefix s pre) as [rest []]; simpl in *.
  - done.
  - by rewrite Hc, Hs.
Qed.

Lemma replace_go_bytes (q : ascii → bool) old skip s :
  allBytes q s = true → allBytes q (replace_go old "" skip s) = true.
Proof.
  revert skip. induction s as [|c s IH]; intros skip; [done|].
  intros [Hc Hs]%andb_true_iff. destruct skip; [|by apply IH].
  cbn [replace_go allBytes].
  destruct (strings_HasPrefix (String c s) old).
  - rewrite append_nil_l. by apply IH.
  - cbn [allBytes]. rewrite Hc. by apply IH.
Qed.

End StringFacts.

(** ** The URL extractor of [src/main.go] *)

Section Extractor.

Variable env : Env.

Local Abbreviation keepFirst := (Spec.keepFirst env).

Lemma keepFirst_app l1 l2 seen :
  keepFirst seen (l1 ++ l2)
  = keepFirst seen l1
    ++ keepFirst (list_to_set (URL <$> keepFirst seen l1) ∪ seen) l2.
Proof.
  revert seen. induction l1 as [|v l1 IH]; intros seen; simpl.
  - f_equal. set_solver.
  - destruct (isValidDownloadURL env (DownloadURL v)); [|apply IH].
    destruct (decide (DownloadURL v ∈ seen)); [apply IH|].
    simpl. rewrite IH. do 2 f_equal.
    f_equal. fold (fmap (M:=list) URL). set_solver.
Qed.

Lemma variant_loop_keepFirst vs seen acc :
  fold_left (parseJSONForDownloads_variant env) vs (seen, acc)
  = (list_to_set (URL <$> keepFirst seen vs) ∪ seen, acc ++ keepFirst seen vs).
Proof.
  revert seen acc. induction vs as [|v vs IH]; intros seen acc; simpl.
  - f_equal; [set_solver | by rewrite app_nil_r].
  - unfold parseJSONForDownloads_variant at 2. simpl.
    destruct (isValidDownloadURL env (DownloadURL v)); [|apply IH].
    destruct (decide (DownloadURL v ∈ seen)); [apply IH|].
    rewrite IH. simpl. f_equal; [set_solver | by rewrite <- app_assoc].
Qed.

Lemma result_loop_keepFirst rs seen acc :
  fold_left
    (fun st result => fold_left (parseJSONForDownloads_variant env) (Variants result) st)
    rs (seen, acc)
  = (list_to_set (URL <$> keepFirst seen (concat (Variants <$> rs))) ∪ seen,
     acc ++ keepFirst seen (concat (Variants <$> rs))).
Proof.
  revert seen acc. induction rs as [|r rs IH]; intros seen acc; simpl.
  - f_equal; [set_solver | by rewrite app_nil_r].
  - rewrite variant_loop_keepFirst, IH.
    rewrite keepFirst_app, fmap_app, list_to_set_app_L.
    f_equal; [set_solver | by rewrite <- app_assoc].
Qed.

Lemma loop_is_keepFirst data :
  parseJSONForDownloads_loop env data = keepFirst ∅ (variantsOf data).
Proof.
  unfold parseJSONForDownloads_loop, variantsOf.
  by rewrite result_loop_keepFirst.
Qed.

Lemma keepFirst_fresh seen vs item :
  item ∈ keepFirst seen vs → URL item ∉ seen.
Proof.
  revert seen. induction vs as [|v vs IH]; intros seen; simpl; [by intros ?%elem_of_nil|].
  destruct (isValidDownloadURL env (DownloadURL v)); [|apply IH].
  destruct (decide (DownloadURL v ∈ seen)); [apply IH|].
  intros [->|Hin]%elem_of_cons; [done|].
  apply IH in Hin. set_solver.
Qed.

Lemma keepFirst_NoDup seen vs : NoDup (URL <$> keepFirst seen vs).
Proof.
  revert seen. induction vs as [|v vs IH]; intros seen; simpl; [constructor|].
  destruct (isValidDownloadURL env (DownloadURL v)); [|apply IH].
  destruct (decide (DownloadURL v ∈ seen)); [apply IH|].
  simpl. constructor; [|apply IH].
  intros (item & Hurl & Hin)%list_elem_of_fmap.
  apply keepFirst_fresh in Hin. set_solver.
Qed.

Lemma keepFirst_valid seen vs item :
  item ∈ keepFirst seen vs →
  isValidDownloadURL env (URL item) = true ∧ ∃ v, v ∈ vs ∧ item = toItem v.
Proof.
  revert seen. induction vs as [|v vs IH]; intros seen; simpl; [by intros ?%elem_of_nil|].
  destruct (isValidDownloadURL env (DownloadURL v)) eqn:Hv.
  - destruct (decide (DownloadURL v ∈ seen)).
    + intros [? (v' & ? & ?)]%IH. split; [done|]. exists v'. set_solver.
    + intros [->|Hin]%elem_of_cons.
      * split; [done|]. exists v. set_solver.
      * apply IH in Hin as [? (v' & ? & ?)]. split; [done|]. exists v'. set_solver.
  - intros [? (v' & ? & ?)]%IH. split; [done|]. exists v'. set_solver.
Qed.

Lemma keepFirst_sublist seen vs :
  keepFirst seen vs `sublist_of` (toItem <$> vs).
Proof.
  revert seen. induction vs as [|v vs IH]; intros seen; simpl; [constructor|].
  destruct (isValidDownloadURL env (DownloadURL v)).
  - destruct (decide (DownloadURL v ∈ seen)).
    + by apply sublist_cons.
    + by apply sublist_skip.
  - by apply sublist_cons.
Qed.

Lemma keepFirst_complete seen vs v :
  v ∈ vs → isValidDownloadURL env (DownloadURL v) = true →
  DownloadURL v ∈ seen ∨ DownloadURL v ∈ URL <$> keepFirst seen vs.
Proof.
  revert seen. induction vs as [|v0 vs IH]; intros seen; simpl; [by intros ?%elem_of_nil|].
  intros [->|Hin]%elem_of_cons Hvalid.
  - rewrite Hvalid. destruct (decide (DownloadURL v0 ∈ seen)); [by left|].
    right. simpl. set_solver.
  - destruct (isValidDownloadURL env (DownloadURL v0)); [|by apply IH].
    destruct (decide (DownloadURL v0 ∈ seen)); [by apply IH|].
    destruct (IH ({[DownloadURL v0]} ∪ seen) Hin Hvalid) as [Hs|Hk].
    + apply elem_of_union in Hs as [->%elem_of_singleton|Hs]; [|by left].
      right. simpl. set_solver.
    + right. simpl. set_solver.
Qed.

Lemma keepFirst_first_wins seen l1 v l2 :
  isValidDownloadURL env (DownloadURL v) = true →
  DownloadURL v ∉ seen →
  (∀ v', v' ∈ l1 → DownloadURL v' ≠ DownloadURL v) →
  toItem v ∈ keepFirst seen (l1 ++ v :: l2).
Proof.
  intros Hvalid. revert seen.
  induction l1 as [|v0 l1 IH]; intros seen Hfresh Hfirst; simpl.
  - rewrite Hvalid. destruct (decide (DownloadURL v ∈ seen)); [done|]. set_solver.
  - assert (DownloadURL v0 ≠ DownloadURL v) by (apply Hfirst; set_solver).
    assert (∀ v', v' ∈ l1 → DownloadURL v' ≠ DownloadURL v)
      by (intros; apply Hfirst; set_solver).
    destruct (isValidDownloadURL env (DownloadURL v0)); [|by apply IH].
    destruct (decide (DownloadURL v0 ∈ seen)); [by apply IH|].
    apply elem_of_cons. right. apply IH; [set_solver|done].
Qed.

(** C6 — Extractor URL validation.  An item is kept only if its
    [downloadUrl] parses with a non-empty scheme and host and the scheme,
    lower-cased, is [http] or [https]; every variant that passes this test
    has its URL in the output; the test raises no error (a page that
    decodes is extracted without a log line).  With [net/url] parsing the
    three sample strings the way it does, no output item carries
    [ftp://x/y.pdf] or the empty string, and [https://host/file.pdf] is
    kept wherever it occurs. *)
Theorem extractor_url_validation
    (Hftp : url_Parse env "ftp://x/y.pdf" = Some {| Scheme := "ftp"; Host := "x" |})
    (Hempty : url_Parse env "" = Some {| Scheme := ""; Host := "" |})
    (Hhttps : url_Parse env "https://host/file.pdf"
              = Some {| Scheme := "https"; Host := "host" |}) :
  (∀ rawURL, isValidDownloadURL env rawURL = true ↔
     ∃ u, url_Parse env rawURL = Some u ∧ Scheme u ≠ "" ∧ Host u ≠ "" ∧
          (ToLower env (Scheme u) = "http" ∨ ToLower env (Scheme u) = "https")) ∧
  (∀ data item, item ∈ parseJSONForDownloads_loop env data →
     isValidDownloadURL env (URL item) = true) ∧
  (∀ data v, v ∈ variantsOf data → isValidDownloadURL env (DownloadURL v) = true →
     DownloadURL v ∈ URL <$> parseJSONForDownloads_loop env data) ∧
  (∀ jsonData data w, json_Unmarshal env jsonData = Ok data →
     parseJSONForDownloads env jsonData w = (parseJSONForDownloads_loop env data, w)) ∧
  (∀ data item, item ∈ parseJSONForDownloads_loop env data →
     URL item ≠ "ftp://x/y.pdf" ∧ URL item ≠ "") ∧
  (∀ data v, v ∈ variantsOf data → DownloadURL v = "https://host/file.pdf" →
     "https://host/file.pdf" ∈ URL <$> parseJSONForDownloads_loop env data).
Proof.
  assert (Hiff : ∀ rawURL, isValidDownloadURL env rawURL = true ↔
     ∃ u, url_Parse env rawURL = Some u ∧ Scheme u ≠ "" ∧ Host u ≠ "" ∧
          (ToLower env (Scheme u) = "http" ∨ ToLower env (Scheme u) = "https")).
  { intros rawURL. unfold isValidDownloadURL.
    destruct (url_Parse env rawURL) as [u|]; [|split; [done|by intros (? & ? & _)]].
    destruct (decide (Scheme u = "")) as [Hs|Hs].
    { split; [done|]. intros (? & [= <-] & ? & _). done. }
    destruct (decide (Host u = "")) as [Hh|Hh].
    { split; [done|]. intros (? & [= <-] & ? & ? & _). done. }
    rewrite orb_true_iff, !bool_decide_eq_true. split.
    - intros Hl. exists u. done.
    - intros (? & [= <-] & ? & ? & Hl). done. }
  assert (Hkept : ∀ data item, item ∈ parseJSONForDownloads_loop env data →
     isValidDownloadURL env (URL item) = true).
  { intros data item. rewrite loop_is_keepFirst. by intros [? _]%keepFirst_valid. }
  assert (Hall : ∀ data v, v ∈ variantsOf data →
     isValidDownloadURL env (DownloadURL v) = true →
     DownloadURL v ∈ URL <$> parseJSONForDownloads_loop env data).
  { intros data v Hin Hvalid. rewrite loop_is_keepFirst.
    destruct (keepFirst_complete ∅ _ _ Hin Hvalid); [set_solver|done]. }
  split_and!; [done|done|done| | |].
  - intros jsonData data w Hok. unfold parseJSONForDownloads. by rewrite Hok.
  - intros data item Hvalid%Hkept. split; intros Heq; rewrite Heq in Hvalid;
      unfold isValidDownloadURL in Hvalid.
    + rewrite Hftp in Hvalid. done.
    + rewrite Hempty in Hvalid. done.
  - intros data v Hin Hurl. rewrite <- Hurl. apply Hall; [done|].
    rewrite Hurl. unfold isValidDownloadURL. rewrite Hhttps. done.
Qed.

(** The loop up to the first occurrence of a valid URL: the items of the
    variants before it, then its item, then items of later variants. *)
Lemma keepFirst_split l1 v l2 :
  isValidDownloadURL env (DownloadURL v) = true →
  (∀ v', v' ∈ l1 → DownloadURL v' ≠ DownloadURL v) →
  ∃ o2, keepFirst ∅ (l1 ++ v :: l2) = keepFirst ∅ l1 ++ toItem v :: o2
        ∧ o2 `sublist_of` (toItem <$> l2).
Proof.
  intros Hvalid Hfirst. rewrite keepFirst_app. cbn [Spec.keepFirst].
  rewrite Hvalid, decide_False.
  - eexists. split; [reflexivity|]. apply keepFirst_sublist.
  - rewrite elem_of_union, elem_of_list_to_set, list_elem_of_fmap.
    intros [(item & Hurl & Hin)|Hin]; [|set_solver].
    apply keepFirst_valid in Hin as (_ & v' & Hv' & ->).
    by apply (Hfirst v' Hv').
Qed.

(** C7 — Extractor deduplication.  The output has no two items with the
    same URL; it is a subsequence of the page's variants in traversal
    order; the first valid occurrence of a URL is the one kept, with its
    file name; and two variants sharing one valid URL give one item.  The
    items stand in the order of the first occurrences of their URLs:
    wherever a valid URL occurs for the first time, its item comes after
    items of variants before that place only and before items of
    variants after it only.  The output is the list [keepFirst] builds
    by keeping, from left to right, each valid variant whose URL has not
    been kept yet. *)
Theorem extractor_dedup (data : JSONDataRoot) :
  let out := parseJSONForDownloads_loop env data in
  NoDup (URL <$> out) ∧
  out `sublist_of` (toItem <$> variantsOf data) ∧
  (∀ l1 v l2 item,
     variantsOf data = l1 ++ v :: l2 →
     isValidDownloadURL env (DownloadURL v) = true →
     (∀ v', v' ∈ l1 → DownloadURL v' ≠ DownloadURL v) →
     toItem v ∈ out ∧
     (item ∈ out → URL item = DownloadURL v → ItemFileName item = FileName v)) ∧
  (∀ v1 v2,
     variantsOf data = [v1; v2] →
     DownloadURL v1 = DownloadURL v2 →
     isValidDownloadURL env (DownloadURL v1) = true →
     out = [toItem v1]) ∧
  (∀ l1 v l2,
     variantsOf data = l1 ++ v :: l2 →
     isValidDownloadURL env (DownloadURL v) = true →
     (∀ v', v' ∈ l1 → DownloadURL v' ≠ DownloadURL v) →
     ∃ o1 o2, out = o1 ++ toItem v :: o2
              ∧ o1 `sublist_of` (toItem <$> l1)
              ∧ o2 `sublist_of` (toItem <$> l2)) ∧
  out = keepFirst ∅ (variantsOf data).
Proof.
  simpl. rewrite loop_is_keepFirst. split_and!.
  - apply keepFirst_NoDup.
  - apply keepFirst_sublist.
  - intros l1 v l2 item Hsplit Hvalid Hfirst. rewrite Hsplit.
    assert (Hin : toItem v ∈ keepFirst ∅ (l1 ++ v :: l2))
      by (apply keepFirst_first_wins; [done|set_solver|done]).
    split; [done|]. intros Hitem Hurl.
    pose proof (keepFirst_NoDup ∅ (l1 ++ v :: l2)) as Hnd.
    apply list_elem_of_lookup in Hin as [i Hi], Hitem as [j Hj].
    assert (i = j) as ->.
    { eapply NoDup_lookup; [exact Hnd| |].
      - rewrite list_lookup_fmap, Hi. done.
      - rewrite list_lookup_fmap, Hj. simpl. by rewrite Hurl. }
    rewrite Hi in Hj. by injection Hj as <-.
  - intros v1 v2 -> Heq Hvalid. simpl. rewrite <- Heq, Hvalid.
    destruct (decide (DownloadURL v1 ∈ (∅ : gset string))) as [?|_]; [set_solver|].
    destruct (decide (DownloadURL v1 ∈ ({[DownloadURL v1]} ∪ ∅ : gset string)));
      [done|set_solver].
  - intros l1 v l2 Hsplit Hvalid Hfirst. rewrite Hsplit.
    destruct (keepFirst_split l1 v l2 Hvalid Hfirst) as (o2 & -> & Ho2).
    eexists _, o2. split; [reflexivity|]. split; [apply keepFirst_sublist|done].
  - done.
Qed.

End Extractor.

(** The sample parser makes the three sample URLs of C6 come out as
    stated. *)
Lemma extractor_url_validation_witness :
  isValidDownloadURL (Scenario.offline) "https://host/file.pdf" = true
  ∧ isValidDownloadURL (Scenario.offline) "ftp://x/y.pdf" = false
  ∧ isValidDownloadURL (Scenario.offline) "" = false.
Proof.
  pose proof (extractor_url_validation
                (Scenario.offline)
                eq_refl eq_refl eq_refl) as (Hiff & _).
  split_and!.
  - apply Hiff. eexists. split; [reflexivity|]. split_and!; [done|done|by right].
  - apply not_true_is_false. intros (u & [= <-] & _ & _ & [?|?])%Hiff; done.
  - apply not_true_is_false. intros (u & [= <-] & ? & _)%Hiff; done.
Defined.

(** A page with two variants sharing one URL yields the first of them. *)
Lemma extractor_dedup_witness :
  parseJSONForDownloads_loop
    (Scenario.envWith Scenario.twinPage (fun _ _ => GetFailed "")) Scenario.twinPage
  = [ {| URL := "https://host/file.pdf"; ItemFileName := "first.pdf" |} ].
Proof.
  pose proof (extractor_dedup
                (Scenario.envWith Scenario.twinPage (fun _ _ => GetFailed ""))
                Scenario.twinPage) as (_ & _ & _ & Hone & _).
  apply (Hone _ _ eq_refl eq_refl eq_refl).
Defined.

(** ** The filename sanitizers *)

Section Sanitizer.

Variable env : Env.

(** The name derived by [src/main.go]: a stem of bytes in [a-z0-9_]
    followed by the extension of the lower-cased input. *)
Lemma urlToFilename_stem rawURL :
  ∃ stem, allBytes isStemByte stem = true
          ∧ urlToFilename env rawURL = stem +:+ filepath_Ext (ToLower env rawURL).
Proof.
  unfold urlToFilename, getFileExtension, getFileNameOnly, removeSubstring,
    strings_ReplaceAll. cbn [fold_left].
  eexists. split; [|reflexivity].
  apply replace_go_bytes.
  set (safe := replaceRuns _ false (replaceRuns isLowerAlnum false _)).
  assert (Hsafe : allBytes isStemByte safe = true).
  { apply replaceRuns_preserves; [done|]. apply replaceRuns_bytes. }
  pose proof (strings_CutPrefix_bytes isStemByte safe "_" Hsafe) as Hcut.
  destruct (strings_CutPrefix safe "_") as [trimmed []]; done.
Qed.

Lemma urlToFilename_ext rawURL :
  filepath_Ext (urlToFilename env rawURL) = filepath_Ext (ToLower env rawURL).
Proof.
  destruct (urlToFilename_stem rawURL) as (stem & Hstem & ->).
  by apply filepath_Ext_stem.
Qed.

Lemma filepath_Ext_no_dot s :
  allBytes (fun c => negb (isDot c)) s = true → filepath_Ext s = "".
Proof.
  intros Hs. unfold filepath_Ext.
  destruct (lastElement_suffix s) as [pre Hpre].
  rewrite Hpre, allBytes_app in Hs. apply andb_true_iff in Hs as [_ Hs].
  apply lastFrom_none in Hs. by rewrite Hs.
Qed.

Lemma hexDigit_bytes b :
  isHexByte (hexDigit (nat_of_ascii b / 16)) = true
  ∧ isHexByte (hexDigit (nat_of_ascii b mod 16)) = true.
Proof. destruct b as [[] [] [] [] [] [] [] []]; done. Qed.

Lemma hexDigit_value b :
  ascii_of_nat (16 * hexValue (hexDigit (nat_of_ascii b / 16))
                + hexValue (hexDigit (nat_of_ascii b mod 16))) = b.
Proof. destruct b as [[] [] [] [] [] [] [] []]; reflexivity. Qed.

Lemma hex_bytes bytes : allBytes isHexByte (hex_EncodeToString bytes) = true.
Proof.
  induction bytes as [|b bytes IH]; [done|]. cbn [hex_EncodeToString allBytes].
  destruct (hexDigit_bytes b) as [-> ->]. done.
Qed.

Lemma hexDecode_encode bytes : hexDecode (hex_EncodeToString bytes) = bytes.
Proof.
  induction bytes as [|b bytes IH]; [done|].
  cbn [hex_EncodeToString hexDecode]. by rewrite hexDigit_value, IH.
Qed.

Lemma lowerBytes_fixed s :
  allBytes (fun c => bool_decide (lowerByte c = c)) s = true → lowerBytes s = s.
Proof.
  induction s as [|c s IH]; simpl; [done|].
  intros [Hc%bool_decide_eq_true Hs]%andb_true_iff. by rewrite Hc, IH.
Qed.

Lemma isASCII_allBytes s :
  isASCII s = allBytes (fun c => nat_of_ascii c <? 128) s.
Proof. induction s as [|c s IH]; simpl; [done|]. by rewrite IH. Qed.

(** The name derived by [part_000]: the hexadecimal digest and [.pdf]. *)
Lemma part000_urlToFilename_eq rawURL :
  Part000.urlToFilename env rawURL
  = hex_EncodeToString (sha256_Sum256 env rawURL) +:+ ".pdf".
Proof.
  unfold Part000.urlToFilename, Part000.generateHash, Part000.getFileExtension.
  set (hex := hex_EncodeToString _).
  pose proof (hex_bytes (sha256_Sum256 env rawURL)) as Hhex. fold hex in Hhex.
  rewrite filepath_Ext_no_dot.
  2:{ revert Hhex. apply allBytes_weaken. intros [[] [] [] [] [] [] [] []]; done. }
  destruct (decide ("" = ".pdf")) as [?|_]; [done|].
  unfold strings_ToLower.
  assert (isASCII (hex +:+ ".pdf") = true) as ->.
  { rewrite isASCII_allBytes, allBytes_app. apply andb_true_iff. split; [|done].
    revert Hhex. apply allBytes_weaken. intros [[] [] [] [] [] [] [] []]; done. }
  apply lowerBytes_fixed. rewrite allBytes_app. apply andb_true_iff. split; [|done].
  revert Hhex. apply allBytes_weaken. intros [[] [] [] [] [] [] [] []]; done.
Qed.

(** The second pattern of [urlToFilename], [_+], finds no run longer than
    one underscore in what the first pattern left. *)
Lemma replaceRuns_collapsed inRun s :
  replaceRuns (fun c => negb (isUnderscore c)) inRun (replaceRuns isLowerAlnum inRun s)
  = replaceRuns isLowerAlnum inRun s.
Proof.
  revert inRun. induction s as [|c s IH]; intros inRun; [done|].
  cbn [replaceRuns]. destruct (isLowerAlnum c) eqn:Hc.
  - cbn [replaceRuns].
    assert (negb (isUnderscore c) = true) as ->.
    { revert Hc. by destruct c as [[] [] [] [] [] [] [] []]. }
    by rewrite IH.
  - destruct inRun; [apply IH|]. cbn [replaceRuns]. by rewrite IH.
Qed.

Lemma strings_CutPrefix_underscore s :
  match strings_CutPrefix s "_" with
  | (trimmed, true) => trimmed
  | (_, false) => s
  end
  = match s with String "_" rest => rest | _ => s end.
Proof.
  destruct s as [|c s]; [done|]. by destruct c as [[] [] [] [] [] [] [] []].
Qed.

Lemma strings_TrimPrefix_dot s :
  strings_TrimPrefix s "." = match s with String "." name => name | _ => s end.
Proof.
  destruct s as [|c s]; [done|]. by destruct c as [[] [] [] [] [] [] [] []].
Qed.

(** The name derived by [src/main.go] is the stem of the last path
    segment of the lower-cased input, followed by its extension. *)
Lemma urlToFilename_stemOf rawURL :
  urlToFilename env rawURL
  = stemOf (path_Base (ToLower env rawURL)) (filepath_Ext (ToLower env rawURL))
    +:+ filepath_Ext (ToLower env rawURL).
Proof.
  unfold urlToFilename, stemOf, getFileExtension, getFileNameOnly, removeSubstring.
  cbn [fold_left].
  by rewrite replaceRuns_collapsed, strings_CutPrefix_underscore, strings_TrimPrefix_dot.
Qed.

Lemma stemOf_bytes base ext : allBytes isStemByte (stemOf base ext) = true.
Proof.
  unfold stemOf, strings_ReplaceAll. apply replace_go_bytes.
  pose proof (replaceRuns_bytes isLowerAlnum false base) as Hruns.
  fold isStemByte in Hruns.
  destruct (replaceRuns isLowerAlnum false base) as [|c rest]; [done|].
  apply andb_true_iff in Hruns as [Hc Hrest].
  destruct c as [[] [] [] [] [] [] [] []]; cbn in Hc |- *; rewrite ?Hrest; done.
Qed.

(** C9, as amended — the sanitizer contract the code keeps.  Both
    sanitizers are functions of their input.  In [src/main.go] the name
    is [stemOf base ext +:+ ext], where [ext] is the extension and [base]
    the last path segment of the lower-cased input: in [base] every
    maximal run of bytes outside [a-z0-9] becomes one underscore, one
    leading underscore is dropped and every occurrence of an underscore
    followed by [ext] without its dot is deleted.  Such a stem has bytes
    in [a-z0-9_] only, so the extension of the name is [ext]: it is [.pdf]
    exactly when the input's own extension is.  Two inputs whose
    lower-cased forms have the same last path segment and the same
    extension get the same name.  In [part_000] the name is the
    hexadecimal SHA-256 digest followed by [.pdf], so two URLs get the
    same name only if their digests are equal. *)
Theorem sanitizer_contract :
  (∀ a b, a = b → urlToFilename env a = urlToFilename env b) ∧
  (∀ s, urlToFilename env s
        = stemOf (path_Base (ToLower env s)) (filepath_Ext (ToLower env s))
          +:+ filepath_Ext (ToLower env s)) ∧
  (∀ base ext, allBytes isStemByte (stemOf base ext) = true) ∧
  (∀ s, filepath_Ext (urlToFilename env s) = filepath_Ext (ToLower env s)) ∧
  (∀ a b, path_Base (ToLower env a) = path_Base (ToLower env b) →
          filepath_Ext (ToLower env a) = filepath_Ext (ToLower env b) →
          urlToFilename env a = urlToFilename env b) ∧
  (∀ a b, a = b → Part000.urlToFilename env a = Part000.urlToFilename env b) ∧
  (∀ u, Part000.urlToFilename env u
        = hex_EncodeToString (sha256_Sum256 env u) +:+ ".pdf") ∧
  (∀ a b, Part000.urlToFilename env a = Part000.urlToFilename env b →
          sha256_Sum256 env a = sha256_Sum256 env b).
Proof.
  split_and!.
  - by intros a b ->.
  - apply urlToFilename_stemOf.
  - apply stemOf_bytes.
  - apply urlToFilename_ext.
  - intros a b Hbase Hext. by rewrite !urlToFilename_stemOf, Hbase, Hext.
  - by intros a b ->.
  - apply part000_urlToFilename_eq.
  - intros a b. rewrite !part000_urlToFilename_eq. intros Heq%append_inv_tail.
    apply (f_equal hexDecode) in Heq. by rewrite !hexDecode_encode in Heq.
Qed.

End Sanitizer.

(** C9, as stated, fails on [src/main.go]: two distinct URLs are given the
    same name, so are two distinct suggested names, and a name can end in
    an extension other than [.pdf] or in none. *)
Lemma sanitizer_collision :
  "https://host/x/Report.pdf" ≠ "https://host/y/report.pdf"
  ∧ urlToFilename Scenario.offline "https://host/x/Report.pdf"
    = urlToFilename Scenario.offline "https://host/y/report.pdf"
  ∧ urlToFilename Scenario.offline "Safety Sheet.pdf"
    = urlToFilename Scenario.offline "safety-sheet.PDF"
  ∧ urlToFilename Scenario.offline "https://host/files/data.zip" = "data.zip"
  ∧ urlToFilename Scenario.offline "annual_report" = "annualreport".
Proof. split_and!; [done|reflexivity..]. Qed.

(** A suggested name with a path, capitals and a space. *)
Lemma sanitizer_contract_witness :
  urlToFilename Scenario.offline "Report.PDF" = urlToFilename Scenario.offline "Report.PDF"
  ∧ urlToFilename Scenario.offline "https://host/docs/Safety Sheet.PDF"
    = "safety_sheet.pdf"
  ∧ filepath_Ext (urlToFilename Scenario.offline "Report.PDF") = ".pdf".
Proof.
  pose proof (sanitizer_contract Scenario.offline) as (Hstable & Hname & _ & Hext & _).
  split_and!; [by apply Hstable| |].
  - rewrite Hname. reflexivity.
  - rewrite Hext. reflexivity.
Defined.


(** ** The item fetcher and the orchestrator of [src/main.go] *)

(** One step of symbolic execution: simplify, then split on the next
    value the program inspects. *)
Ltac step :=
  simpl;
  first
    [ match goal with
      | H : ?x = _ |- context [match ?x with _ => _ end] => rewrite H
      end
    | match goal with
      | |- context [match ?x with _ => _ end] =>
          lazymatch type of x with
          | prod _ _ => fail
          | _ => let E := fresh "E" in destruct x eqn:E
          end
      end
    | match goal with
      | |- context [match ?x with _ => _ end] =>
          let E := fresh "E" in destruct x eqn:E
      end ].

Ltac steps := repeat step; simpl.

Ltac unfold_sys :=
  unfold os_ReadFile, os_Create, file_Write, os_OpenAppend, file_Append,
    os_MkdirAll, os_Mkdir, client_Get, time_Sleep, log, os_Stat, setNode,
    tick, emit, bind, ret in *.

Section Fetcher.

Variable env : Env.

Lemma gets_app t1 t2 : gets (t1 ++ t2) = gets t1 ++ gets t2.
Proof.
  induction t1 as [|[] t1 IH]; simpl; rewrite ?IH; done.
Qed.

Lemma sleeps_app t1 t2 : sleeps (t1 ++ t2) = sleeps t1 ++ sleeps t2.
Proof.
  induction t1 as [|[] t1 IH]; simpl; rewrite ?IH; done.
Qed.

Lemma diskWrites_app t1 t2 : diskWrites (t1 ++ t2) = diskWrites t1 ++ diskWrites t2.
Proof.
  induction t1 as [|[] t1 IH]; simpl; rewrite ?IH; done.
Qed.

Lemma doesFileExist_true w path :
  isFileAt w path → doesFileExist path w = (true, w).
Proof. intros [c Hc]. unfold doesFileExist, bind, os_Stat. by rewrite Hc. Qed.

(** C4 — Ledger-hit fast path.  When the URL is in the ledger set the
    call returns at once with no error and the same set; the file system
    and the clock of external calls are untouched, no request is made and
    nothing is written: the only effect is the log line. *)
Theorem ledger_hit_fast_path
    (finalURL outputDirectory filename logFilePath : string)
    (alreadyDownloaded : gset string) (w : World) :
  finalURL ∈ alreadyDownloaded →
  ∃ w',
    downloadPDFFile env finalURL outputDirectory filename logFilePath
      alreadyDownloaded w = ((None, alreadyDownloaded), w')
    ∧ fs w' = fs w
    ∧ clock w' = clock w
    ∧ gets (trace w') = gets (trace w)
    ∧ diskWrites (trace w') = diskWrites (trace w)
    ∧ trace w'
      = trace w ++ [EvLog ("URL already logged as downloaded, skipping: " +:+ finalURL)].
Proof.
  intros Hin. unfold downloadPDFFile.
  destruct (decide (finalURL ∈ alreadyDownloaded)); [|done].
  eexists. split; [reflexivity|]. simpl.
  rewrite gets_app, diskWrites_app. simpl. rewrite !app_nil_r. done.
Qed.

Lemma doesFileExist_false w path :
  ¬ isFileAt w path → doesFileExist path w = (false, w).
Proof.
  intros Hno. unfold doesFileExist, bind, os_Stat, isFileAt in *.
  destruct (fs w !! key path) as [[c|]|]; [|done..]. destruct Hno. by exists c.
Qed.

Lemma isFileAt_dec w path : {isFileAt w path} + {¬ isFileAt w path}.
Proof.
  unfold isFileAt. destruct (fs w !! key path) as [[c|]|].
  - left. by exists c.
  - right. by intros [? ?].
  - right. by intros [? ?].
Qed.

(** [appendLineToFile] when nothing fails: the line and a newline are
    added to the file, which is created when missing. *)
Lemma appendLineToFile_ok w path content :
  io_fault env (clock w) = None →
  io_fault env (S (clock w)) = None →
  fs w !! key path ≠ Some Dir →
  appendLineToFile env path content w
  = (tt, {| fs := <[key path := File (fileText w path +:+ content +:+ LF)]> (fs w);
            clock := S (S (clock w));
            trace := trace w ++ [EvAppend path (content +:+ LF)] |}).
Proof.
  intros Hopen Hwrite Hnodir.
  unfold appendLineToFile, fileText. unfold_sys. steps; try done.
  by rewrite insert_insert_eq.
Qed.

(** [appendLineToFile] in general: no request, at most the one append,
    and files stay files. *)
Lemma appendLineToFile_any w path content :
  let w' := (appendLineToFile env path content w).2 in
  gets (trace w') = gets (trace w)
  ∧ sleeps (trace w') = sleeps (trace w)
  ∧ (diskWrites (trace w') = diskWrites (trace w)
     ∨ diskWrites (trace w') = diskWrites (trace w) ++ [EvAppend path (content +:+ LF)])
  ∧ (∀ p, isFileAt w p → isFileAt w' p)
  ∧ (∀ k, k ≠ key path → fs w' !! k = fs w !! k).
Proof.
  unfold appendLineToFile, isFileAt. unfold_sys. steps;
    rewrite ?gets_app, ?sleeps_app, ?diskWrites_app; simpl; rewrite ?app_nil_r;
    (split_and!; [done|done|eauto| |by intros; rewrite ?lookup_insert_ne]);
    intros p [c' Hp]; destruct (decide (key path = key p)) as [Heq|];
    try rewrite <- Heq in *;
    rewrite ?lookup_insert_eq, ?lookup_insert_ne by done; eauto.
Qed.

(** Every call of [downloadPDFFile] ends in one of the outcomes of
    [Fetched]. *)
Lemma downloadPDFFile_outcome finalURL outputDirectory filename logFilePath s w :
  Fetched env finalURL (localPath env outputDirectory filename) logFilePath s w
    (downloadPDFFile env finalURL outputDirectory filename logFilePath s w).
Proof.
  unfold downloadPDFFile. fold (localPath env outputDirectory filename).
  set (path := localPath env outputDirectory filename).
  destruct (decide (finalURL ∈ s)) as [Hin|Hnew].
  { by constructor. }
  destruct (isFileAt_dec w path) as [Hfile|Hnofile].
  { unfold bind at 1. rewrite (doesFileExist_true _ _ Hfile).
    unfold bind, log, emit, ret. simpl.
    destruct (appendLineToFile _ _ _ _) as [[] w'] eqn:Happ.
    replace w' with (recorded env logFilePath finalURL path
      (logged w (EvLog ("File already exists locally, skipping and logging: " +:+ path)))).
    - by constructor.
    - unfold recorded, ledgerLine, logged. by rewrite Happ. }
  unfold bind at 1. rewrite (doesFileExist_false _ _ Hnofile).
  unfold bind at 1, client_Get, bind, tick, emit, ret. simpl.
  destruct (http_Get env (clock w) finalURL) as [err|resp] eqn:Hget.
  { by apply FailedRequest. }
  destruct (negb (StatusCode resp =? 200)) eqn:Hstatus.
  { eapply FailedResponse; eauto. left.
    apply negb_true_iff, Nat.eqb_neq in Hstatus. done. }
  destruct (negb (strings_Contains (ContentType resp) "application/pdf")) eqn:Hct.
  { eapply FailedResponse; eauto. right. left. by apply negb_true_iff in Hct. }
  destruct (ReadErr resp) as [rerr|] eqn:Hread.
  { eapply FailedResponse; eauto. right. right. left. by rewrite Hread. }
  destruct (String.length (Body resp) =? 0) eqn:Hlen.
  { eapply FailedResponse; eauto. right. right. right.
    apply Nat.eqb_eq in Hlen. by destruct (Body resp). }
  assert (Hacc : ¬ rejected resp).
  { apply negb_false_iff, Nat.eqb_eq in Hstatus. apply negb_false_iff in Hct.
    apply Nat.eqb_neq in Hlen.
    intros [?|[?|[?|Hb]]]; [congruence..|]. rewrite Hb in Hlen. done. }
  unfold os_Create, file_Write, bind, tick, os_Stat, setNode, emit, ret. simpl.
  destruct (io_fault env (S (clock w))) as [f|] eqn:Hf1; simpl.
  { eapply (FailedCreate _ _ _ _ _ _ resp (_ +:+ _)); eauto. }
  destruct (fs w !! key path) as [[c|]|] eqn:Hk; simpl.
  { destruct Hnofile. by exists c. }
  { eapply (FailedCreate _ _ _ _ _ _ resp (_ +:+ _)); eauto. }
  destruct (io_fault env (S (S (clock w)))) as [f|] eqn:Hf2; simpl.
  { rewrite insert_insert_eq. eapply FailedWrite; eauto. }
  rewrite insert_insert_eq.
  destruct (appendLineToFile _ _ _ _) as [[] w'] eqn:Happ. unfold log, emit. simpl.
  match goal with
  | Happ : appendLineToFile _ _ _ ?w0 = _ |- _ =>
      replace w' with (recorded env logFilePath finalURL path w0)
        by (unfold recorded, ledgerLine; by rewrite Happ)
  end.
  eapply (Downloaded _ _ _ _ _ _ resp); eauto.
Qed.

(** C5 — Ledger-disk reconciliation.  A URL that is not in the ledger
    set while its local file is on disk is not requested; the call
    returns no error, adds the URL to the set and issues the one append
    of its ledger line and nothing else.  When the ledger file can be
    opened and written, the file system changes by exactly that line. *)
Theorem ledger_disk_reconciliation
    (finalURL outputDirectory filename logFilePath : string)
    (alreadyDownloaded : gset string) (w : World) :
  let path := localPath env outputDirectory filename in
  let r := downloadPDFFile env finalURL outputDirectory filename logFilePath
             alreadyDownloaded w in
  finalURL ∉ alreadyDownloaded →
  isFileAt w path →
  r.1 = (None, {[finalURL]} ∪ alreadyDownloaded)
  ∧ gets (trace r.2) = gets (trace w)
  ∧ (diskWrites (trace r.2) = diskWrites (trace w)
     ∨ diskWrites (trace r.2)
       = diskWrites (trace w)
         ++ [EvAppend logFilePath (ledgerLine finalURL path +:+ LF)])
  ∧ (io_fault env (clock w) = None →
     io_fault env (S (clock w)) = None →
     fs w !! key logFilePath ≠ Some Dir →
     fs r.2 = <[key logFilePath :=
                  File (fileText w logFilePath +:+ ledgerLine finalURL path +:+ LF)]> (fs w)
     ∧ diskWrites (trace r.2)
       = diskWrites (trace w)
         ++ [EvAppend logFilePath (ledgerLine finalURL path +:+ LF)]).
Proof.
  intros path r Hnew Hfile. subst r.
  pose proof (downloadPDFFile_outcome finalURL outputDirectory filename logFilePath
                alreadyDownloaded w) as Hcase.
  fold path in Hcase.
  destruct Hcase as [Hin| _ _ |? _ Hno|? ? _ Hno|? ? _ Hno|? ? _ Hk|? _ Hk];
    try done; try (destruct Hfile as [c Hc]; congruence).
  simpl. unfold recorded.
  set (w1 := logged w _).
  pose proof (appendLineToFile_any w1 logFilePath (ledgerLine finalURL path))
    as (Hg & _ & Hd & _ & _).
  pose proof (appendLineToFile_ok w1 logFilePath (ledgerLine finalURL path)) as Hok.
  simpl in *. rewrite gets_app, diskWrites_app in *. simpl in *.
  rewrite !app_nil_r in *.
  split_and!; [done|done|done|].
  intros Ho Hw Hd'. rewrite (Hok Ho Hw Hd'). simpl.
  rewrite !diskWrites_app. simpl. rewrite ?app_nil_r. done.
Qed.

(** When the ledger file cannot be opened, [appendLineToFile] logs the
    error and changes nothing on disk; the reconciliation then still
    returns no error and adds the URL to the ledger set. *)
Lemma appendLineToFile_unopened w path content f :
  io_fault env (clock w) = Some f →
  fs (appendLineToFile env path content w).2 = fs w
  ∧ diskWrites (trace (appendLineToFile env path content w).2) = diskWrites (trace w).
Proof.
  intros Hfault. unfold appendLineToFile. unfold_sys. simpl. rewrite Hfault. simpl.
  rewrite diskWrites_app. simpl. by rewrite app_nil_r.
Qed.

(** X6 — reconciliation when the ledger file cannot be opened.  A URL
    that is not in the ledger set while its local file is on disk is
    still answered with no error and added to the ledger set when opening
    the ledger file fails: the failure is only logged, nothing on disk
    changes, and the URL is in the set for the rest of the run although
    no ledger line names it. *)
Lemma reconciliation_without_ledger
    (finalURL outputDirectory filename logFilePath : string)
    (alreadyDownloaded : gset string) (w : World) (f : IOFault) :
  let path := localPath env outputDirectory filename in
  let r := downloadPDFFile env finalURL outputDirectory filename logFilePath
             alreadyDownloaded w in
  finalURL ∉ alreadyDownloaded →
  isFileAt w path →
  io_fault env (clock w) = Some f →
  r.1 = (None, {[finalURL]} ∪ alreadyDownloaded)
  ∧ fs r.2 = fs w
  ∧ diskWrites (trace r.2) = diskWrites (trace w).
Proof.
  intros path r Hnew Hfile Hfault. subst r.
  pose proof (downloadPDFFile_outcome finalURL outputDirectory filename logFilePath
                alreadyDownloaded w) as Hcase.
  fold path in Hcase.
  destruct Hcase as [Hin| _ _ |? _ Hno|? ? _ Hno|? ? _ Hno|? ? _ Hk|? _ Hk];
    try done; try (destruct Hfile as [c Hc]; congruence).
  simpl. unfold recorded.
  set (w1 := logged w _).
  destruct (appendLineToFile_unopened w1 logFilePath (ledgerLine finalURL path) f Hfault)
    as [Hfs Hd].
  rewrite Hfs, Hd. simpl. rewrite diskWrites_app. simpl. by rewrite app_nil_r.
Qed.

(** C8 — Failure atomicity.  When the response is rejected before the
    body is accepted (status other than 200, a content type without
    [application/pdf], a failed body read, an empty body) the call returns
    an error and leaves the ledger set and the file system as they were:
    the request is the only effect. *)
Theorem failure_atomicity
    (finalURL outputDirectory filename logFilePath : string)
    (alreadyDownloaded : gset string) (w : World) (resp : Response) :
  let path := localPath env outputDirectory filename in
  finalURL ∉ alreadyDownloaded →
  ¬ isFileAt w path →
  http_Get env (clock w) finalURL = GetResponse resp →
  rejected resp →
  ∃ err w',
    downloadPDFFile env finalURL outputDirectory filename logFilePath
      alreadyDownloaded w = ((Some err, alreadyDownloaded), w')
    ∧ fs w' = fs w
    ∧ diskWrites (trace w') = diskWrites (trace w)
    ∧ trace w' = trace w ++ [EvGet finalURL].
Proof.
  intros path Hnew Hnofile Hget Hrej.
  pose proof (downloadPDFFile_outcome finalURL outputDirectory filename logFilePath
                alreadyDownloaded w) as Hcase.
  fold path in Hcase.
  destruct (downloadPDFFile _ _ _ _ _ _ _) as [[e s'] w'].
  inversion Hcase; subst; try done; try congruence.
  exists err, (requested w finalURL). split_and!; try done.
  simpl. rewrite diskWrites_app. simpl. by rewrite app_nil_r.
Qed.

Lemma isFileAt_insert_file w0 fs0 cl tr path c p :
  fs0 = <[key path := File c]> (fs w0) →
  isFileAt w0 p ∨ key p = key path →
  isFileAt {| fs := fs0; clock := cl; trace := tr |} p.
Proof.
  intros -> Hp. unfold isFileAt in *. simpl.
  destruct (decide (key path = key p)) as [Heq|Hne].
  - rewrite <- Heq, lookup_insert_eq. eauto.
  - rewrite lookup_insert_ne by done. destruct Hp as [?|?]; [done|congruence].
Qed.

(** The disk writes of one call of [downloadPDFFile], in their order. *)
Lemma downloadPDFFile_disk_order
    (finalURL outputDirectory filename logFilePath : string)
    (alreadyDownloaded : gset string) (w : World) :
  let path := localPath env outputDirectory filename in
  let r := downloadPDFFile env finalURL outputDirectory filename logFilePath
             alreadyDownloaded w in
  let line := EvAppend logFilePath (ledgerLine finalURL path +:+ LF) in
  ∃ new, diskWrites (trace r.2) = diskWrites (trace w) ++ new ∧
    ((r.1.2 = alreadyDownloaded ∧ (new = [] ∨ new = [EvCreate path]))
     ∨ (r.1 = (None, {[finalURL]} ∪ alreadyDownloaded)
        ∧ isFileAt w path
        ∧ (new = [] ∨ new = [line])
        ∧ isFileAt r.2 path
        ∧ ∃ w_rec, isFileAt w_rec path
            ∧ fs w_rec = fs w
            ∧ fs r.2 = fs (recorded env logFilePath finalURL path w_rec))
     ∨ (∃ resp,
          r.1 = (None, {[finalURL]} ∪ alreadyDownloaded)
          ∧ http_Get env (clock w) finalURL = GetResponse resp
          ∧ (new = [EvCreate path; EvWrite path (Body resp)]
             ∨ new = [EvCreate path; EvWrite path (Body resp); line])
          ∧ isFileAt r.2 path
          ∧ ∃ w_rec, fs w_rec !! key path = Some (File (Body resp))
              ∧ diskWrites (trace w_rec)
                = diskWrites (trace w) ++ [EvCreate path; EvWrite path (Body resp)]
              ∧ fs r.2 = fs (recorded env logFilePath finalURL path w_rec))).
Proof.
  intros path r line. subst r.
  pose proof (downloadPDFFile_outcome finalURL outputDirectory filename logFilePath
                alreadyDownloaded w) as Hcase.
  fold path in Hcase.
  destruct Hcase as [Hin|Hnew Hfile|? _ Hno|? ? _ Hno|? ? _ Hno|? ? _ Hk|resp _ Hk Hget];
    simpl; rewrite ?diskWrites_app; simpl; rewrite ?app_nil_r.
  - exists []. rewrite app_nil_r. eauto.
  - set (w1 := logged w _).
    pose proof (appendLineToFile_any w1 logFilePath (ledgerLine finalURL path))
      as (_ & _ & Hd & Hkeep & _).
    fold (recorded env logFilePath finalURL path w1) in Hd, Hkeep.
    assert (Hw1 : isFileAt w1 path) by done.
    simpl in Hd. rewrite diskWrites_app in Hd. simpl in Hd. rewrite app_nil_r in Hd.
    destruct Hd as [Hd|Hd]; rewrite Hd.
    + exists []. rewrite app_nil_r. split; [done|]. right. left.
      split_and!; eauto; exists w1; done.
    + exists [line]. split; [done|]. right. left.
      split_and!; eauto; exists w1; done.
  - exists []. rewrite app_nil_r. eauto.
  - exists []. rewrite app_nil_r. eauto.
  - exists []. rewrite app_nil_r. eauto.
  - exists [EvCreate path]. eauto.
  - set (w1 := Build_World _ _ _).
    pose proof (appendLineToFile_any w1 logFilePath (ledgerLine finalURL path))
      as (_ & _ & Hd & Hkeep & _).
    fold (recorded env logFilePath finalURL path w1) in Hd, Hkeep.
    assert (Hw1 : isFileAt w1 path).
    { eapply isFileAt_insert_file; [done|by right]. }
    assert (Hdw : diskWrites (trace w1)
                  = diskWrites (trace w) ++ [EvCreate path; EvWrite path (Body resp)]).
    { subst w1. simpl. rewrite !diskWrites_app. simpl.
      rewrite app_nil_r, <- app_assoc. done. }
    rewrite Hdw in Hd.
    destruct Hd as [Hd|Hd]; rewrite Hd.
    + eexists. split; [done|]. right. right. exists resp.
      split_and!; eauto; exists w1; split_and!; [|done..];
      subst w1; simpl; by rewrite lookup_insert_eq.
    + rewrite <- app_assoc. eexists. split; [done|]. right. right. exists resp.
      split_and!; eauto; exists w1; split_and!; [|done..];
      subst w1; simpl; by rewrite lookup_insert_eq.
Qed.

(** What any outcome does to the ledger set, the requests and the
    sleeps. *)
Lemma Fetched_effects url path logFilePath s w e s' w' :
  Fetched env url path logFilePath s w (e, s', w') →
  sleeps (trace w') = sleeps (trace w)
  ∧ (gets (trace w') = gets (trace w) ∨ gets (trace w') = gets (trace w) ++ [url])
  ∧ s ⊆ s' ∧ s' ⊆ {[url]} ∪ s
  ∧ (e = None → url ∈ s')
  ∧ (e ≠ None → s' = s).
Proof.
  intros Hcase. inversion Hcase; subst; simpl;
    repeat match goal with
    | |- context [recorded env ?l ?u ?p ?w0] =>
        let H := fresh in
        pose proof (appendLineToFile_any w0 l (ledgerLine u p)) as (H & ? & _);
        fold (recorded env l u p w0) in *; simpl in *;
        generalize dependent (recorded env l u p w0); intros
    end;
    rewrite ?gets_app, ?sleeps_app in *; simpl in *; rewrite ?app_nil_r in *;
    (split_and!; [congruence| |set_solver|set_solver|set_solver|done]);
    first [ left; congruence | right; congruence ].
Qed.




End Fetcher.

(** A ledger hit on a concrete item. *)
Lemma ledger_hit_fast_path_witness :
  ∃ w',
    downloadPDFFile Scenario.offline "https://host/a.pdf" "PDFs" "A Report.PDF"
      "download.txt" {["https://host/a.pdf"]} (Scenario.world ∅)
    = ((None, {["https://host/a.pdf"]}), w')
    ∧ fs w' = ∅ ∧ gets (trace w') = [].
Proof.
  destruct (ledger_hit_fast_path Scenario.offline "https://host/a.pdf" "PDFs"
              "A Report.PDF" "download.txt" {["https://host/a.pdf"]} (Scenario.world ∅))
    as (w' & Hrun & Hfs & _ & Hgets & _).
  { by apply elem_of_singleton. }
  exists w'. done.
Defined.

(** The file is on disk and the ledger is empty: one line is appended. *)
Lemma ledger_disk_reconciliation_witness :
  fileText
    (downloadPDFFile Scenario.offline "https://host/a.pdf" "PDFs" "A Report.PDF"
       "download.txt" ∅ (Scenario.world Scenario.onDisk)).2
    "download.txt"
  = "https://host/a.pdf → PDFs/a_report.pdf" +:+ LF.
Proof.
  destruct (ledger_disk_reconciliation Scenario.offline "https://host/a.pdf" "PDFs"
              "A Report.PDF" "download.txt" ∅ (Scenario.world Scenario.onDisk))
    as (_ & _ & _ & Hok).
  { apply not_elem_of_empty. }
  { exists "%PDF-1.4". reflexivity. }
  destruct Hok as [Hfs _]; [reflexivity|reflexivity|discriminate|].
  unfold fileText. rewrite Hfs. reflexivity.
Defined.

(** A 200 response of type text/html changes nothing on disk. *)
Lemma failure_atomicity_witness :
  ∃ err w',
    downloadPDFFile (Scenario.envWith Scenario.noPage (fun _ _ => Scenario.status 200 "200 OK"))
      "https://host/a.pdf" "PDFs" "A Report.PDF" "download.txt" ∅
      (Scenario.world Scenario.emptyDir)
    = ((Some err, ∅), w')
    ∧ fs w' = Scenario.emptyDir.
Proof.
  destruct (failure_atomicity
              (Scenario.envWith Scenario.noPage (fun _ _ => Scenario.status 200 "200 OK"))
              "https://host/a.pdf" "PDFs" "A Report.PDF" "download.txt" ∅
              (Scenario.world Scenario.emptyDir)
              {| StatusCode := 200; Status := "200 OK"; ContentType := "text/html";
                 Body := ""; ReadErr := None |})
    as (err & w' & Hrun & Hfs & _).
  - apply not_elem_of_empty.
  - intros [c Hc]. discriminate Hc.
  - reflexivity.
  - right. left. reflexivity.
  - exists err, w'. done.
Defined.


(** ** The resume check of [part_000] *)

Section Resume000.

Variable env : Env.

Lemma part000_fileExists_true w path :
  isFileAt w path → Part000.fileExists path w = (true, w).
Proof. intros [c Hc]. unfold Part000.fileExists, bind, os_Stat. by rewrite Hc. Qed.

(** After a successful [fileExists] the read returns the text of the
    file: the fatal branch of [readAFileAsString] is not taken. *)
Lemma part000_readAFileAsString_guarded w path text :
  fs w !! key path = Some (File text) →
  Part000.readAFileAsString path w = (text, w).
Proof.
  intros Hc. unfold Part000.readAFileAsString, os_ReadFile, bind, os_Stat, ret.
  by rewrite Hc.
Qed.

(** C10 — the substring-based resume check of [part_000].  When the URL
    occurs anywhere in the text of the ledger file, the loop body of
    [main] does nothing at all for it: no call of [downloadPDF], hence no
    request, no write and no ledger line, whether or not the URL is the
    URL of a ledger entry.  Inside [downloadPDF] the same test decides
    whether a file found on disk gets its ledger line: when the URL occurs
    in the text it does not. *)
Theorem substring_resume_check (url text : string) (w : World) :
  fs w !! key Part000.downloadedFilesURLLocation = Some (File text) →
  strings_Contains text url = true →
  (∀ extractedURL, Part000.main_url env extractedURL url w = (tt, w))
  ∧ (∀ dir,
       isFileAt w (filepath_Join dir
                     (strings_ToLower (unicode_ToLower env)
                        (Part000.urlToFilename env url))) →
       ∃ err line,
         Part000.downloadPDF env url dir Part000.downloadedFilesURLLocation w
         = (Some err, logged w (EvLog line))).
Proof.
  intros Hledger Hsub. split.
  - intros extractedURL. unfold Part000.main_url.
    unfold bind at 1. rewrite part000_fileExists_true by (by exists text).
    unfold bind at 1. rewrite (part000_readAFileAsString_guarded _ _ _ Hledger).
    by rewrite Hsub.
  - intros dir Hfile. unfold Part000.downloadPDF.
    unfold bind at 1. rewrite part000_fileExists_true by (by exists text).
    unfold bind at 1. rewrite (part000_readAFileAsString_guarded _ _ _ Hledger).
    unfold bind at 1. rewrite part000_fileExists_true by done.
    rewrite Hsub. unfold bind, log, emit, ret. simpl. eauto.
Qed.

End Resume000.

(** The ledger records [https://host/abc.pdf]; the URL [https://host/a],
    a prefix of it, and the URL [/0a1b.pdf], a part of the recorded local
    path, are skipped although the ledger set of [src/main.go] would hold
    neither. *)
Lemma substring_resume_check_witness :
  Part000.main_url Scenario.offline [] "https://host/a" (Scenario.world Scenario.oneEntry)
  = (tt, Scenario.world Scenario.oneEntry)
  ∧ Part000.main_url Scenario.offline [] "/0a1b.pdf" (Scenario.world Scenario.oneEntry)
    = (tt, Scenario.world Scenario.oneEntry)
  ∧ (loadDownloadLogToMap "download.txt" (Scenario.world Scenario.oneEntry)).1
    = {["https://host/abc.pdf"]}.
Proof.
  split_and!.
  - apply (substring_resume_check Scenario.offline "https://host/a"
             ("https://host/abc.pdf → PDFs/0a1b.pdf" +:+ LF)); reflexivity.
  - apply (substring_resume_check Scenario.offline "/0a1b.pdf"
             ("https://host/abc.pdf → PDFs/0a1b.pdf" +:+ LF)); reflexivity.
  - vm_compute. reflexivity.
Defined.

(** ** Two runs of the pipeline *)

Lemma abandoned_app t1 t2 : abandoned (t1 ++ t2) = abandoned t1 + abandoned t2.
Proof.
  induction t1 as [|[] t1 IH]; simpl; rewrite ?IH; lia.
Qed.

Lemma abandonedLine_failed e :
  abandonedLine ("Download failed: " +:+ e) = negb (strings_Contains e "429").
Proof.
  cbv [String.append]. unfold abandonedLine. simpl. by rewrite orb_false_r.
Qed.

Lemma abandonedLine_retry e : abandonedLine ("Retry failed: " +:+ e) = true.
Proof. reflexivity. Qed.

#[local] Arguments abandonedLine : simpl never.

(** Evaluate the classification of the log lines in the goal. *)
Ltac count_lines :=
  rewrite ?abandoned_app; cbn [abandoned];
  rewrite ?abandonedLine_failed, ?abandonedLine_retry;
  repeat match goal with
         | |- context [abandonedLine ?l] => change (abandonedLine l) with false
         end;
  cbn [Nat.add].

Section TwoRuns.

Variable env : Env.


Lemma extends_refl L w : extends L w w.
Proof.
  intros k c Hk. destruct (decide (k = L)); [|done].
  exists "". by rewrite append_nil_r.
Qed.

Lemma extends_trans L w1 w2 w3 :
  extends L w1 w2 → extends L w2 w3 → extends L w1 w3.
Proof.
  intros H12 H23 k c Hk. specialize (H12 k c Hk).
  destruct (decide (k = L)) as [->|Hne].
  - destruct H12 as [x Hx]. specialize (H23 L _ Hx).
    destruct (decide (L = L)); [|done]. destruct H23 as [y Hy].
    exists (x +:+ y). by rewrite <- append_assoc.
  - specialize (H23 k c H12). by destruct (decide (k = L)).
Qed.

Lemma extends_same_fs L w w' : fs w' = fs w → extends L w w'.
Proof.
  intros Hfs k c Hk. rewrite Hfs. destruct (decide (k = L)); [|done].
  exists "". by rewrite append_nil_r.
Qed.

Lemma extends_isFileAt L w w' p : extends L w w' → isFileAt w p → isFileAt w' p.
Proof.
  intros Hext [c Hc]. specialize (Hext _ _ Hc). unfold isFileAt.
  destruct (decide (key p = L)); [destruct Hext|]; eauto.
Qed.

(** Writing a new file where there was none extends the world. *)
Lemma extends_insert_new L w fs' cl tr k n :
  fs w !! k = None → fs' = <[k := n]> (fs w) →
  extends L w {| fs := fs'; clock := cl; trace := tr |}.
Proof.
  intros Hnone -> k' c Hk. simpl.
  assert (k ≠ k') by congruence. rewrite lookup_insert_ne by done.
  destruct (decide (k' = L)); [|done]. exists "". by rewrite append_nil_r.
Qed.

Lemma appendLineToFile_extends w path content :
  extends (key path) w (appendLineToFile env path content w).2
  ∧ abandoned (trace (appendLineToFile env path content w).2) = abandoned (trace w).
Proof.
  unfold appendLineToFile. unfold_sys. steps; rewrite ?abandoned_app; simpl;
    (split; [|lia]); intros k c' Hk; simpl;
    destruct (decide (k = key path)) as [->|Hne];
    rewrite ?lookup_insert_eq, ?lookup_insert_ne by done;
    try done; try congruence; try (exists ""; by rewrite append_nil_r).
  all: try (rewrite Hk in E0 || rewrite Hk in E1); simplify_eq; eauto.
Qed.


(** What any outcome of [downloadPDFFile] means for a later run. *)
Lemma Fetched_advance url path logFilePath s w e s' w' :
  Fetched env url path logFilePath s w (e, s', w') →
  extends (key logFilePath) w w'
  ∧ abandoned (trace w') = abandoned (trace w)
  ∧ (e = None → url ∈ s' ∧ (url ∈ s ∨ isFileAt w' path))
  ∧ (e ≠ None → s' = s).
Proof.
  intros Hcase. inversion Hcase; subst.
  - split_and!; [by apply extends_same_fs| |set_solver|done].
    simpl. rewrite abandoned_app. simpl. lia.
  - set (w1 := logged w _).
    destruct (appendLineToFile_extends w1 logFilePath (ledgerLine url path))
      as [Hext Hab].
    fold (recorded env logFilePath url path w1) in Hext, Hab.
    split_and!.
    + eapply extends_trans; [|exact Hext]. by apply extends_same_fs.
    + rewrite Hab. simpl. rewrite abandoned_app. simpl. lia.
    + intros _. split; [set_solver|]. right.
      eapply extends_isFileAt; [exact Hext|done].
    + done.
  - split_and!; [by apply extends_same_fs| |done|done].
    simpl. rewrite abandoned_app. simpl. lia.
  - split_and!; [by apply extends_same_fs| |done|done].
    simpl. rewrite abandoned_app. simpl. lia.
  - split_and!; [by apply extends_same_fs| |done|done].
    simpl. rewrite abandoned_app. simpl. lia.
  - split_and!; [by eapply extends_insert_new| |done|done].
    simpl. rewrite !abandoned_app. simpl. lia.
  - set (w1 := Build_World _ _ _).
    destruct (appendLineToFile_extends w1 logFilePath (ledgerLine url path))
      as [Hext Hab].
    fold (recorded env logFilePath url path w1) in Hext, Hab.
    assert (Hfile : isFileAt w1 path).
    { eapply isFileAt_insert_file; [done|by right]. }
    split_and!.
    + eapply extends_trans; [|eapply extends_trans; [exact Hext|]].
      * by eapply extends_insert_new.
      * by apply extends_same_fs.
    + simpl. rewrite abandoned_app, Hab. simpl. rewrite !abandoned_app. simpl. lia.
    + intros _. split; [set_solver|]. right.
      eapply (extends_isFileAt (key logFilePath) (recorded env logFilePath url path w1));
        [by apply extends_same_fs|].
      eapply extends_isFileAt; [exact Hext|done].
    + done.
Qed.

Local Abbreviation L := (key downloadLogFileName).

Local Abbreviation pathOf item :=
  (localPath env outputDirectoryName (ItemFileName item)).

(** One item of the orchestrator, seen from a later run. *)
Lemma main_item_advance s item w :
  let r := main_item env s item w in
  extends L w r.2
  ∧ s ⊆ r.1.2 ∧ r.1.2 ⊆ {[URL item]} ∪ s
  ∧ match r.1.1 with
    | None =>
        abandoned (trace r.2) = abandoned (trace w)
        ∧ URL item ∈ r.1.2
        ∧ (URL item ∈ s ∨ isFileAt r.2 (pathOf item))
    | Some _ => abandoned (trace r.2) = S (abandoned (trace w))
    end.
Proof.
  intros r.
  pose proof (downloadPDFFile_outcome env (URL item) outputDirectoryName
                (ItemFileName item) downloadLogFileName s w) as Hfirst.
  assert (Hr : r = main_item env s item w) by done. clearbody r.
  unfold main_item in Hr. unfold bind at 1 in Hr.
  destruct (downloadPDFFile env (URL item) _ _ _ s w) as [[e1 s1] w1].
  pose proof (Fetched_effects env _ _ _ _ _ _ _ _ Hfirst) as (_ & _ & Hsub1 & Hsup1 & _).
  apply Fetched_advance in Hfirst as (Hext1 & Hab1 & Hok1 & Hfail1).
  destruct e1 as [errorString|]; simpl in Hr.
  2:{ subst r. simpl. destruct (Hok1 eq_refl). done. }
  rewrite (Hfail1 ltac:(done)) in *.
  unfold bind at 1 in Hr. unfold log at 1, emit in Hr. simpl in Hr.
  destruct (strings_Contains errorString "429") eqn:H429.
  - unfold bind, log, time_Sleep, emit in Hr. simpl in Hr.
    set (cooled := Build_World _ _ _) in *.
    pose proof (downloadPDFFile_outcome env (URL item) outputDirectoryName
                  (ItemFileName item) downloadLogFileName s cooled) as Hsecond.
    destruct (downloadPDFFile env (URL item) _ _ _ s cooled) as [[e2 s2] w2].
    pose proof (Fetched_effects env _ _ _ _ _ _ _ _ Hsecond)
      as (_ & _ & Hsub2 & Hsup2 & _).
    apply Fetched_advance in Hsecond as (Hext2 & Hab2 & Hok2 & Hfail2).
    assert (Hextc : extends L w cooled).
    { eapply extends_trans; [exact Hext1|]. by apply extends_same_fs. }
    assert (Habc : abandoned (trace cooled) = abandoned (trace w)).
    { subst cooled. cbn [trace]. count_lines. rewrite H429. simpl. lia. }
    destruct e2 as [e|]; subst r; simpl.
    + split_and!; [|done|done|].
      * eapply extends_trans; [exact Hextc|].
        eapply extends_trans; [exact Hext2|]. by apply extends_same_fs.
      * count_lines. lia.
    + destruct (Hok2 eq_refl). split_and!; try done.
      * by eapply extends_trans.
      * lia.
  - subst r. simpl. split_and!; [|done|done|].
    + eapply extends_trans; [exact Hext1|]. by apply extends_same_fs.
    + count_lines. rewrite H429. simpl. lia.
Qed.


Lemma main_items_cons item items s w :
  main_items env (item :: items) s w
  = main_items env items (main_item env s item w).1.2 (main_item env s item w).2.
Proof.
  unfold main_items. simpl. unfold bind at 1. unfold bind at 1.
  destruct (main_item env s item w) as [[e s'] w']. done.
Qed.

Lemma main_items_advance items s w :
  let r := main_items env items s w in
  extends L w r.2
  ∧ abandoned (trace w) ≤ abandoned (trace r.2)
  ∧ s ⊆ r.1.
Proof.
  revert s w. induction items as [|item items IH]; intros s w.
  - simpl. split_and!; [apply extends_refl|lia|done].
  - rewrite main_items_cons.
    pose proof (main_item_advance s item w) as (Hext & Hsub & _ & Hcount).
    destruct (main_item env s item w) as [[e s'] w']. simpl in *.
    destruct (IH s' w') as (Hext' & Hab' & Hsub').
    split_and!.
    + by eapply extends_trans.
    + destruct e; [lia|]. destruct Hcount. lia.
    + set_solver.
Qed.


Lemma parseJSONForDownloads_run jsonData w :
  ∃ w', parseJSONForDownloads env jsonData w = (itemsOf env jsonData, w')
        ∧ fs w' = fs w
        ∧ gets (trace w') = gets (trace w)
        ∧ abandoned (trace w') = abandoned (trace w).
Proof.
  unfold parseJSONForDownloads, itemsOf.
  destruct (json_Unmarshal env jsonData) as [data|err].
  - by exists w.
  - unfold bind, log, emit, ret. simpl. eexists. split; [done|]. simpl.
    rewrite gets_app. count_lines. simpl. rewrite app_nil_r.
    split_and!; [done|done|lia].
Qed.

Lemma readLocalFileContent_file w path c :
  fs w !! key path = Some (File c) → readLocalFileContent path w = (c, w).
Proof.
  intros Hc. unfold readLocalFileContent, os_ReadFile, bind, os_Stat, ret.
  by rewrite Hc.
Qed.

(** Fetching a page that is not on disk yet. *)
Lemma downloadDataFromURL_advance L0 uri file w :
  ¬ isFileAt w file →
  extends L0 w (downloadDataFromURL env uri file w).2
  ∧ abandoned (trace (downloadDataFromURL env uri file w).2) = abandoned (trace w).
Proof.
  intros Hnofile. unfold downloadDataFromURL. unfold_sys.
  assert (Hk : fs w !! key file = None ∨ fs w !! key file = Some Dir).
  { unfold isFileAt in Hnofile. destruct (fs w !! key file) as [[c|]|]; eauto.
    destruct Hnofile. eauto. }
  steps; (split; [|cbn [trace]; count_lines; lia]);
    try (by apply extends_same_fs);
    destruct Hk as [Hk|Hk]; try congruence;
    rewrite ?insert_insert_eq;
    try (by eapply extends_insert_new).
Qed.

(** A page in the first run: the world is extended, no abandoned line
    is taken back, and when none is added the page text was on disk and
    the page amounts to its items. *)
Lemma main_page_advance s k w :
  let r := main_page env s k w in
  extends L w r.2
  ∧ abandoned (trace w) ≤ abandoned (trace r.2)
  ∧ s ⊆ r.1
  ∧ (abandoned (trace r.2) = abandoned (trace w) →
     ∃ c wp,
       fs wp !! key (jsonFileName k) = Some (File c)
       ∧ extends L w wp
       ∧ abandoned (trace wp) = abandoned (trace w)
       ∧ r = main_items env (itemsOf env c) s wp).
Proof.
  intros r. assert (Hr : r = main_page env s k w) by done. clearbody r.
  unfold main_page in Hr. unfold bind at 1 in Hr. unfold log at 1, emit in Hr.
  cbn [fst snd] in Hr.
  set (wa := Build_World _ _ _) in Hr.
  assert (Hwa : extends L w wa ∧ abandoned (trace wa) = abandoned (trace w)).
  { split; [by apply extends_same_fs|]. subst wa. cbn [trace]. count_lines. lia. }
  destruct Hwa as [Hexta Haba]. clearbody wa.
  unfold bind at 1 in Hr.
  assert (Hwb : ∃ wb, extends L wa wb ∧ abandoned (trace wb) = abandoned (trace wa)
            ∧ r = (let* present := doesFileExist (jsonFileName k) in
                   if present then
                     let* jsonFileContent := readLocalFileContent (jsonFileName k) in
                     let* extractedDownloads :=
                       parseJSONForDownloads env jsonFileContent in
                     log ("Page " +:+ pretty k +:+ ": Found "
                          +:+ pretty (length extractedDownloads) +:+ " unique URLs.") ;;
                     main_items env extractedDownloads s
                   else
                     log ("Skipping PDF download for page " +:+ pretty k
                          +:+ ": JSON file not found.") ;;
                     ret s) wb).
  { destruct (isFileAt_dec wa (jsonFileName k)) as [Hfile|Hnofile].
    - rewrite (doesFileExist_true _ _ Hfile) in Hr. cbn [fst snd negb] in Hr.
      exists wa. split_and!; [apply extends_refl|done|].
      rewrite Hr. unfold bind at 1. unfold ret at 1. done.
    - rewrite (doesFileExist_false _ _ Hnofile) in Hr. cbn [fst snd negb] in Hr.
      destruct (downloadDataFromURL_advance L (apiURL k) (jsonFileName k) wa Hnofile)
        as [Hextd Habd].
      unfold bind at 1 in Hr.
      destruct (downloadDataFromURL env (apiURL k) (jsonFileName k) wa) as [[] wb].
      exists wb. done. }
  clear Hr. destruct Hwb as (wb & Hextb & Habb & Hr).
  unfold bind at 1 in Hr.
  destruct (isFileAt_dec wb (jsonFileName k)) as [Hfile|Hnofile].
  - rewrite (doesFileExist_true _ _ Hfile) in Hr. destruct Hfile as [c Hc].
    unfold bind at 1 in Hr. rewrite (readLocalFileContent_file _ _ _ Hc) in Hr.
    unfold bind at 1 in Hr.
    destruct (parseJSONForDownloads_run c wb) as (wc & Hparse & Hfsc & _ & Habc).
    rewrite Hparse in Hr. unfold bind at 1 in Hr. unfold log at 1, emit in Hr.
    cbn [fst snd] in Hr.
    set (wp := Build_World _ _ _) in Hr.
    assert (Hwp : extends L w wp ∧ abandoned (trace wp) = abandoned (trace w)
                  ∧ fs wp !! key (jsonFileName k) = Some (File c)).
    { split_and!.
      - eapply extends_trans; [exact Hexta|]. eapply extends_trans; [exact Hextb|].
        apply extends_same_fs. done.
      - subst wp. cbn [trace]. count_lines. lia.
      - subst wp. cbn [fs]. by rewrite Hfsc. }
    destruct Hwp as (Hextp & Habp & Hcp). clearbody wp.
    pose proof (main_items_advance (itemsOf env c) s wp) as (Hexti & Habi & Hsubi).
    rewrite <- Hr in Hexti, Habi, Hsubi.
    split_and!.
    + by eapply extends_trans.
    + lia.
    + done.
    + intros _. exists c, wp. done.
  - rewrite (doesFileExist_false _ _ Hnofile) in Hr.
    unfold bind, log, emit, ret in Hr. cbn [fst snd] in Hr. subst r. cbn [fst snd].
    split_and!.
    + eapply extends_trans; [exact Hexta|]. eapply extends_trans; [exact Hextb|].
      by apply extends_same_fs.
    + cbn [trace]. rewrite abandoned_app. lia.
    + done.
    + intros Heq. cbn [trace] in Heq. rewrite abandoned_app in Heq.
      cbn [abandoned] in Heq. change (abandonedLine _) with true in Heq.
      cbn iota in Heq. lia.
Qed.


Lemma main_pages_cons k pages s w :
  foldM (main_page env) (k :: pages) s w
  = foldM (main_page env) pages (main_page env s k w).1 (main_page env s k w).2.
Proof.
  simpl. unfold bind at 1. destruct (main_page env s k w) as [s' w']. done.
Qed.

Lemma main_pages_advance pages s w :
  let r := foldM (main_page env) pages s w in
  extends L w r.2
  ∧ abandoned (trace w) ≤ abandoned (trace r.2)
  ∧ s ⊆ r.1.
Proof.
  cbn zeta. revert s w. induction pages as [|k pages IH]; intros s w.
  - simpl. split_and!; [apply extends_refl|lia|done].
  - rewrite main_pages_cons.
    pose proof (main_page_advance s k w) as (Hext & Hab & Hsub & _).
    destruct (main_page env s k w) as [s' w']. simpl in *.
    destruct (IH s' w') as (Hext' & Hab' & Hsub').
    split_and!; [by eapply extends_trans|lia|set_solver].
Qed.


Lemma split_go_nonempty sep skip s : split_go sep skip s ≠ [].
Proof.
  revert skip. induction s as [|c s IH]; intros skip; [done|].
  cbn [split_go]. destruct skip; [|apply IH].
  destruct (strings_HasPrefix (String c s) sep); [done|].
  by destruct (split_go sep 0 s).
Qed.

Lemma split_lines_cons c s :
  split_go LF 0 (String c s)
  = if byte_eqb c (ascii_of_nat 10) then "" :: split_go LF 0 s
    else match split_go LF 0 s with
         | piece :: rest => String c piece :: rest
         | [] => [String c ""]
         end.
Proof.
  cbn [split_go]. unfold LF at 1. cbn [strings_HasPrefix].
  rewrite andb_true_r. done.
Qed.

Lemma split_lines_app t x :
  split_go LF 0 (t +:+ LF +:+ x) = split_go LF 0 t ++ split_go LF 0 x.
Proof.
  induction t as [|c t IH].
  - rewrite append_nil_l. change (LF +:+ x) with (String (ascii_of_nat 10) x).
    rewrite split_lines_cons. done.
  - rewrite append_cons, !split_lines_cons, IH.
    destruct (byte_eqb c (ascii_of_nat 10)); [done|].
    pose proof (split_go_nonempty LF 0 t).
    by destruct (split_go LF 0 t).
Qed.


(** Text added after a newline-terminated ledger keeps every recorded
    URL in the ledger set. *)
Lemma split_lines_terminated t :
  split_go LF 0 (t +:+ LF) = split_go LF 0 t ++ [""].
Proof.
  pose proof (split_lines_app t "") as Happ. by rewrite append_nil_r in Happ.
Qed.



Lemma loadDownloadLogToMap_run logFilePath w :
  loadDownloadLogToMap logFilePath w = (ledgerSet (fileText w logFilePath), w).
Proof.
  unfold loadDownloadLogToMap, doesFileExist, readAFileAsString, os_ReadFile,
    fileText, bind, os_Stat, ret.
  destruct (fs w !! key logFilePath) as [[c|]|] eqn:Hk; simpl; rewrite ?Hk; try done.
Qed.

(** The structure of [main]: a setup that leaves the world [wd], then
    the page loop from the ledger set read in [wd], then the last log
    line. *)
Lemma main_run w :
  ∃ wd,
    extends L w wd
    ∧ gets (trace wd) = gets (trace w)
    ∧ abandoned (trace wd) = abandoned (trace w)
    ∧ fs wd !! L = fs w !! L
    ∧ main env w
      = (tt,
         logged
           (foldM (main_page env) (seq 0 (S maxPageIndex))
              (ledgerSet (fileText wd downloadLogFileName)) wd).2
           (EvLog "Scraping and download process complete.")).
Proof.
  unfold main. unfold bind at 1.
  assert (Hdir : ∃ w1,
    extends L w w1 ∧ gets (trace w1) = gets (trace w)
    ∧ abandoned (trace w1) = abandoned (trace w) ∧ fs w1 !! L = fs w !! L
    ∧ ((if negb (doesDirectoryExist outputDirectoryName w).1
        then createDirectoryIfMissing env outputDirectoryName
        else ret tt) (doesDirectoryExist outputDirectoryName w).2).2 = w1).
  { unfold doesDirectoryExist, createDirectoryIfMissing. unfold_sys.
    steps; eexists; (split_and!; [| | | |reflexivity]); cbn [fs trace];
      rewrite ?gets_app; try count_lines; simpl; rewrite ?app_nil_r;
      try done; try lia; try apply extends_refl; try (by apply extends_same_fs).
    all: simpl in *; try (by rewrite lookup_insert_ne).
    all: by eapply extends_insert_new. }
  destruct Hdir as (w1 & Hext1 & Hg1 & Hab1 & Hl1 & Hw1).
  destruct (doesDirectoryExist outputDirectoryName w) as [dirThere w0].
  cbn [fst snd] in Hw1. unfold bind at 1.
  destruct ((if negb dirThere
             then createDirectoryIfMissing env outputDirectoryName
             else ret ()) w0) as [[] w1'].
  cbn [snd] in Hw1. subst w1'.
  unfold bind at 1. rewrite loadDownloadLogToMap_run.
  unfold bind at 1. unfold log at 1, emit. cbn [fst snd].
  set (wd := Build_World _ _ _).
  exists wd. split_and!.
  - eapply extends_trans; [exact Hext1|]. by apply extends_same_fs.
  - subst wd. cbn [trace]. rewrite gets_app. simpl. by rewrite app_nil_r.
  - subst wd. cbn [trace]. count_lines. lia.
  - done.
  - unfold bind at 1.
    replace (fileText wd downloadLogFileName) with (fileText w1 downloadLogFileName)
      by done.
    destruct (foldM _ _ _ wd) as [s' w']. done.
Qed.



End TwoRuns.



(** The condition on the ledger file is needed: a ledger whose last line
    has no newline loses that line's URL when the first run appends to
    it, and the second run requests the document. *)
Lemma unterminated_ledger_refetch :
  abandoned (trace (main Scenario.servingTwo (Scenario.world Scenario.unterminated)).2)
  = 0
  ∧ gets (trace (main Scenario.servingTwo
                   (main Scenario.servingTwo
                      (Scenario.world Scenario.unterminated)).2).2)
    = gets (trace (main Scenario.servingTwo
                     (Scenario.world Scenario.unterminated)).2)
      ++ ["https://host/u.pdf"].
Proof. split; vm_compute; reflexivity. Qed.


(** ** The ledger never runs ahead of the disk *)

Section Ordering.

Variable env : Env.

Lemma appendLineToFile_events w path content e :
  e ∈ trace (appendLineToFile env path content w).2 →
  e ∈ trace w ∨ e = EvAppend path (content +:+ LF) ∨ ∃ line, e = EvLog line.
Proof.
  unfold appendLineToFile. unfold_sys. steps;
    rewrite ?elem_of_app, ?list_elem_of_singleton; naive_solver.
Qed.

(** The events of one call: old ones, the ledger line of the call, or
    events that are no appends. *)
Lemma Fetched_events url path logFilePath s w e s' w' ev :
  Fetched env url path logFilePath s w (e, s', w') →
  ev ∈ trace w' →
  ev ∈ trace w
  ∨ (ev = EvAppend logFilePath (ledgerLine url path +:+ LF) ∧ isFileAt w' path)
  ∨ (∀ p x, ev ≠ EvAppend p x).
Proof.
  intros Hcase Hev.
  pose proof (Fetched_advance env _ _ _ _ _ _ _ _ Hcase) as (_ & _ & Hok & _).
  inversion Hcase; subst; simpl in Hev;
    repeat (rewrite elem_of_app, ?list_elem_of_singleton in Hev);
    try (destruct Hev as [Hev|Hev]; [|subst; right; right; done]);
    try apply appendLineToFile_events in Hev;
    repeat (simpl in Hev; rewrite elem_of_app, ?list_elem_of_singleton in Hev);
    try naive_solver.
Qed.

Lemma downloadPDFFile_sound finalURL outputDirectory filename logFilePath s w :
  ledgerSound logFilePath w →
  ledgerSound logFilePath
    (downloadPDFFile env finalURL outputDirectory filename logFilePath s w).2.
Proof.
  intros Hsound text Hin.
  pose proof (downloadPDFFile_outcome env finalURL outputDirectory filename
                logFilePath s w) as Hcase.
  destruct (downloadPDFFile _ _ _ _ _ _ _) as [[e s'] w']. simpl in *.
  pose proof (Fetched_advance env _ _ _ _ _ _ _ _ Hcase) as (Hext & _).
  destruct (Fetched_events _ _ _ _ _ _ _ _ _ Hcase Hin) as [Hold|[[Heq Hfile]|Hno]].
  - destruct (Hsound _ Hold) as (url & path & -> & Hfile).
    exists url, path. split; [done|]. by eapply extends_isFileAt.
  - injection Heq as ->. eauto.
  - by destruct (Hno logFilePath text).
Qed.

Lemma ledgerSound_logged logFilePath w e :
  (∀ p x, e ≠ EvAppend p x) →
  ledgerSound logFilePath w → ledgerSound logFilePath (logged w e).
Proof.
  intros Hno Hsound text Hin. simpl in Hin.
  apply elem_of_app in Hin as [Hin|Hin%list_elem_of_singleton].
  - destruct (Hsound _ Hin) as (url & path & -> & Hfile). by exists url, path.
  - by destruct (Hno logFilePath text).
Qed.

Lemma main_item_sound s item w :
  ledgerSound downloadLogFileName w →
  ledgerSound downloadLogFileName (main_item env s item w).2.
Proof.
  intros Hsound. unfold main_item. unfold bind at 1.
  pose proof (downloadPDFFile_sound (URL item) outputDirectoryName
                (ItemFileName item) downloadLogFileName s w Hsound) as Hfirst.
  destruct (downloadPDFFile env (URL item) _ _ _ s w) as [[[errorString|] s1] w1];
    simpl in *; [|done].
  unfold bind at 1. unfold log at 1, emit. simpl.
  destruct (strings_Contains errorString "429").
  - unfold bind, log, time_Sleep, emit. simpl.
    set (cooled := Build_World _ _ _).
    assert (Hcooled : ledgerSound downloadLogFileName cooled).
    { apply (ledgerSound_logged _
               (logged (logged (logged w1 _) _) _)); [done|].
      repeat (apply ledgerSound_logged; [done|]). done. }
    pose proof (downloadPDFFile_sound (URL item) outputDirectoryName
                  (ItemFileName item) downloadLogFileName s1 cooled Hcooled) as Hsecond.
    destruct (downloadPDFFile env (URL item) _ _ _ s1 cooled) as [[[e|] s2] w2];
      simpl in *; [|done].
    by apply (ledgerSound_logged _ w2).
  - by apply (ledgerSound_logged _ w1).
Qed.

Lemma main_items_sound items s w :
  ledgerSound downloadLogFileName w →
  ledgerSound downloadLogFileName (main_items env items s w).2.
Proof.
  revert s w. induction items as [|item items IH]; intros s w Hsound; [done|].
  rewrite main_items_cons. apply IH. by apply main_item_sound.
Qed.

(** C2, as amended — a regular file is at the local path before its
    ledger entry is written.  The disk writes of one call of
    [downloadPDFFile] are, in this order: the creation of the local file,
    the write of the whole body, the append of the ledger line; the
    append is there only after the two others, or when a regular file was
    at the local path from the start, whatever it holds.  Whenever the URL
    is added to the ledger set, the ledger append runs from a world in
    which the local file exists (with the whole body when this call wrote
    it), and the file still exists when the call returns.  Hence a ledger
    in which every line names a file on disk stays such a ledger, through
    one call and through any sequence of items of the orchestrator. *)
Theorem file_before_ledger
    (finalURL outputDirectory filename logFilePath : string)
    (alreadyDownloaded : gset string) (w : World) :
  let path := localPath env outputDirectory filename in
  let r := downloadPDFFile env finalURL outputDirectory filename logFilePath
             alreadyDownloaded w in
  let line := EvAppend logFilePath (ledgerLine finalURL path +:+ LF) in
  (∃ new, diskWrites (trace r.2) = diskWrites (trace w) ++ new ∧
     ((r.1.2 = alreadyDownloaded ∧ (new = [] ∨ new = [EvCreate path]))
      ∨ (r.1 = (None, {[finalURL]} ∪ alreadyDownloaded)
         ∧ isFileAt w path
         ∧ (new = [] ∨ new = [line])
         ∧ isFileAt r.2 path
         ∧ ∃ w_rec, isFileAt w_rec path
             ∧ fs w_rec = fs w
             ∧ fs r.2 = fs (recorded env logFilePath finalURL path w_rec))
      ∨ (∃ resp,
           r.1 = (None, {[finalURL]} ∪ alreadyDownloaded)
           ∧ http_Get env (clock w) finalURL = GetResponse resp
           ∧ (new = [EvCreate path; EvWrite path (Body resp)]
              ∨ new = [EvCreate path; EvWrite path (Body resp); line])
           ∧ isFileAt r.2 path
           ∧ ∃ w_rec, fs w_rec !! key path = Some (File (Body resp))
               ∧ diskWrites (trace w_rec)
                 = diskWrites (trace w) ++ [EvCreate path; EvWrite path (Body resp)]
               ∧ fs r.2 = fs (recorded env logFilePath finalURL path w_rec))))
  ∧ (ledgerSound logFilePath w → ledgerSound logFilePath r.2)
  ∧ (∀ items s w0,
       ledgerSound downloadLogFileName w0 →
       ledgerSound downloadLogFileName (main_items env items s w0).2).
Proof.
  intros path r line. split_and!.
  - apply downloadPDFFile_disk_order.
  - apply downloadPDFFile_sound.
  - apply main_items_sound.
Qed.

End Ordering.

(** A document is fetched into an empty directory: the file holds the
    whole body when the ledger line is appended, and the ledger names a
    file that is there. *)
Lemma file_before_ledger_witness :
  diskWrites
    (trace (downloadPDFFile Scenario.serving "https://host/a.pdf" "PDFs" "A Report.PDF"
              "download.txt" ∅ (Scenario.world Scenario.emptyDir)).2)
  = [EvCreate "PDFs/a_report.pdf"; EvWrite "PDFs/a_report.pdf" "%PDF-1.4";
     EvAppend "download.txt" ("https://host/a.pdf → PDFs/a_report.pdf" +:+ LF)]
  ∧ ledgerSound "download.txt"
      (downloadPDFFile Scenario.serving "https://host/a.pdf" "PDFs" "A Report.PDF"
         "download.txt" ∅ (Scenario.world Scenario.emptyDir)).2.
Proof.
  split; [vm_compute; reflexivity|].
  apply (file_before_ledger Scenario.serving "https://host/a.pdf" "PDFs" "A Report.PDF"
           "download.txt" ∅ (Scenario.world Scenario.emptyDir)).
  intros text Hin. simpl in Hin. by apply elem_of_nil in Hin.
Defined.

(** C2, as stated, fails: the ledger can name a file that was never
    written in full.  The disk fills up while the document is written,
    so the first call fails and leaves three of its eight bytes on disk;
    the next call for the same item finds that file and appends the
    ledger line, with no write in between. *)
Lemma ledger_records_truncated_file :
  let first :=
    downloadPDFFile Scenario.diskFull "https://host/a.pdf" "PDFs" "A Report.PDF"
      "download.txt" ∅ (Scenario.world Scenario.emptyDir) in
  let second :=
    downloadPDFFile Scenario.diskFull "https://host/a.pdf" "PDFs" "A Report.PDF"
      "download.txt" first.1.2 first.2 in
  http_Get Scenario.diskFull 0 "https://host/a.pdf" = Scenario.okPDF "%PDF-1.4"
  ∧ first.1.1
    = Some ("failed to write PDF to file PDFs/a_report.pdf: "
            +:+ "write PDFs/a_report.pdf: no space left on device")
  ∧ diskWrites (trace second.2)
    = [EvCreate "PDFs/a_report.pdf";
       EvAppend "download.txt" ("https://host/a.pdf → PDFs/a_report.pdf" +:+ LF)]
  ∧ second.1 = (None, {["https://host/a.pdf"]} ∪ ∅)
  ∧ fileText second.2 "download.txt" = "https://host/a.pdf → PDFs/a_report.pdf" +:+ LF
  ∧ fileText second.2 "PDFs/a_report.pdf" = "%PD".
Proof. cbv zeta. split_and!; vm_compute; reflexivity. Qed.


(** ** The variant [part_000] next to [src/main.go] *)

Section Variant000.

Variable env : Env.

Local Abbreviation pathOf000 dir url :=
  (filepath_Join dir
     (strings_ToLower (unicode_ToLower env) (Part000.urlToFilename env url))).

(** The variant keeps every string [url.ParseRequestURI] accepts,
    whatever its scheme. *)
Lemma part000_isUrlValid uri :
  Part000.isUrlValid env uri = true ↔ is_Some (url_ParseRequestURI env uri).
Proof.
  unfold Part000.isUrlValid. destruct (url_ParseRequestURI env uri); split;
    try done; try (by eauto); by intros [? ?].
Qed.

(** The disk writes, requests and sleeps of one call of the variant's
    [downloadPDF]: the same order as in [src/main.go]. *)
Lemma part000_downloadPDF_effects url dir logFile w :
  let path := pathOf000 dir url in
  let r := Part000.downloadPDF env url dir logFile w in
  let line := EvAppend logFile (ledgerLine url path +:+ LF) in
  sleeps (trace r.2) = sleeps (trace w)
  ∧ (gets (trace r.2) = gets (trace w) ∨ gets (trace r.2) = gets (trace w) ++ [url])
  ∧ ∃ new, diskWrites (trace r.2) = diskWrites (trace w) ++ new ∧
      (new = [] ∨ new = [line] ∨ new = [EvCreate path]
       ∨ ∃ body, new = [EvCreate path; EvWrite path body]
                 ∨ new = [EvCreate path; EvWrite path body; line]).
Proof.
  intros path r line. subst r.
  unfold Part000.downloadPDF, Part000.fileExists, Part000.readAFileAsString,
    Part000.appendAndWriteToFile.
  fold path. unfold_sys. unfold ledgerLine in line.
  steps; rewrite ?gets_app, ?sleeps_app, ?diskWrites_app; simpl;
    rewrite ?app_nil_r, <- ?app_assoc; simpl;
    (split_and!; [done|eauto|]);
    first [ by exists []; rewrite app_nil_r; eauto
          | by eexists; split; [reflexivity|]; eauto 10 ].
Qed.

(** X23 — failure atomicity in the variant.  When the local file is not
    on disk and the response is rejected (a status other than 200, a
    content type without [application/pdf], a failed read of the body, an
    empty body), [downloadPDF] returns an error and the request is its
    only effect: no file is created and no ledger line is written. *)
Lemma part000_failure_atomicity url dir logFile w resp :
  ¬ isFileAt w (pathOf000 dir url) →
  http_Get env (clock w) url = GetResponse resp →
  rejected resp →
  ∃ err, Part000.downloadPDF env url dir logFile w = (Some err, requested w url).
Proof.
  intros Hnofile Hget Hrej.
  unfold Part000.downloadPDF, Part000.fileExists, Part000.readAFileAsString.
  unfold_sys. unfold isFileAt in Hnofile.
  assert (Hk : fs w !! key (pathOf000 dir url) = None
               ∨ fs w !! key (pathOf000 dir url) = Some Dir).
  { destruct (fs w !! key (pathOf000 dir url)) as [[c|]|]; eauto.
    destruct Hnofile. eauto. }
  destruct Hrej as [Hs|[Hc|[Hr|Hb]]].
  - apply Nat.eqb_neq in Hs.
    steps; destruct Hk; simplify_eq; rewrite ?Hs in *; simpl in *; eauto; done.
  - steps; destruct Hk; simplify_eq; rewrite ?Hc in *; simpl in *; eauto; done.
  - steps; destruct Hk; simplify_eq; simpl in *; eauto; done.
  - steps; destruct Hk; simplify_eq; rewrite ?Hb in *; simpl in *; eauto; done.
Qed.

(** The ledger text the variant reads before each decision: the text of
    the ledger file, empty when there is none. *)
Lemma part000_ledger_read {A} (k : string → M A) path w :
  (let* logged := Part000.fileExists path in
   let* fileRead := (if logged then Part000.readAFileAsString path else ret "") in
   k fileRead) w
  = k (fileText w path) w.
Proof.
  unfold Part000.fileExists, Part000.readAFileAsString, fileText. unfold_sys.
  destruct (fs w !! key path) as [[c|]|] eqn:Hk; simpl; rewrite ?Hk; simpl;
    by destruct (k _ w).
Qed.

(** X24 — the variant never asks twice.  One pass of the loop body of
    [main] over a URL that occurs in the ledger text does nothing.
    Otherwise the pass is one call of [downloadPDF], followed, when the
    call returns an error, by the log line of the error and, when the
    error text contains [429], by the log line of the sleep and one sleep
    of three minutes; nothing else happens: there is no second call, the
    slice returned by [appendToSlice] being dropped.  So after an error
    with the 429 signature the pass sleeps and moves on, and every pass
    sends at most one request, to that URL, and sleeps at most once. *)
Lemma part000_sleeps_without_retry extractedURL url w :
  let r := Part000.main_url env extractedURL url w in
  let first :=
    Part000.downloadPDF env url Part000.outputDir Part000.downloadedFilesURLLocation w in
  (gets (trace r.2) = gets (trace w) ∨ gets (trace r.2) = gets (trace w) ++ [url])
  ∧ (sleeps (trace r.2) = sleeps (trace w)
     ∨ sleeps (trace r.2) = sleeps (trace w) ++ [3])
  ∧ r = (tt,
         if strings_Contains (fileText w Part000.downloadedFilesURLLocation) url then w
         else match first.1 with
              | None => first.2
              | Some errorString =>
                  let failed := logged first.2 (EvLog errorString) in
                  if strings_Contains errorString "429"
                  then logged (logged failed (EvLog "Sleeping 3m0s")) (EvSleep 3)
                  else failed
              end)
  ∧ (∀ errorString,
       strings_Contains (fileText w Part000.downloadedFilesURLLocation) url = false →
       first.1 = Some errorString →
       strings_Contains errorString "429" = true →
       trace r.2 = trace first.2 ++ [EvLog errorString; EvLog "Sleeping 3m0s"; EvSleep 3]
       ∧ sleeps (trace r.2) = sleeps (trace w) ++ [3]
       ∧ gets (trace r.2) = gets (trace first.2)
       ∧ fs r.2 = fs first.2).
Proof.
  intros r first.
  assert (Hr : r
    = (tt,
       if strings_Contains (fileText w Part000.downloadedFilesURLLocation) url then w
       else match first.1 with
            | None => first.2
            | Some errorString =>
                let failed := logged first.2 (EvLog errorString) in
                if strings_Contains errorString "429"
                then logged (logged failed (EvLog "Sleeping 3m0s")) (EvSleep 3)
                else failed
            end)).
  { subst r. unfold Part000.main_url. rewrite part000_ledger_read.
    destruct (strings_Contains (fileText w Part000.downloadedFilesURLLocation) url);
      [done|].
    cbn [negb]. unfold bind at 1. fold first.
    destruct first as [[errorString|] w1]; [|done]. cbn [fst snd].
    unfold bind at 1, log at 1, emit. cbn [fst snd].
    destruct (strings_Contains errorString "429"); [|done].
    unfold bind, log, time_Sleep, emit. done. }
  pose proof (part000_downloadPDF_effects url Part000.outputDir
                Part000.downloadedFilesURLLocation w) as (Hs & Hg & _).
  cbn zeta in Hs, Hg. fold first in Hs, Hg.
  clearbody r first. subst r. cbn [snd].
  destruct (strings_Contains (fileText w Part000.downloadedFilesURLLocation) url).
  { split_and!; [by left|by left|done|done]. }
  destruct first as [[errorString|] w1]; cbn [fst snd] in *.
  - destruct (strings_Contains errorString "429") eqn:H429; unfold logged; cbn [trace fs];
      rewrite ?gets_app, ?sleeps_app; cbn [gets sleeps]; rewrite ?app_nil_r, Hs;
      (split_and!; [done|eauto|done|]).
    + intros e _ [= <-] _. rewrite <- !app_assoc. done.
    + intros e _ [= <-] He. congruence.
  - split_and!; [done|rewrite Hs; by left|done|done].
Qed.

(** The variant's deduplication: no URL twice, order kept, nothing lost. *)
Lemma part000_removeDuplicates_step slice seen acc :
  seen = list_to_set acc → NoDup acc →
  let r := fold_left Part000.removeDuplicatesFromSlice_step slice (seen, acc) in
  NoDup r.2 ∧ (∀ x, x ∈ r.2 ↔ x ∈ acc ∨ x ∈ slice) ∧ ∃ tail, r.2 = acc ++ tail
    ∧ tail `sublist_of` slice.
Proof.
  cbn zeta. revert seen acc. induction slice as [|x slice IH]; intros seen acc -> Hnd.
  - simpl. split_and!; [done| |].
    + intros y. rewrite elem_of_nil. tauto.
    + exists []. by rewrite app_nil_r.
  - cbn [fold_left].
    destruct (decide (x ∈ (list_to_set acc : gset string))) as [Hin|Hnew].
    + assert (Part000.removeDuplicatesFromSlice_step (list_to_set acc, acc) x
              = (list_to_set acc, acc)) as ->.
      { unfold Part000.removeDuplicatesFromSlice_step. simpl. by rewrite decide_True. }
      destruct (IH _ acc eq_refl Hnd) as (Hnd' & Hel & tail & Htail & Hsub).
      apply elem_of_list_to_set in Hin.
      split_and!; [done| |].
      * intros y. rewrite Hel, elem_of_cons. split; [tauto|].
        intros [?|[->|?]]; tauto.
      * exists tail. split; [done|]. by apply sublist_cons.
    + assert (Part000.removeDuplicatesFromSlice_step (list_to_set acc, acc) x
              = ({[x]} ∪ list_to_set acc, acc ++ [x])) as ->.
      { unfold Part000.removeDuplicatesFromSlice_step. simpl. by rewrite decide_False. }
      rewrite elem_of_list_to_set in Hnew.
      destruct (IH (list_to_set (acc ++ [x])) (acc ++ [x]))
        as (Hnd' & Hel & tail & Htail & Hsub).
      * done.
      * apply NoDup_app. split_and!; [done| |apply NoDup_singleton].
        intros y Hy ->%list_elem_of_singleton. done.
      * replace ({[x]} ∪ list_to_set acc : gset string)
          with (list_to_set (acc ++ [x]) : gset string).
        2:{ rewrite list_to_set_app_L. simpl. set_solver. }
        split_and!; [done| |].
        -- intros y. rewrite Hel, elem_of_app, list_elem_of_singleton, elem_of_cons.
           tauto.
        -- exists (x :: tail).
           split; [by rewrite Htail, <- app_assoc|]. by apply sublist_skip.
Qed.

Lemma part000_removeDuplicates slice :
  NoDup (Part000.removeDuplicatesFromSlice slice)
  ∧ Part000.removeDuplicatesFromSlice slice `sublist_of` slice
  ∧ ∀ x, x ∈ Part000.removeDuplicatesFromSlice slice ↔ x ∈ slice.
Proof.
  unfold Part000.removeDuplicatesFromSlice.
  destruct (part000_removeDuplicates_step slice ∅ [] eq_refl (NoDup_nil_2))
    as (Hnd & Hel & tail & Htail & Hsub).
  split_and!; [done|by rewrite Htail|].
  intros y. rewrite Hel, elem_of_nil. tauto.
Qed.

End Variant000.

(** With a server that always answers 429 the variant asks once and
    sleeps once, where [src/main.go] asks twice; and the variant keeps an
    [ftp] URL that [src/main.go] drops. *)
Lemma part000_differs_from_main :
  gets (trace (Part000.main_url Scenario.throttled [] "https://host/a.pdf"
                 (Scenario.world Scenario.emptyDir)).2)
  = ["https://host/a.pdf"]
  ∧ sleeps (trace (Part000.main_url Scenario.throttled [] "https://host/a.pdf"
                     (Scenario.world Scenario.emptyDir)).2)
    = [3]
  ∧ gets (trace (main_item Scenario.throttled ∅
                   {| URL := "https://host/a.pdf"; ItemFileName := "a.pdf" |}
                   (Scenario.world Scenario.emptyDir)).2)
    = ["https://host/a.pdf"; "https://host/a.pdf"]
  ∧ Part000.isUrlValid Scenario.throttled "ftp://x/y.pdf" = true
  ∧ isValidDownloadURL Scenario.throttled "ftp://x/y.pdf" = false.
Proof. split_and!; vm_compute; reflexivity. Qed.

(** * Further properties of the code *)

(** ** Splitting and searching strings *)

Section MoreStringFacts.

Lemma split_go_single c s :
  allBytes (fun a => negb (byte_eqb a c)) s = true →
  split_go (String c "") 0 s = [s].
Proof.
  induction s as [|a s IH]; [done|]. intros [Ha Hs]%andb_true_iff.
  cbn [split_go strings_HasPrefix]. apply negb_true_iff in Ha. rewrite Ha. simpl.
  by rewrite (IH Hs).
Qed.

Lemma split_go_first c s1 s2 :
  allBytes (fun a => negb (byte_eqb a c)) s1 = true →
  split_go (String c "") 0 (s1 +:+ String c s2) = s1 :: split_go (String c "") 0 s2.
Proof.
  induction s1 as [|a s1 IH].
  - intros _. rewrite append_nil_l. cbn [split_go strings_HasPrefix].
    unfold byte_eqb. rewrite Ascii.eqb_refl. done.
  - intros [Ha Hs]%andb_true_iff. rewrite append_cons.
    cbn [split_go strings_HasPrefix]. apply negb_true_iff in Ha. rewrite Ha. simpl.
    by rewrite (IH Hs).
Qed.

(** The first piece of a ledger line is the URL when the URL has no
    space, the byte the separator starts with. *)
Lemma split_arrow_first url rest :
  allBytes (fun a => negb (isSpace a)) url = true →
  ∃ tail, split_go " → " 0 (url +:+ " → " +:+ rest) = url :: tail.
Proof.
  induction url as [|a url IH].
  - intros _. rewrite append_nil_l. eexists. reflexivity.
  - intros [Ha Hs]%andb_true_iff. destruct (IH Hs) as [tail Htail].
    exists tail. rewrite append_cons. cbn [split_go strings_HasPrefix].
    apply negb_true_iff in Ha. unfold isSpace in Ha. rewrite Ha. simpl.
    by rewrite Htail.
Qed.

Lemma strings_HasPrefix_app s t pre :
  strings_HasPrefix s pre = true → strings_HasPrefix (s +:+ t) pre = true.
Proof.
  revert s. induction pre as [|p pre IH]; intros [|c s]; simpl; try done.
  intros [Hc Hs]%andb_true_iff. rewrite Hc. by apply IH.
Qed.

Lemma strings_Contains_app_l s t x :
  strings_Contains s x = true → strings_Contains (s +:+ t) x = true.
Proof.
  induction s as [|c s IH].
  - simpl. rewrite orb_false_r. intros Hp. rewrite append_nil_l.
    destruct x; [|done]. by destruct t.
  - rewrite append_cons. cbn [strings_Contains].
    intros [Hp|Hs]%orb_true_iff; apply orb_true_iff.
    + left. rewrite <- append_cons. by apply strings_HasPrefix_app.
    + right. by apply IH.
Qed.

Lemma strings_Contains_app_r s t x :
  strings_Contains t x = true → strings_Contains (s +:+ t) x = true.
Proof.
  intros Ht. induction s as [|c s IH]; [done|].
  rewrite append_cons. cbn [strings_Contains]. rewrite IH. apply orb_true_r.
Qed.

Lemma filter_is_sublist {A} (p : A → bool) (l : list A) : List.filter p l `sublist_of` l.
Proof.
  induction l as [|x l IH]; simpl; [constructor|].
  destruct (p x); [by apply sublist_skip|by apply sublist_cons].
Qed.

Lemma elem_of_bool_filter {A} (p : A → bool) (l : list A) x :
  x ∈ List.filter p l ↔ x ∈ l ∧ p x = true.
Proof. rewrite !list_elem_of_In. apply filter_In. Qed.

End MoreStringFacts.

(** ** Where a download is written *)

Section Paths.

Variable env : Env.

Lemma urlToFilename_no_slash rawURL :
  allBytes (fun c => negb (isSlash c)) (urlToFilename env rawURL) = true.
Proof.
  destruct (urlToFilename_stem env rawURL) as (stem & Hstem & ->).
  rewrite allBytes_app. apply andb_true_iff. split.
  - revert Hstem. apply allBytes_weaken. intros [[] [] [] [] [] [] [] []]; done.
  - destruct (filepath_Ext_shape (ToLower env rawURL)) as [->|(e & -> & _ & He)]; [done|].
    simpl. done.
Qed.

Lemma urlToFilename_not_dotdot rawURL : urlToFilename env rawURL ≠ "..".
Proof.
  destruct (urlToFilename_stem env rawURL) as (stem & Hstem & ->).
  destruct (filepath_Ext_shape (ToLower env rawURL)) as [->|(e & -> & Hd & _)].
  - rewrite append_nil_r. intros ->. done.
  - destruct stem as [|c stem].
    + rewrite append_nil_l. intros [= ->]. done.
    + rewrite append_cons. intros [= -> _]. done.
Qed.

Lemma filepath_Join_child name :
  allBytes (fun c => negb (isSlash c)) name = true →
  name ≠ ".." →
  filepath_Join outputDirectoryName name
  = if decide (name = "" ∨ name = ".") then outputDirectoryName
    else outputDirectoryName +:+ "/" +:+ name.
Proof.
  intros Hns Hdd.
  assert (Hpath : "PDFs" +:+ "/" +:+ name = String "P" ("DFs" +:+ String "/" name)) by done.
  unfold filepath_Join, outputDirectoryName. rewrite Hpath.
  unfold filepath_Clean, strings_Split.
  change (String "P" ("DFs" +:+ String "/" name)) with ("PDFs" +:+ String "/" name).
  rewrite (split_go_first "/" "PDFs" name eq_refl), (split_go_single "/" name Hns).
  change (isSlash "P") with false. cbn [clean_go].
  rewrite (decide_False (P := "PDFs" = "")), (decide_False (P := "PDFs" = ".")),
    (decide_False (P := "PDFs" = "..")) by done.
  destruct (decide (name = "")) as [->|Hne].
  { rewrite decide_True by auto. done. }
  destruct (decide (name = ".")) as [->|Hnd].
  { rewrite decide_True by auto. done. }
  rewrite (decide_False (P := name = "..")) by done.
  rewrite decide_False by tauto.
  destruct name; done.
Qed.

(** X1 — the local file of an item never leaves the output directory.
    Whatever file name the upstream suggests, the name [urlToFilename]
    derives from it holds no slash and is not [..]; joined to the output
    directory [PDFs] of [main] it gives [PDFs/] followed by that name, or
    [PDFs] itself when the name is empty or a single dot. *)
Theorem local_path_inside_output_directory (filename : string) :
  let name := urlToFilename env filename in
  allBytes (fun c => negb (isSlash c)) name = true
  ∧ name ≠ ".."
  ∧ localPath env outputDirectoryName filename
    = if decide (name = "" ∨ name = ".") then outputDirectoryName
      else outputDirectoryName +:+ "/" +:+ name.
Proof.
  intros name. split_and!.
  - apply urlToFilename_no_slash.
  - apply urlToFilename_not_dotdot.
  - apply filepath_Join_child; [apply urlToFilename_no_slash|apply urlToFilename_not_dotdot].
Qed.

End Paths.

(** ** The ledger file: what is appended is what is loaded *)

Section Ledger.

Variable env : Env.

Lemma ledgerLine_lines url path :
  allBytes (fun c => negb (isNewline c)) url = true →
  allBytes (fun c => negb (isNewline c)) path = true →
  split_go LF 0 (ledgerLine url path) = [ledgerLine url path].
Proof.
  intros Hurl Hpath. apply (split_go_single (ascii_of_nat 10)). unfold ledgerLine.
  rewrite !allBytes_app. unfold isNewline in *. rewrite Hurl, Hpath. done.
Qed.

Lemma ledgerLine_load url path S :
  allBytes (fun c => negb (isSpace c)) url = true →
  loadDownloadLogToMap_line S (ledgerLine url path) = {[url]} ∪ S.
Proof.
  intros Hurl. unfold loadDownloadLogToMap_line, strings_Split.
  destruct (decide (ledgerLine url path = "")) as [Heq|_].
  { unfold ledgerLine in Heq. apply (f_equal String.length) in Heq.
    rewrite !length_append in Heq. simpl in Heq. lia. }
  unfold ledgerLine. by destruct (split_arrow_first url path Hurl) as [tail ->].
Qed.

Lemma ledgerSet_terminated t :
  ledgerSet (t +:+ LF) = fold_left loadDownloadLogToMap_line (split_go LF 0 t) ∅.
Proof.
  unfold ledgerSet, strings_Split. rewrite split_lines_terminated, fold_left_app. done.
Qed.

Lemma ledgerSet_entry c url path :
  c = "" ∨ (∃ t, c = t +:+ LF) →
  allBytes (fun c => negb (isSpace c)) url = true →
  allBytes (fun c => negb (isNewline c)) url = true →
  allBytes (fun c => negb (isNewline c)) path = true →
  ledgerSet (c +:+ ledgerLine url path +:+ LF) = {[url]} ∪ ledgerSet c.
Proof.
  intros Hc Hsp Hurl Hpath.
  pose proof (ledgerLine_lines url path Hurl Hpath) as Hlines.
  destruct Hc as [->|[t ->]].
  - rewrite append_nil_l, ledgerSet_terminated, Hlines. simpl.
    by rewrite ledgerLine_load.
  - rewrite append_assoc.
    rewrite (ledgerSet_terminated t).
    unfold ledgerSet, strings_Split.
    rewrite split_lines_app, split_lines_terminated, Hlines, !fold_left_app. simpl.
    by rewrite ledgerLine_load.
Qed.

Lemma ledgerText_load entries S :
  Forall (fun entry =>
            allBytes (fun c => negb (isSpace c)) entry.1 = true
            ∧ allBytes (fun c => negb (isNewline c)) entry.1 = true
            ∧ allBytes (fun c => negb (isNewline c)) entry.2 = true) entries →
  fold_left loadDownloadLogToMap_line (split_go LF 0 (ledgerText entries)) S
  = list_to_set entries.*1 ∪ S.
Proof.
  intros Hok. revert S. induction Hok as [|[url path] entries (Hsp & Hu & Hp) _ IH];
    intros S.
  - simpl. set_solver.
  - cbn [ledgerText foldr fst snd]. fold (ledgerText entries).
    rewrite split_lines_app, (ledgerLine_lines url path Hu Hp), fold_left_app.
    cbn [fold_left fst snd] in *. rewrite (ledgerLine_load url path S Hsp), IH.
    cbn [fmap list_fmap list_to_set fst]. set_solver.
Qed.

(** X10 — round trip through the ledger file.  When the ledger file is
    absent, empty or ends with a newline, and the line can be written,
    the set [loadDownloadLogToMap] builds after [appendLineToFile] has
    appended the line of [url] is the set it built before, with [url]
    added.  The URL must hold no space and no newline, the path no
    newline: the loader splits the text at newlines and a line at the
    first separator, which starts with a space. *)
Theorem ledger_round_trip (logFilePath url path : string) (w : World) :
  let w' := (appendLineToFile env logFilePath (ledgerLine url path) w).2 in
  io_fault env (clock w) = None →
  io_fault env (S (clock w)) = None →
  fs w !! key logFilePath ≠ Some Dir →
  fileText w logFilePath = "" ∨ (∃ t, fileText w logFilePath = t +:+ LF) →
  allBytes (fun c => negb (isSpace c)) url = true →
  allBytes (fun c => negb (isNewline c)) url = true →
  allBytes (fun c => negb (isNewline c)) path = true →
  (loadDownloadLogToMap logFilePath w').1
  = {[url]} ∪ (loadDownloadLogToMap logFilePath w).1.
Proof.
  intros w' Hopen Hwrite Hnodir Hwf Hsp Hurl Hpath. subst w'.
  rewrite (appendLineToFile_ok env w logFilePath _ Hopen Hwrite Hnodir).
  rewrite !loadDownloadLogToMap_run. cbn [fst snd].
  unfold fileText at 1. cbn [fs]. rewrite lookup_insert_eq.
  by apply ledgerSet_entry.
Qed.

(** X11 — loading a ledger.  From a ledger file that holds one line per
    entry, [loadDownloadLogToMap] returns exactly the URLs of the
    entries, whatever their number, and leaves the world as it was: it
    writes nothing and logs nothing.  With no entry this is the case of an
    empty or missing ledger file, which gives the empty set. *)
Theorem ledger_decode (logFilePath : string) (entries : list (string * string))
    (w : World) :
  fileText w logFilePath = ledgerText entries →
  Forall (fun entry =>
            allBytes (fun c => negb (isSpace c)) entry.1 = true
            ∧ allBytes (fun c => negb (isNewline c)) entry.1 = true
            ∧ allBytes (fun c => negb (isNewline c)) entry.2 = true) entries →
  loadDownloadLogToMap logFilePath w = (list_to_set entries.*1, w).
Proof.
  intros Htext Hok. rewrite loadDownloadLogToMap_run, Htext. f_equal.
  unfold ledgerSet, strings_Split. rewrite (ledgerText_load entries ∅ Hok). set_solver.
Qed.

End Ledger.

(** ** One call of [downloadPDFFile] *)

Section FetcherMore.

Variable env : Env.

Lemma appendLineToFile_clock w path content :
  clock w < clock (appendLineToFile env path content w).2
  ∧ clock (appendLineToFile env path content w).2 ≤ clock w + 2.
Proof.
  unfold appendLineToFile. unfold_sys. steps; lia.
Qed.

(** What any outcome leaves alone. *)
Lemma Fetched_frame url path logFilePath s w e s' w' :
  Fetched env url path logFilePath s w (e, s', w') →
  (∀ k, k ≠ key path → k ≠ key logFilePath → fs w' !! k = fs w !! k)
  ∧ clock w ≤ clock w' ∧ clock w' ≤ clock w + 5.
Proof.
  intros Hcase. inversion Hcase; subst; simpl;
    repeat match goal with
    | |- context [recorded env ?l ?u ?p ?w0] =>
        let H := fresh in
        pose proof (appendLineToFile_any env w0 l (ledgerLine u p)) as (_ & _ & _ & _ & H);
        pose proof (appendLineToFile_clock w0 l (ledgerLine u p));
        fold (recorded env l u p w0) in *; simpl in *;
        generalize dependent (recorded env l u p w0); intros
    end;
    (split_and!; [|lia..]); intros k Hk Hl;
    rewrite ?H by done; rewrite ?lookup_insert_ne by done; done.
Qed.

Lemma Fetched_failed url path logFilePath s w err s' w' :
  Fetched env url path logFilePath s w (Some err, s', w') →
  s' = s ∧ (url ∉ s)
  ∧ (∀ k, k ≠ key path → fs w' !! k = fs w !! k)
  ∧ (diskWrites (trace w') = diskWrites (trace w)
     ∨ diskWrites (trace w') = diskWrites (trace w) ++ [EvCreate path]).
Proof.
  intros Hcase. inversion Hcase; subst; simpl;
    rewrite ?diskWrites_app; simpl; rewrite ?app_nil_r;
    (split_and!; [done|done| |by eauto]);
    intros k Hk; rewrite ?lookup_insert_ne by done; done.
Qed.

Lemma Fetched_requested url path logFilePath s w e s' w' :
  url ∉ s → ¬ isFileAt w path →
  Fetched env url path logFilePath s w (e, s', w') →
  gets (trace w') = gets (trace w) ++ [url].
Proof.
  intros Hnew Hnofile Hcase. inversion Hcase; subst; try done; simpl;
    repeat match goal with
    | |- context [recorded env ?l ?u ?p ?w0] =>
        let H := fresh in
        pose proof (appendLineToFile_any env w0 l (ledgerLine u p)) as (H & _);
        fold (recorded env l u p w0) in *; simpl in *;
        generalize dependent (recorded env l u p w0); intros
    end;
    rewrite ?gets_app in *; simpl in *; rewrite ?app_nil_r in *; congruence.
Qed.

(** A response that is not rejected passes each of the four tests. *)
Lemma accepted_tests resp :
  ¬ rejected resp →
  (StatusCode resp =? 200) = true
  ∧ strings_Contains (ContentType resp) "application/pdf" = true
  ∧ ReadErr resp = None
  ∧ (String.length (Body resp) =? 0) = false.
Proof.
  intros Hacc. split_and!.
  - apply Nat.eqb_eq. destruct (decide (StatusCode resp = 200)); [done|].
    destruct Hacc. by left.
  - destruct (strings_Contains (ContentType resp) "application/pdf") eqn:E; [done|].
    destruct Hacc. right. by left.
  - destruct (ReadErr resp) eqn:E; [|done]. destruct Hacc. right. right. left.
    by rewrite E.
  - apply Nat.eqb_neq. destruct (Body resp) eqn:E; [|done].
    destruct Hacc. right. right. by right.
Qed.

(** X2 — a successful download.  For a URL that is not in the ledger
    set and whose local path is free, when the server answers 200 with a
    PDF content type and a non-empty body that is read in full, and the
    four write-side system calls succeed, the call returns no error, the
    local file holds exactly the body, the ledger file has grown by
    exactly the line of the URL, the URL is in the ledger set, and one
    request was sent. *)
Theorem download_success_stores_body
    (finalURL outputDirectory filename logFilePath : string)
    (alreadyDownloaded : gset string) (w : World) (resp : Response) :
  let path := localPath env outputDirectory filename in
  let r := downloadPDFFile env finalURL outputDirectory filename logFilePath
             alreadyDownloaded w in
  let line := ledgerLine finalURL path +:+ LF in
  finalURL ∉ alreadyDownloaded →
  fs w !! key path = None →
  http_Get env (clock w) finalURL = GetResponse resp →
  ¬ rejected resp →
  (∀ n, clock w < n ≤ clock w + 4 → io_fault env n = None) →
  fs w !! key logFilePath ≠ Some Dir →
  key logFilePath ≠ key path →
  r.1 = (None, {[finalURL]} ∪ alreadyDownloaded)
  ∧ fs r.2 = <[key logFilePath := File (fileText w logFilePath +:+ line)]>
               (<[key path := File (Body resp)]> (fs w))
  ∧ gets (trace r.2) = gets (trace w) ++ [finalURL]
  ∧ diskWrites (trace r.2)
    = diskWrites (trace w)
      ++ [EvCreate path; EvWrite path (Body resp); EvAppend logFilePath line].
Proof.
  intros path r line Hnew Hnone Hget Hacc Hio Hnodir Hapart. subst r line.
  assert (Hnofile : ¬ isFileAt w path).
  { intros [c Hc]. congruence. }
  destruct (accepted_tests resp Hacc) as (Hstatus & Hct & Hread & Hlen).
  assert (Hr : ∃ cl tr,
    downloadPDFFile env finalURL outputDirectory filename logFilePath alreadyDownloaded w
    = ((None, {[finalURL]} ∪ alreadyDownloaded),
       {| fs := <[key logFilePath :=
                    File (fileText w logFilePath +:+ ledgerLine finalURL path +:+ LF)]>
                  (<[key path := File (Body resp)]> (fs w));
          clock := cl; trace := tr |})
    ∧ gets tr = gets (trace w) ++ [finalURL]
    ∧ diskWrites tr
      = diskWrites (trace w)
        ++ [EvCreate path; EvWrite path (Body resp);
            EvAppend logFilePath (ledgerLine finalURL path +:+ LF)]).
  { unfold downloadPDFFile. fold (localPath env outputDirectory filename). fold path.
    rewrite decide_False by done.
    unfold bind at 1. rewrite (doesFileExist_false _ _ Hnofile).
    unfold bind at 1, client_Get, bind, tick, emit, ret. simpl.
    rewrite Hget, Hstatus, Hct, Hread, Hlen. simpl.
    unfold os_Create, file_Write, bind, tick, os_Stat, setNode, emit, ret. simpl.
    rewrite (Hio (S (clock w))) by lia. simpl. rewrite Hnone. simpl.
    rewrite (Hio (S (S (clock w)))) by lia. simpl.
    rewrite insert_insert_eq.
    rewrite (appendLineToFile_ok env) by
      (simpl; rewrite ?lookup_insert_ne by done; first [apply Hio; lia | done]).
    unfold log, emit. simpl. unfold fileText. simpl. rewrite lookup_insert_ne by done.
    do 2 eexists. split; [reflexivity|].
    rewrite !gets_app, !diskWrites_app. simpl. rewrite !app_nil_r, <- !app_assoc.
    done. }
  destruct Hr as (cl & tr & -> & Hg & Hd). simpl. done.
Qed.

(** X3 — an error means nothing was recorded.  The call returns no
    error exactly when the URL is in the ledger set afterwards.  When it
    returns an error the ledger set is the one passed in, no ledger line
    was appended (the only disk write there can be is the creation of the
    local file), and every file other than the local file is as it was. *)
Theorem failed_call_records_nothing
    (finalURL outputDirectory filename logFilePath : string)
    (alreadyDownloaded : gset string) (w : World) :
  let path := localPath env outputDirectory filename in
  let r := downloadPDFFile env finalURL outputDirectory filename logFilePath
             alreadyDownloaded w in
  (r.1.1 = None ↔ finalURL ∈ r.1.2)
  ∧ (r.1.1 ≠ None →
     r.1.2 = alreadyDownloaded
     ∧ (∀ k, k ≠ key path → fs r.2 !! k = fs w !! k)
     ∧ (diskWrites (trace r.2) = diskWrites (trace w)
        ∨ diskWrites (trace r.2) = diskWrites (trace w) ++ [EvCreate path])).
Proof.
  intros path r. subst r.
  pose proof (downloadPDFFile_outcome env finalURL outputDirectory filename logFilePath
                alreadyDownloaded w) as Hcase.
  fold path in Hcase.
  destruct (downloadPDFFile _ _ _ _ _ _ _) as [[e s'] w']. simpl.
  destruct e as [err|].
  - destruct (Fetched_failed _ _ _ _ _ _ _ _ Hcase) as (-> & Hnew & Hfs & Hd).
    split; [split; [done|by intros]|]. intros _. done.
  - destruct (Fetched_effects env _ _ _ _ _ _ _ _ Hcase) as (_ & _ & _ & _ & Hin & _).
    split; [split; [by intros; apply Hin|done]|]. done.
Qed.

(** X4 — a file cut short by a failed write is taken for a finished
    download.  When the local file was created and the write of the body
    fails, the call returns an error and leaves at the local path the
    bytes that were written.  The next call for the same item finds that
    file, sends no request, returns no error and adds the URL to the
    ledger set; the file still holds only those bytes. *)
Theorem truncated_file_is_reconciled
    (finalURL outputDirectory filename logFilePath : string)
    (alreadyDownloaded : gset string) (w : World) (resp : Response) (f : IOFault) :
  let path := localPath env outputDirectory filename in
  let attempt := downloadPDFFile env finalURL outputDirectory filename logFilePath in
  let r1 := attempt alreadyDownloaded w in
  let r2 := attempt r1.1.2 r1.2 in
  let kept := String.substring 0 (fault_written f) (Body resp) in
  finalURL ∉ alreadyDownloaded →
  fs w !! key path = None →
  http_Get env (clock w) finalURL = GetResponse resp →
  ¬ rejected resp →
  io_fault env (S (clock w)) = None →
  io_fault env (S (S (clock w))) = Some f →
  (∃ err, r1.1 = (Some err, alreadyDownloaded))
  ∧ fs r1.2 = <[key path := File kept]> (fs w)
  ∧ r2.1 = (None, {[finalURL]} ∪ alreadyDownloaded)
  ∧ gets (trace r2.2) = gets (trace w) ++ [finalURL]
  ∧ (key logFilePath ≠ key path → fs r2.2 !! key path = Some (File kept)).
Proof.
  intros path attempt r1 r2 kept Hnew Hnone Hget Hacc Hcreate Hwrite.
  assert (Hnofile : ¬ isFileAt w path).
  { intros [c Hc]. congruence. }
  destruct (accepted_tests resp Hacc) as (Hstatus & Hct & Hread & Hlen).
  assert (Hr1 : ∃ err,
    r1 = ((Some err, alreadyDownloaded),
          {| fs := <[key path := File kept]> (fs w);
             clock := S (S (S (clock w)));
             trace := (trace w ++ [EvGet finalURL]) ++ [EvCreate path] |})).
  { subst r1 attempt. cbv beta.
    unfold downloadPDFFile. fold (localPath env outputDirectory filename). fold path.
    rewrite decide_False by done.
    unfold bind at 1. rewrite (doesFileExist_false _ _ Hnofile).
    unfold bind at 1, client_Get, bind, tick, emit, ret. simpl.
    rewrite Hget, Hstatus, Hct, Hread, Hlen. simpl.
    unfold os_Create, file_Write, bind, tick, os_Stat, setNode, emit, ret. simpl.
    rewrite Hcreate. simpl. rewrite Hnone. simpl. rewrite Hwrite. simpl.
    rewrite insert_insert_eq. eexists. reflexivity. }
  destruct Hr1 as [err Hr1]. subst r2. rewrite Hr1. cbn [fst snd].
  set (w1 := Build_World _ _ _).
  assert (Hfile : isFileAt w1 path).
  { exists kept. subst w1. simpl. by rewrite lookup_insert_eq. }
  pose proof (downloadPDFFile_outcome env finalURL outputDirectory filename logFilePath
                alreadyDownloaded w1) as Hcase.
  fold path in Hcase. fold attempt in Hcase.
  destruct Hcase as [Hin| _ _ |? _ Hno|? ? _ Hno|? ? _ Hno|? ? _ Hk|? _ Hk];
    try done; try (destruct Hfile as [c Hc]; congruence).
  cbn [fst snd]. unfold recorded.
  set (w2 := logged w1 _).
  pose proof (appendLineToFile_any env w2 logFilePath (ledgerLine finalURL path))
    as (Hg & _ & _ & _ & Hframe).
  cbn zeta in Hg, Hframe.
  split_and!; [by eexists|done|done| |].
  - rewrite Hg. subst w2 w1. simpl. rewrite !gets_app. simpl. by rewrite !app_nil_r.
  - intros Hapart. rewrite Hframe by done. subst w2 w1. simpl.
    by rewrite lookup_insert_eq.
Qed.

(** X5 — the footprint of one call.  Whatever the environment does, a
    call changes no file other than the local file and the ledger file,
    sends at most one request and only to the URL of the item, never
    sleeps, can only add that URL to the ledger set, and makes at most
    five external calls. *)
Theorem downloadPDFFile_footprint
    (finalURL outputDirectory filename logFilePath : string)
    (alreadyDownloaded : gset string) (w : World) :
  let path := localPath env outputDirectory filename in
  let r := downloadPDFFile env finalURL outputDirectory filename logFilePath
             alreadyDownloaded w in
  (∀ k, k ≠ key path → k ≠ key logFilePath → fs r.2 !! k = fs w !! k)
  ∧ (gets (trace r.2) = gets (trace w) ∨ gets (trace r.2) = gets (trace w) ++ [finalURL])
  ∧ sleeps (trace r.2) = sleeps (trace w)
  ∧ alreadyDownloaded ⊆ r.1.2 ∧ r.1.2 ⊆ {[finalURL]} ∪ alreadyDownloaded
  ∧ clock w ≤ clock r.2 ∧ clock r.2 ≤ clock w + 5.
Proof.
  intros path r. subst r.
  pose proof (downloadPDFFile_outcome env finalURL outputDirectory filename logFilePath
                alreadyDownloaded w) as Hcase.
  fold path in Hcase.
  destruct (downloadPDFFile _ _ _ _ _ _ _) as [[e s'] w'].
  destruct (Fetched_frame _ _ _ _ _ _ _ _ Hcase) as (Hframe & Hc1 & Hc2).
  destruct (Fetched_effects env _ _ _ _ _ _ _ _ Hcase) as (Hs & Hg & Hsub1 & Hsub2 & _).
  simpl. split_and!; done.
Qed.

End FetcherMore.

(** ** The item loop of [main] *)

Section ItemLoop.

Variable env : Env.

Local Abbreviation pathOf item :=
  (localPath env outputDirectoryName (ItemFileName item)).

(** A request that fails before the disk is touched: the error text
    carries the URL. *)
Lemma downloadPDFFile_refused finalURL outputDirectory filename logFilePath s w :
  finalURL ∉ s →
  ¬ isFileAt w (localPath env outputDirectory filename) →
  (∀ resp, http_Get env (clock w) finalURL = GetResponse resp → rejected resp) →
  ∃ pre post,
    downloadPDFFile env finalURL outputDirectory filename logFilePath s w
    = ((Some (pre +:+ finalURL +:+ post), s), requested w finalURL).
Proof.
  intros Hnew Hnofile Hrej.
  unfold downloadPDFFile. fold (localPath env outputDirectory filename).
  rewrite decide_False by done.
  unfold bind at 1. rewrite (doesFileExist_false _ _ Hnofile).
  unfold bind at 1, client_Get, bind, tick, emit, ret. simpl.
  destruct (http_Get env (clock w) finalURL) as [err|resp] eqn:Hget.
  { by exists "failed to download ", (": " +:+ err). }
  destruct (negb (StatusCode resp =? 200)) eqn:Hstatus.
  { by exists "download failed for ", (": " +:+ Status resp). }
  destruct (negb (strings_Contains (ContentType resp) "application/pdf")) eqn:Hct.
  { by exists "invalid content type for ",
      (": " +:+ ContentType resp +:+ " (expected application/pdf)"). }
  destruct (ReadErr resp) as [rerr|] eqn:Hread.
  { by exists "failed to read PDF data from ", (": " +:+ rerr). }
  destruct (String.length (Body resp) =? 0) eqn:Hlen.
  { by exists "downloaded 0 bytes for ", ", not creating file". }
  exfalso. apply negb_false_iff, Nat.eqb_eq in Hstatus. apply negb_false_iff in Hct.
  apply Nat.eqb_neq in Hlen.
  destruct (Hrej resp eq_refl) as [?|[?|[?|Hb]]]; [congruence..|].
  rewrite Hb in Hlen. done.
Qed.

(** X7 — a URL that contains the digits 429 is treated as rate-limited
    whenever its request fails.  The orchestrator looks for [429] in the
    whole error text, and the text of every error raised before the disk
    is touched carries the URL.  So for such a URL any transport error or
    rejected response (a 404, a wrong content type, an empty body) makes
    the orchestrator sleep three minutes and request the URL a second
    time. *)
Theorem url_with_429_triggers_backoff
    (s : gset string) (item : ValidDownloadItem) (w : World) :
  let r := main_item env s item w in
  strings_Contains (URL item) "429" = true →
  URL item ∉ s →
  ¬ isFileAt w (pathOf item) →
  (∀ resp, http_Get env (clock w) (URL item) = GetResponse resp → rejected resp) →
  sleeps (trace r.2) = sleeps (trace w) ++ [3]
  ∧ gets (trace r.2) = gets (trace w) ++ [URL item; URL item].
Proof.
  intros r H429 Hnew Hnofile Hrej.
  destruct (downloadPDFFile_refused (URL item) outputDirectoryName (ItemFileName item)
              downloadLogFileName s w Hnew Hnofile Hrej) as (pre & post & Hfirst).
  assert (Hr : r = main_item env s item w) by done. clearbody r.
  unfold main_item in Hr. unfold bind at 1 in Hr. rewrite Hfirst in Hr.
  unfold bind at 1 in Hr. unfold log at 1, emit in Hr. simpl in Hr.
  assert (Htext : strings_Contains (pre +:+ URL item +:+ post) "429" = true).
  { by apply strings_Contains_app_r, strings_Contains_app_l. }
  rewrite Htext in Hr.
  unfold bind, log, time_Sleep, emit in Hr. simpl in Hr.
  set (cooled := Build_World _ _ _) in *.
  pose proof (downloadPDFFile_outcome env (URL item) outputDirectoryName
                (ItemFileName item) downloadLogFileName s cooled) as Hsecond.
  destruct (downloadPDFFile env _ _ _ _ s cooled) as [[e2 s2] w2].
  assert (Hnofile' : ¬ isFileAt cooled (pathOf item)) by done.
  pose proof (Fetched_requested env _ _ _ _ _ _ _ _ Hnew Hnofile' Hsecond) as Hg2.
  destruct (Fetched_effects env _ _ _ _ _ _ _ _ Hsecond) as [Hs2 _].
  assert (Hsc : sleeps (trace cooled) = sleeps (trace w) ++ [3]).
  { subst cooled. simpl. rewrite !sleeps_app. simpl. by rewrite !app_nil_r. }
  assert (Hgc : gets (trace cooled) = gets (trace w) ++ [URL item]).
  { subst cooled. simpl. rewrite !gets_app. simpl. by rewrite !app_nil_r. }
  rewrite Hsc in Hs2. rewrite Hgc, <- app_assoc in Hg2.
  destruct e2 as [e|]; subst r; unfold ret; simpl;
    rewrite ?gets_app, ?sleeps_app; simpl; rewrite ?app_nil_r; done.
Qed.

(** One item: at most two requests, all to its URL, and at most one
    sleep. *)
Lemma main_item_budget s item w :
  ∃ n m, n ≤ 2 ∧ m ≤ 1
    ∧ gets (trace (main_item env s item w).2) = gets (trace w) ++ replicate n (URL item)
    ∧ sleeps (trace (main_item env s item w).2) = sleeps (trace w) ++ replicate m 3.
Proof.
  pose proof (downloadPDFFile_outcome env (URL item) outputDirectoryName
                (ItemFileName item) downloadLogFileName s w) as Hfirst.
  set (r := main_item env s item w).
  assert (Hr : r = main_item env s item w) by done. clearbody r.
  unfold main_item in Hr. unfold bind at 1 in Hr.
  destruct (downloadPDFFile env (URL item) _ _ _ s w) as [[e1 s1] w1].
  apply Fetched_effects in Hfirst as (Hs1 & Hg1 & _).
  assert (Hn1 : ∃ n, n ≤ 1 ∧ gets (trace w1) = gets (trace w) ++ replicate n (URL item)).
  { destruct Hg1 as [Hg1|Hg1]; rewrite Hg1.
    - exists 0. split; [lia|]. simpl. by rewrite app_nil_r.
    - exists 1. split; [lia|done]. }
  destruct Hn1 as (n1 & Hle1 & Hn1).
  destruct e1 as [errorString|]; simpl in Hr.
  2:{ subst r. exists n1, 0. simpl. rewrite app_nil_r. split_and!; [lia|lia|done|done]. }
  unfold bind at 1 in Hr. unfold log at 1, emit in Hr. simpl in Hr.
  destruct (strings_Contains errorString "429").
  - unfold bind, log, time_Sleep, emit in Hr. simpl in Hr.
    set (cooled := Build_World _ _ _) in *.
    pose proof (downloadPDFFile_outcome env (URL item) outputDirectoryName
                  (ItemFileName item) downloadLogFileName s1 cooled) as Hsecond.
    destruct (downloadPDFFile env (URL item) _ _ _ s1 cooled) as [[e2 s2] w2].
    apply Fetched_effects in Hsecond as (Hs2 & Hg2 & _).
    assert (Hgc : gets (trace cooled) = gets (trace w1)).
    { subst cooled. simpl. rewrite !gets_app. simpl. by rewrite !app_nil_r. }
    assert (Hsc : sleeps (trace cooled) = sleeps (trace w) ++ [3]).
    { subst cooled. simpl. rewrite !sleeps_app. simpl. by rewrite !app_nil_r, Hs1. }
    rewrite Hgc, Hn1 in Hg2. rewrite Hsc in Hs2.
    assert (Hn : ∃ n, n ≤ 2 ∧ gets (trace w2) = gets (trace w) ++ replicate n (URL item)).
    { destruct Hg2 as [Hg2|Hg2]; rewrite Hg2.
      - exists n1. split; [lia|done].
      - exists (S n1). split; [lia|].
        rewrite <- app_assoc. f_equal.
        change [URL item] with (replicate 1 (URL item)).
        rewrite <- replicate_add. f_equal. lia. }
    destruct Hn as (n & Hn & Hgn). exists n, 1.
    destruct e2 as [e|]; subst r; unfold ret; simpl;
      rewrite ?gets_app, ?sleeps_app; simpl; rewrite ?app_nil_r;
      (split_and!; [lia|lia|done|done]).
  - subst r. unfold ret. simpl. rewrite gets_app, sleeps_app. simpl. rewrite !app_nil_r.
    exists n1, 0. simpl. rewrite app_nil_r. split_and!; [lia|lia|done|done].
Qed.

Lemma main_items_budget items s w :
  ∃ new m,
    gets (trace (main_items env items s w).2) = gets (trace w) ++ new
    ∧ Forall (fun url => url ∈ URL <$> items) new
    ∧ length new ≤ 2 * length items
    ∧ m ≤ length items
    ∧ sleeps (trace (main_items env items s w).2) = sleeps (trace w) ++ replicate m 3.
Proof.
  revert s w. induction items as [|item items IH]; intros s w.
  - exists [], 0. simpl. rewrite !app_nil_r. split_and!; [done|constructor|done..].
  - rewrite main_items_cons.
    destruct (main_item_budget s item w) as (n & m1 & Hn & Hm1 & Hg & Hs).
    destruct (main_item env s item w) as [[e s'] w']. simpl in *.
    destruct (IH s' w') as (new & m2 & Hnew & Hall & Hlen & Hm2 & Hsl).
    exists (replicate n (URL item) ++ new), (m1 + m2). split_and!.
    + by rewrite Hnew, Hg, <- app_assoc.
    + apply Forall_app. split.
      * apply Forall_forall. intros x [-> _]%elem_of_replicate. set_solver.
      * eapply Forall_impl; [exact Hall|]. intros x Hx. simpl. set_solver.
    + rewrite length_app, length_replicate. simpl. lia.
    + lia.
    + by rewrite Hsl, Hs, <- app_assoc, replicate_add.
Qed.

Lemma main_items_set items s w :
  (main_items env items s w).1 ⊆ list_to_set (URL <$> items) ∪ s.
Proof.
  revert s w. induction items as [|item items IH]; intros s w.
  - simpl. set_solver.
  - rewrite main_items_cons.
    pose proof (main_item_advance env s item w) as (_ & _ & Hsup & _).
    destruct (main_item env s item w) as [[e s'] w']. simpl in *.
    specialize (IH s' w'). set_solver.
Qed.

(** X8 — the budget of the item loop.  Over any list of items the
    orchestrator sends at most two requests per item, each to the URL of
    one of the items, and sleeps at most once per item, three minutes
    each time: the retry after a 429 is bounded and nothing else is ever
    requested.  The ledger set keeps what it held and can only gain URLs
    of the items. *)
Theorem items_request_budget (items : list ValidDownloadItem) (s : gset string)
    (w : World) :
  let r := main_items env items s w in
  (∃ new m,
     gets (trace r.2) = gets (trace w) ++ new
     ∧ Forall (fun url => url ∈ URL <$> items) new
     ∧ length new ≤ 2 * length items
     ∧ m ≤ length items
     ∧ sleeps (trace r.2) = sleeps (trace w) ++ replicate m 3)
  ∧ s ⊆ r.1
  ∧ r.1 ⊆ list_to_set (URL <$> items) ∪ s.
Proof.
  intros r. subst r. split_and!.
  - apply main_items_budget.
  - by destruct (main_items_advance env items s w) as (_ & _ & ?).
  - apply main_items_set.
Qed.

(** X9 — a pass without failures records every item.  When the items of
    a page have pairwise distinct URLs and the pass over them logs no
    abandoned item, every item's URL is in the ledger set at the end, and
    every item whose URL was not in the set at the start has its local
    file on disk at the end. *)
Theorem clean_pass_records_every_item (items : list ValidDownloadItem)
    (s : gset string) (w : World) :
  let r := main_items env items s w in
  NoDup (URL <$> items) →
  abandoned (trace r.2) = abandoned (trace w) →
  ∀ item, item ∈ items →
    URL item ∈ r.1 ∧ (URL item ∈ s ∨ isFileAt r.2 (pathOf item)).
Proof.
  cbn zeta. revert s w. induction items as [|item items IH]; intros s w Hnd Hquiet.
  - by intros item ?%elem_of_nil.
  - rewrite main_items_cons in *. apply NoDup_cons in Hnd as [Hfresh Hnd].
    pose proof (main_item_advance env s item w) as (Hext1 & Hsub1 & Hsup1 & Hcount).
    destruct (main_item env s item w) as [[e1 s'] w']. simpl in *.
    pose proof (main_items_advance env items s' w') as (Hrest & Hab & Hsubr).
    simpl in Hrest, Hab, Hsubr.
    destruct e1 as [e|]; [lia|]. destruct Hcount as (Hsame & Hin & Hknown).
    intros it [->|Hit]%elem_of_cons.
    + split; [set_solver|]. destruct Hknown as [?|Hfile]; [by left|right].
      by eapply extends_isFileAt.
    + destruct (IH s' w' Hnd ltac:(lia) it Hit) as [Hrec Hdisk].
      split; [done|]. destruct Hdisk as [Hs'|?]; [|by right]. left.
      assert (URL it ≠ URL item).
      { intros Heq. apply Hfresh. rewrite <- Heq. by apply list_elem_of_fmap_2. }
      set_solver.
Qed.

End ItemLoop.

(** ** The page loop of [main] *)

Section Pages.

Variable env : Env.

Local Abbreviation L := (key downloadLogFileName).

(** X12 — a page request that is refused leaves the disk alone.  When
    the request for a page meets a transport error or a status other than
    200, [downloadDataFromURL] has sent that one request and has created
    or written nothing. *)
Theorem page_download_refused_leaves_disk (uri outputFileName : string) (w : World) :
  let w' := (downloadDataFromURL env uri outputFileName w).2 in
  (∀ resp, http_Get env (clock w) uri = GetResponse resp → StatusCode resp ≠ 200) →
  fs w' = fs w
  ∧ diskWrites (trace w') = diskWrites (trace w)
  ∧ gets (trace w') = gets (trace w) ++ [uri].
Proof.
  intros w' Hrefused. subst w'. unfold downloadDataFromURL. unfold_sys. simpl.
  destruct (http_Get env (clock w) uri) as [err|resp] eqn:Hget; simpl.
  - rewrite !gets_app, !diskWrites_app. simpl. by rewrite !app_nil_r.
  - specialize (Hrefused resp eq_refl). apply Nat.eqb_neq in Hrefused.
    rewrite Hrefused. simpl.
    rewrite !gets_app, !diskWrites_app. simpl. by rewrite !app_nil_r.
Qed.

(** X13 — what arrived of a page stays on disk.  Once the server has
    answered 200 and the file could be created, [downloadDataFromURL]
    leaves a regular file at the path, whether or not the copy went
    through: the whole of the body that was delivered, or, when the write
    failed, the bytes written before the failure.  No content type is
    looked at, any earlier content of the file is gone, and
    [doesFileExist] answers true afterwards. *)
Theorem page_download_keeps_what_arrived
    (uri outputFileName : string) (w : World) (resp : Response) :
  let w' := (downloadDataFromURL env uri outputFileName w).2 in
  let kept :=
    match io_fault env (S (S (clock w))) with
    | None => Body resp
    | Some f => String.substring 0 (fault_written f) (Body resp)
    end in
  http_Get env (clock w) uri = GetResponse resp →
  StatusCode resp = 200 →
  io_fault env (S (clock w)) = None →
  fs w !! key outputFileName ≠ Some Dir →
  fs w' = <[key outputFileName := File kept]> (fs w)
  ∧ doesFileExist outputFileName w' = (true, w')
  ∧ gets (trace w') = gets (trace w) ++ [uri].
Proof.
  intros w' kept Hget Hstatus Hcreate Hnodir.
  assert (Hw' : ∃ cl tr, w' = {| fs := <[key outputFileName := File kept]> (fs w);
                                 clock := cl; trace := tr |}
                         ∧ gets tr = gets (trace w) ++ [uri]).
  { subst w' kept. unfold downloadDataFromURL. unfold_sys. simpl.
    rewrite Hget, Hstatus. simpl. rewrite Hcreate. simpl.
    destruct (fs w !! key outputFileName) as [[c|]|] eqn:Hk; [|done|]; simpl;
      destruct (io_fault env (S (S (clock w)))) as [f|]; simpl;
      destruct (ReadErr resp); simpl; rewrite insert_insert_eq;
      do 2 eexists; (split; [reflexivity|]);
      rewrite !gets_app; simpl; by rewrite !app_nil_r. }
  destruct Hw' as (cl & tr & -> & Hg). split_and!; [done| |done].
  apply doesFileExist_true. exists kept. simpl. by rewrite lookup_insert_eq.
Qed.

(** X14 — a page text that does not decode yields nothing.  When the
    JSON file of a page is on disk and its text fails to decode, the page
    is not requested again and no item is processed: the ledger set, the
    file system and the clock are as before, and the page leaves three
    log lines. *)
Theorem undecodable_page_yields_nothing (s : gset string) (k : nat) (w : World)
    (c err : string) :
  fs w !! key (jsonFileName k) = Some (File c) →
  json_Unmarshal env c = Err err →
  main_page env s k w
  = (s, {| fs := fs w; clock := clock w;
           trace := trace w
                    ++ [EvLog ("Processing page " +:+ pretty k +:+ "...");
                        EvLog ("JSON unmarshal error: " +:+ err);
                        EvLog ("Page " +:+ pretty k +:+ ": Found 0 unique URLs.")] |}).
Proof.
  intros Hc Herr. unfold main_page. unfold bind at 1. unfold log at 1, emit.
  cbn [fst snd]. set (wa := Build_World _ _ _).
  assert (Hca : fs wa !! key (jsonFileName k) = Some (File c)) by done.
  unfold bind at 1. rewrite doesFileExist_true by (by exists c). cbn [negb].
  unfold bind at 1. unfold ret at 1.
  unfold bind at 1. rewrite doesFileExist_true by (by exists c).
  unfold bind at 1. rewrite (readLocalFileContent_file _ _ _ Hca).
  unfold bind at 1. unfold parseJSONForDownloads. rewrite Herr.
  unfold bind, log, emit, ret. subst wa. cbn [fst snd fs clock trace length].
  unfold main_items. cbn [foldM]. unfold ret.
  rewrite <- !app_assoc. done.
Qed.

(** X15 — a page that cannot be fetched is skipped.  When the JSON file
    of a page is not on disk and the request for it meets a transport
    error or a status other than 200, the page costs that one request:
    the ledger set and the file system are unchanged, nothing is written,
    and the last log line says that the page was skipped. *)
Theorem unfetchable_page_is_skipped (s : gset string) (k : nat) (w : World) :
  let r := main_page env s k w in
  ¬ isFileAt w (jsonFileName k) →
  (∀ resp, http_Get env (clock w) (apiURL k) = GetResponse resp →
           StatusCode resp ≠ 200) →
  r.1 = s
  ∧ fs r.2 = fs w
  ∧ gets (trace r.2) = gets (trace w) ++ [apiURL k]
  ∧ diskWrites (trace r.2) = diskWrites (trace w)
  ∧ last (trace r.2)
    = Some (EvLog ("Skipping PDF download for page " +:+ pretty k
                   +:+ ": JSON file not found.")).
Proof.
  intros r Hnofile Hrefused.
  assert (Hr : r = main_page env s k w) by done. clearbody r.
  unfold main_page in Hr. unfold bind at 1 in Hr. unfold log at 1, emit in Hr.
  cbn [fst snd] in Hr. set (wa := Build_World _ _ _) in Hr.
  assert (Hnofile_a : ¬ isFileAt wa (jsonFileName k)) by done.
  unfold bind at 1 in Hr. rewrite (doesFileExist_false _ _ Hnofile_a) in Hr.
  cbn [negb] in Hr. unfold bind at 1 in Hr.
  assert (Hpage : let wb := (downloadDataFromURL env (apiURL k) (jsonFileName k) wa).2 in
                  fs wb = fs wa
                  ∧ diskWrites (trace wb) = diskWrites (trace wa)
                  ∧ gets (trace wb) = gets (trace wa) ++ [apiURL k]).
  { unfold downloadDataFromURL. unfold_sys. simpl.
    destruct (http_Get env (clock w) (apiURL k)) as [err|resp] eqn:Hget; simpl.
    - rewrite !gets_app, !diskWrites_app. simpl. by rewrite !app_nil_r.
    - specialize (Hrefused resp eq_refl). apply Nat.eqb_neq in Hrefused.
      rewrite Hrefused. simpl.
      rewrite !gets_app, !diskWrites_app. simpl. by rewrite !app_nil_r. }
  destruct Hpage as (Hfs & Hd & Hg).
  destruct (downloadDataFromURL env (apiURL k) (jsonFileName k) wa) as [[] wb].
  cbn [fst snd] in *.
  assert (Hnofile_b : ¬ isFileAt wb (jsonFileName k)).
  { unfold isFileAt. rewrite Hfs. done. }
  unfold bind at 1 in Hr. rewrite (doesFileExist_false _ _ Hnofile_b) in Hr.
  unfold bind, log, emit, ret in Hr. subst r. cbn [fst snd fs trace].
  rewrite gets_app, diskWrites_app, last_snoc, Hg, Hd, Hfs. subst wa. cbn [fs trace].
  rewrite gets_app, diskWrites_app. simpl. rewrite !app_nil_r. done.
Qed.

Lemma itemsOf_valid jsonData item :
  item ∈ itemsOf env jsonData → isValidDownloadURL env (URL item) = true.
Proof.
  unfold itemsOf. destruct (json_Unmarshal env jsonData) as [data|err].
  - rewrite loop_is_keepFirst. by intros [? _]%keepFirst_valid.
  - by intros ?%elem_of_nil.
Qed.

Lemma downloadDataFromURL_requests uri file w :
  gets (trace (downloadDataFromURL env uri file w).2) = gets (trace w) ++ [uri].
Proof.
  unfold downloadDataFromURL. unfold_sys.
  steps; rewrite ?gets_app; simpl; rewrite ?app_nil_r; done.
Qed.

(** The requests of one page: its API URL at most once, then URLs that
    passed the validity test. *)
Lemma main_page_requests s k w :
  ∃ new,
    gets (trace (main_page env s k w).2) = gets (trace w) ++ new
    ∧ Forall (fun url => url = apiURL k ∨ isValidDownloadURL env url = true) new.
Proof.
  set (r := main_page env s k w).
  assert (Hr : r = main_page env s k w) by done. clearbody r.
  unfold main_page in Hr. unfold bind at 1 in Hr. unfold log at 1, emit in Hr.
  cbn [fst snd] in Hr.
  set (wa := Build_World _ _ _) in Hr.
  assert (Hwa : gets (trace wa) = gets (trace w)).
  { subst wa. cbn [trace]. rewrite gets_app. simpl. by rewrite app_nil_r. }
  clearbody wa.
  unfold bind at 1 in Hr.
  assert (Hwb : ∃ wb, (gets (trace wb) = gets (trace wa)
                       ∨ gets (trace wb) = gets (trace wa) ++ [apiURL k])
            ∧ r = (let* present := doesFileExist (jsonFileName k) in
                   if present then
                     let* jsonFileContent := readLocalFileContent (jsonFileName k) in
                     let* extractedDownloads :=
                       parseJSONForDownloads env jsonFileContent in
                     log ("Page " +:+ pretty k +:+ ": Found "
                          +:+ pretty (length extractedDownloads) +:+ " unique URLs.") ;;
                     main_items env extractedDownloads s
                   else
                     log ("Skipping PDF download for page " +:+ pretty k
                          +:+ ": JSON file not found.") ;;
                     ret s) wb).
  { destruct (isFileAt_dec wa (jsonFileName k)) as [Hfile|Hnofile].
    - rewrite (doesFileExist_true _ _ Hfile) in Hr. cbn [fst snd negb] in Hr.
      exists wa. split; [by left|].
      rewrite Hr. unfold bind at 1. unfold ret at 1. done.
    - rewrite (doesFileExist_false _ _ Hnofile) in Hr. cbn [fst snd negb] in Hr.
      pose proof (downloadDataFromURL_requests (apiURL k) (jsonFileName k) wa) as Hg.
      unfold bind at 1 in Hr.
      destruct (downloadDataFromURL env (apiURL k) (jsonFileName k) wa) as [[] wb].
      exists wb. split; [by right|done]. }
  clear Hr. destruct Hwb as (wb & Hgb & Hr).
  assert (Hpage : ∃ new, gets (trace wb) = gets (trace w) ++ new
            ∧ Forall (fun url => url = apiURL k ∨ isValidDownloadURL env url = true) new).
  { rewrite Hwa in Hgb. destruct Hgb as [Hgb|Hgb]; rewrite Hgb.
    - exists []. rewrite app_nil_r. split; [done|constructor].
    - exists [apiURL k]. split; [done|]. repeat constructor. }
  clear Hgb. destruct Hpage as (new0 & Hgb & Hall0).
  unfold bind at 1 in Hr.
  destruct (isFileAt_dec wb (jsonFileName k)) as [Hfile|Hnofile].
  - rewrite (doesFileExist_true _ _ Hfile) in Hr. destruct Hfile as [c Hc].
    unfold bind at 1 in Hr. rewrite (readLocalFileContent_file _ _ _ Hc) in Hr.
    unfold bind at 1 in Hr.
    destruct (parseJSONForDownloads_run env c wb) as (wc & Hparse & _ & Hgc & _).
    rewrite Hparse in Hr. unfold bind at 1 in Hr. unfold log at 1, emit in Hr.
    cbn [fst snd] in Hr.
    set (wp := Build_World _ _ _) in Hr.
    assert (Hwp : gets (trace wp) = gets (trace w) ++ new0).
    { subst wp. cbn [trace]. rewrite gets_app. simpl. by rewrite app_nil_r, Hgc. }
    clearbody wp.
    destruct (main_items_budget env (itemsOf env c) s wp) as (new & m & Hnew & Hall & _).
    rewrite <- Hr in Hnew.
    exists (new0 ++ new). split.
    + by rewrite Hnew, Hwp, <- app_assoc.
    + apply Forall_app. split; [done|].
      eapply Forall_impl; [exact Hall|]. intros x (item & -> & Hin)%list_elem_of_fmap.
      right. by eapply itemsOf_valid.
  - rewrite (doesFileExist_false _ _ Hnofile) in Hr.
    unfold bind, log, emit, ret in Hr. cbn [fst snd] in Hr. subst r. cbn [fst snd trace].
    rewrite gets_app. simpl. rewrite app_nil_r. exists new0. done.
Qed.

Lemma main_pages_requests pages s w :
  Forall (fun k => k ≤ maxPageIndex) pages →
  ∃ new,
    gets (trace (foldM (main_page env) pages s w).2) = gets (trace w) ++ new
    ∧ Forall (allowedRequest env) new.
Proof.
  revert s w. induction pages as [|k pages IH]; intros s w Hpages.
  - exists []. simpl. rewrite app_nil_r. split; [done|constructor].
  - rewrite main_pages_cons. apply Forall_cons in Hpages as [Hk Hpages].
    destruct (main_page_requests s k w) as (new1 & Hg1 & Hall1).
    destruct (main_page env s k w) as [s' w']. simpl in *.
    destruct (IH s' w' Hpages) as (new2 & Hg2 & Hall2).
    exists (new1 ++ new2). split.
    + by rewrite Hg2, Hg1, <- app_assoc.
    + apply Forall_app. split; [|done].
      eapply Forall_impl; [exact Hall1|]. intros x [->|Hx]; [left; eauto|by right].
Qed.

(** X16 — the whole run requests nothing but page URLs and validated
    item URLs.  Every request [main] sends goes to the API URL of one of
    the pages 0 to 75 or to a URL that passed [isValidDownloadURL]: a
    string from a page whose scheme is not http or https, or that does
    not parse, is never requested. *)
Theorem main_requests_only_allowed_urls (w : World) :
  ∃ new,
    gets (trace (main env w).2) = gets (trace w) ++ new
    ∧ Forall (allowedRequest env) new.
Proof.
  destruct (main_run env w) as (wd & _ & Hgd & _ & _ & Hmain).
  rewrite Hmain. cbn [fst snd]. unfold logged. cbn [trace].
  rewrite gets_app. cbn [gets]. rewrite app_nil_r.
  destruct (main_pages_requests (seq 0 (S maxPageIndex))
              (ledgerSet (fileText wd downloadLogFileName)) wd) as (new & Hg & Hall).
  - apply Forall_forall. intros k Hk%elem_of_seq. lia.
  - exists new. by rewrite Hg, Hgd.
Qed.

(** X17 — the whole run never damages a file that is already there.  A
    regular file that exists when [main] starts still exists when it ends,
    with the same content; the ledger file alone may have grown at its
    end.  Pages and documents are created only where no file was. *)
Theorem main_preserves_existing_files (w : World) (k c : string) :
  fs w !! k = Some (File c) →
  if decide (k = key downloadLogFileName)
  then ∃ x, fs (main env w).2 !! k = Some (File (c +:+ x))
  else fs (main env w).2 !! k = Some (File c).
Proof.
  destruct (main_run env w) as (wd & Hext & _ & _ & _ & Hmain).
  rewrite Hmain. cbn [fst snd]. unfold logged. cbn [fs].
  pose proof (main_pages_advance env (seq 0 (S maxPageIndex))
                (ledgerSet (fileText wd downloadLogFileName)) wd) as (Hext2 & _).
  cbn zeta in Hext2.
  pose proof (extends_trans _ _ _ _ Hext Hext2) as Hall.
  apply Hall.
Qed.

End Pages.

(** ** More of the variant [part_000] *)

Section Variant000More.

Variable env : Env.

Local Abbreviation pathOf000 dir url :=
  (filepath_Join dir
     (strings_ToLower (unicode_ToLower env) (Part000.urlToFilename env url))).

Lemma part000_variant_loop vs acc :
  fold_left
    (fun urls variant =>
       if Part000.isUrlValid env (JSON000.DownloadURL variant)
       then urls ++ [JSON000.DownloadURL variant] else urls) vs acc
  = acc ++ List.filter (Part000.isUrlValid env) (JSON000.DownloadURL <$> vs).
Proof.
  revert acc. induction vs as [|v vs IH]; intros acc; simpl.
  - by rewrite app_nil_r.
  - rewrite IH. destruct (Part000.isUrlValid env (JSON000.DownloadURL v)); [|done].
    by rewrite <- app_assoc.
Qed.

Lemma part000_result_loop rs acc :
  fold_left
    (fun urls result =>
       fold_left
         (fun urls variant =>
            if Part000.isUrlValid env (JSON000.DownloadURL variant)
            then urls ++ [JSON000.DownloadURL variant] else urls)
         (JSON000.Variants result) urls) rs acc
  = acc ++ List.filter (Part000.isUrlValid env)
             (JSON000.DownloadURL <$> concat (JSON000.Variants <$> rs)).
Proof.
  revert acc. induction rs as [|r rs IH]; intros acc; simpl.
  - by rewrite app_nil_r.
  - rewrite IH, part000_variant_loop, fmap_app, List.filter_app, <- app_assoc. done.
Qed.

(** The set [check] of the loop of [removeDuplicatesFromSlice] holds the
    strings of [newReturnSlice]. *)
Lemma part000_dedup_seen slice acc :
  (fold_left Part000.removeDuplicatesFromSlice_step slice (list_to_set acc, acc)).1
  = list_to_set
      (fold_left Part000.removeDuplicatesFromSlice_step slice (list_to_set acc, acc)).2.
Proof.
  revert acc. induction slice as [|x slice IH]; intros acc; [done|].
  cbn [fold_left]. unfold Part000.removeDuplicatesFromSlice_step at 2 4.
  cbn [fst snd].
  destruct (decide (x ∈ (list_to_set acc : gset string))); [apply IH|].
  replace ({[x]} ∪ list_to_set acc : gset string)
    with (list_to_set (acc ++ [x]) : gset string).
  2:{ rewrite list_to_set_app_L. simpl. set_solver. }
  apply IH.
Qed.

(** The loop up to the first occurrence of a string: what it returns for
    the strings before, then that string, then strings that occur
    later. *)
Lemma part000_dedup_split l1 x l2 :
  x ∉ l1 →
  ∃ o2, Part000.removeDuplicatesFromSlice (l1 ++ x :: l2)
        = Part000.removeDuplicatesFromSlice l1 ++ x :: o2
        ∧ o2 `sublist_of` l2.
Proof.
  intros Hx. unfold Part000.removeDuplicatesFromSlice.
  rewrite fold_left_app. cbn [fold_left].
  pose proof (part000_dedup_seen l1 []) as Hseen.
  destruct (part000_removeDuplicates l1) as (Hnd & _ & Hel).
  unfold Part000.removeDuplicatesFromSlice in Hnd, Hel.
  change (list_to_set [] : gset string) with (∅ : gset string) in Hseen.
  destruct (fold_left Part000.removeDuplicatesFromSlice_step l1 (∅, []))
    as [seen o1]. cbn [fst snd] in *. subst seen.
  assert (Hnew : x ∉ o1) by (by rewrite Hel).
  unfold Part000.removeDuplicatesFromSlice_step at 2. cbn [fst snd].
  rewrite decide_False by (by rewrite elem_of_list_to_set).
  replace ({[x]} ∪ list_to_set o1 : gset string)
    with (list_to_set (o1 ++ [x]) : gset string).
  2:{ rewrite list_to_set_app_L. simpl. set_solver. }
  destruct (part000_removeDuplicates_step l2 _ (o1 ++ [x]) eq_refl)
    as (_ & _ & tail & Htail & Hsub).
  { apply NoDup_app. split_and!; [done| |apply NoDup_singleton].
    intros y Hy ->%list_elem_of_singleton. done. }
  exists tail. split; [|done]. by rewrite Htail, <- app_assoc.
Qed.

(** X18 — what the variant extracts from a page.  When the page text
    decodes, [extractDownloadURLsFromJSON] returns, without any effect,
    the download URLs of the page that [isUrlValid] accepts: each of them
    once and no other string, in the order of their first occurrence:
    wherever an accepted URL occurs in the page for the first time, it
    stands in the output after URLs that occur before that place only and
    before URLs that occur after it only.  When the text does not decode
    it logs the error and returns no URL. *)
Theorem part000_extracted_urls (jsonData : string) (w : World) :
  match json_Unmarshal_Data env jsonData with
  | Ok data =>
      ∃ out,
        Part000.extractDownloadURLsFromJSON env jsonData w = (out, w)
        ∧ NoDup out
        ∧ out `sublist_of` urlsOf000 data
        ∧ (∀ u, u ∈ out ↔ u ∈ urlsOf000 data ∧ Part000.isUrlValid env u = true)
        ∧ (∀ l1 u l2, urlsOf000 data = l1 ++ u :: l2 →
             Part000.isUrlValid env u = true → u ∉ l1 →
             ∃ o1 o2, out = o1 ++ u :: o2
                      ∧ o1 `sublist_of` l1 ∧ o2 `sublist_of` l2)
  | Err err =>
      Part000.extractDownloadURLsFromJSON env jsonData w = ([], logged w (EvLog err))
  end.
Proof.
  unfold Part000.extractDownloadURLsFromJSON.
  destruct (json_Unmarshal_Data env jsonData) as [data|err]; [|done].
  rewrite part000_result_loop. cbn [app]. fold (urlsOf000 data).
  eexists. split; [reflexivity|].
  destruct (part000_removeDuplicates (List.filter (Part000.isUrlValid env) (urlsOf000 data)))
    as (Hnd & Hsub & Hel).
  split_and!; [done| | |].
  - etrans; [exact Hsub|]. apply filter_is_sublist.
  - intros u. rewrite Hel. apply elem_of_bool_filter.
  - intros l1 u l2 Hsplit Hvalid Hx. rewrite Hsplit, List.filter_app.
    cbn [List.filter]. rewrite Hvalid.
    destruct (part000_dedup_split (List.filter (Part000.isUrlValid env) l1) u
                (List.filter (Part000.isUrlValid env) l2)) as (o2 & -> & Ho2).
    { rewrite elem_of_bool_filter. tauto. }
    eexists _, o2. split; [reflexivity|]. split.
    + etrans; [|apply filter_is_sublist].
      by destruct (part000_removeDuplicates (List.filter (Part000.isUrlValid env) l1))
        as (_ & ? & _).
    + etrans; [exact Ho2|]. apply filter_is_sublist.
Qed.

Lemma part000_dedup_fresh slice acc :
  NoDup (acc ++ slice) →
  (fold_left Part000.removeDuplicatesFromSlice_step slice (list_to_set acc, acc)).2
  = acc ++ slice.
Proof.
  revert acc. induction slice as [|x slice IH]; intros acc Hnd.
  - simpl. by rewrite app_nil_r.
  - cbn [fold_left].
    assert (Hx : x ∉ acc).
    { apply NoDup_app in Hnd as (_ & Hdisj & _). intros Hin.
      apply (Hdisj x Hin). by left. }
    assert (Part000.removeDuplicatesFromSlice_step (list_to_set acc, acc) x
            = (list_to_set (acc ++ [x]), acc ++ [x])) as ->.
    { unfold Part000.removeDuplicatesFromSlice_step. simpl.
      rewrite decide_False by (by rewrite elem_of_list_to_set).
      f_equal. rewrite list_to_set_app_L. simpl. set_solver. }
    rewrite IH; rewrite <- app_assoc; done.
Qed.

(** X19 — the variant's deduplication.  [removeDuplicatesFromSlice]
    returns a list without repetitions that holds the same strings as its
    input, in the order of their first occurrence: wherever a string
    occurs in the input for the first time, the output is the output for
    the strings before that place, then that string, then strings that
    occur after that place, in their order.  A list without repetitions
    comes back unchanged, so applying the function a second time, as
    [main] does to the URLs of each page, changes nothing. *)
Theorem part000_dedup_contract (slice : list string) :
  let out := Part000.removeDuplicatesFromSlice slice in
  NoDup out
  ∧ out `sublist_of` slice
  ∧ (∀ x, x ∈ out ↔ x ∈ slice)
  ∧ (NoDup slice → out = slice)
  ∧ Part000.removeDuplicatesFromSlice out = out
  ∧ (∀ l1 x l2, slice = l1 ++ x :: l2 → x ∉ l1 →
       ∃ o2, out = Part000.removeDuplicatesFromSlice l1 ++ x :: o2
             ∧ o2 `sublist_of` l2).
Proof.
  intros out. subst out.
  destruct (part000_removeDuplicates slice) as (Hnd & Hsub & Hel).
  assert (Hfix : ∀ l, NoDup l → Part000.removeDuplicatesFromSlice l = l).
  { intros l Hl. unfold Part000.removeDuplicatesFromSlice.
    exact (part000_dedup_fresh l [] Hl). }
  split_and!; [done|done|done|apply Hfix|by apply Hfix|].
  intros l1 x l2 -> Hx. by apply part000_dedup_split.
Qed.

(** X20 — fetching a page in the variant.  [getDataFromURL] sends one
    request.  On a transport error, a status other than 200, a failed
    read of the body or a failed close of the body it touches no file.
    When the whole body was read, the body was closed and the file can be
    opened and written, the body is appended to what the file held, and
    that append is the only disk write: the file is created when missing,
    and never truncated. *)
Theorem part000_page_fetch (uri fileName : string) (w : World) :
  let w' := (Part000.getDataFromURL env uri fileName w).2 in
  gets (trace w') = gets (trace w) ++ [uri]
  ∧ ((∀ resp, http_Get env (clock w) uri = GetResponse resp →
              StatusCode resp ≠ 200 ∨ ReadErr resp ≠ None
              ∨ io_fault env (S (clock w)) ≠ None) →
     fs w' = fs w ∧ diskWrites (trace w') = diskWrites (trace w))
  ∧ (∀ resp, http_Get env (clock w) uri = GetResponse resp →
       StatusCode resp = 200 → ReadErr resp = None →
       io_fault env (S (clock w)) = None →
       io_fault env (S (S (clock w))) = None →
       io_fault env (S (S (S (clock w)))) = None →
       fs w !! key fileName ≠ Some Dir →
       fs w' = <[key fileName := File (fileText w fileName +:+ Body resp)]> (fs w)
       ∧ diskWrites (trace w') = diskWrites (trace w) ++ [EvAppend fileName (Body resp)]).
Proof.
  intros w'. subst w'. split_and!.
  - unfold Part000.getDataFromURL, Part000.appendByteToFile, body_Close. unfold_sys.
    steps; rewrite ?gets_app; simpl; rewrite ?app_nil_r; done.
  - intros Hrefused.
    unfold Part000.getDataFromURL, Part000.appendByteToFile, body_Close.
    unfold_sys. simpl.
    destruct (http_Get env (clock w) uri) as [err|resp] eqn:Hget; simpl.
    { rewrite ?diskWrites_app. simpl. by rewrite ?app_nil_r. }
    destruct (negb (StatusCode resp =? 200)) eqn:Hstatus; simpl.
    { rewrite ?diskWrites_app. simpl. by rewrite ?app_nil_r. }
    destruct (ReadErr resp) eqn:Hread; simpl.
    { rewrite ?diskWrites_app. simpl. by rewrite ?app_nil_r. }
    destruct (io_fault env (S (clock w))) eqn:Hclose; simpl.
    { rewrite ?diskWrites_app. simpl. by rewrite ?app_nil_r. }
    apply negb_false_iff, Nat.eqb_eq in Hstatus.
    destruct (Hrefused resp eq_refl) as [?|[?|?]]; done.
  - intros resp Hget Hstatus Hread Hclose Hopen Hwrite Hnodir.
    unfold Part000.getDataFromURL, Part000.appendByteToFile, body_Close, fileText.
    unfold_sys. simpl.
    rewrite Hget, Hstatus, Hread. simpl. rewrite Hclose. simpl. rewrite Hopen. simpl.
    destruct (fs w !! key fileName) as [[c|]|] eqn:Hk; [|done|]; simpl;
      rewrite Hwrite; simpl; rewrite ?insert_insert_eq, !diskWrites_app; simpl;
      rewrite ?app_nil_r; done.
Qed.

Lemma part000_append_effects w path content :
  let w' := (Part000.appendAndWriteToFile env path content w).2 in
  gets (trace w') = gets (trace w)
  ∧ sleeps (trace w') = sleeps (trace w)
  ∧ (diskWrites (trace w') = diskWrites (trace w)
     ∨ diskWrites (trace w') = diskWrites (trace w) ++ [EvAppend path (content +:+ LF)])
  ∧ (∀ k, k ≠ key path → fs w' !! k = fs w !! k).
Proof.
  unfold Part000.appendAndWriteToFile. unfold_sys. steps;
    rewrite ?gets_app, ?sleeps_app, ?diskWrites_app; simpl; rewrite ?app_nil_r;
    (split_and!; [done|done|eauto|by intros; rewrite ?lookup_insert_ne]).
Qed.

Lemma part000_append_ok w path content :
  io_fault env (clock w) = None →
  io_fault env (S (clock w)) = None →
  fs w !! key path ≠ Some Dir →
  Part000.appendAndWriteToFile env path content w
  = (tt, {| fs := <[key path := File (fileText w path +:+ content +:+ LF)]> (fs w);
            clock := S (S (clock w));
            trace := trace w ++ [EvAppend path (content +:+ LF)] |}).
Proof.
  intros Hopen Hwrite Hnodir.
  unfold Part000.appendAndWriteToFile, fileText. unfold_sys. steps; try done.
  by rewrite insert_insert_eq.
Qed.

(** X21 — in the variant a file that is already on disk is reported as
    an error.  For a URL that does not occur in the ledger text and whose
    local file exists, [downloadPDF] sends no request, appends the ledger
    line and returns an error; the loop of [main] logs that error, and
    when its text (the local path and the URL) contains [429] it sleeps
    three minutes although nothing was requested. *)
Theorem part000_existing_file_is_reported_as_error
    (extractedURL : list string) (url : string) (w : World) :
  let path := pathOf000 Part000.outputDir url in
  let text := "file already exists, skipping: " +:+ path +:+ " (URL: " +:+ url +:+ ")" in
  let line := EvAppend Part000.downloadedFilesURLLocation (ledgerLine url path +:+ LF) in
  let r := Part000.main_url env extractedURL url w in
  strings_Contains (fileText w Part000.downloadedFilesURLLocation) url = false →
  isFileAt w path →
  Part000.downloadPDF env url Part000.outputDir Part000.downloadedFilesURLLocation w
  = (Some text,
     (Part000.appendAndWriteToFile env Part000.downloadedFilesURLLocation
        (ledgerLine url path)
        (logged w (EvLog ("file already exists, skipping: " +:+ path)))).2)
  ∧ gets (trace r.2) = gets (trace w)
  ∧ EvLog text ∈ trace r.2
  ∧ sleeps (trace r.2)
    = sleeps (trace w) ++ (if strings_Contains text "429" then [3] else [])
  ∧ (diskWrites (trace r.2) = diskWrites (trace w)
     ∨ diskWrites (trace r.2) = diskWrites (trace w) ++ [line]).
Proof.
  intros path text line r Hfresh Hfile.
  assert (Hpdf :
    Part000.downloadPDF env url Part000.outputDir Part000.downloadedFilesURLLocation w
    = (Some text,
       (Part000.appendAndWriteToFile env Part000.downloadedFilesURLLocation
          (ledgerLine url path)
          (logged w (EvLog ("file already exists, skipping: " +:+ path)))).2)).
  { unfold Part000.downloadPDF. rewrite part000_ledger_read. fold path.
    unfold bind at 1. rewrite (part000_fileExists_true _ _ Hfile).
    rewrite Hfresh. cbn [negb]. unfold bind at 1. unfold log at 1, emit.
    cbn [fst snd]. unfold bind at 1. unfold ledgerLine, logged.
    destruct (Part000.appendAndWriteToFile _ _ _ _) as [[] w1]. done. }
  split; [exact Hpdf|].
  assert (Hr : r = Part000.main_url env extractedURL url w) by done. clearbody r.
  unfold Part000.main_url in Hr. rewrite part000_ledger_read in Hr.
  rewrite Hfresh in Hr. cbn [negb] in Hr. unfold bind at 1 in Hr.
  rewrite Hpdf in Hr.
  pose proof (part000_append_effects
                (logged w (EvLog ("file already exists, skipping: " +:+ path)))
                Part000.downloadedFilesURLLocation (ledgerLine url path))
    as (Hg & Hs & Hd & _).
  cbn zeta in Hg, Hs, Hd.
  set (w1 := (Part000.appendAndWriteToFile _ _ _ _).2) in *.
  unfold logged in Hg, Hs, Hd. cbn [trace] in Hg, Hs, Hd.
  rewrite gets_app in Hg. rewrite sleeps_app in Hs. rewrite diskWrites_app in Hd.
  cbn [gets sleeps diskWrites] in Hg, Hs, Hd. rewrite !app_nil_r in *.
  unfold bind at 1 in Hr. unfold log at 1, emit in Hr. cbn [fst snd] in Hr.
  destruct (strings_Contains text "429").
  - unfold bind, log, time_Sleep, emit in Hr. subst r. cbn [fst snd trace].
    rewrite !gets_app, !sleeps_app, !diskWrites_app. cbn [gets sleeps diskWrites].
    rewrite !app_nil_r, Hg, Hs. split_and!; [done| |done|done].
    rewrite !elem_of_app, !list_elem_of_singleton. tauto.
  - unfold ret in Hr. subst r. cbn [fst snd trace].
    rewrite !gets_app, !sleeps_app, !diskWrites_app. cbn [gets sleeps diskWrites].
    rewrite !app_nil_r, Hg, Hs. split_and!; [done| |done|done].
    rewrite !elem_of_app, !list_elem_of_singleton. tauto.
Qed.

(** X22 — a successful download in the variant.  For a URL that does
    not occur in the ledger text and whose local path is free, when the
    server answers 200 with a PDF content type and a non-empty body that
    is read in full, and the four write-side system calls succeed,
    [downloadPDF] returns no error, the local file holds exactly the
    body, and the ledger file has grown by exactly the line of the
    URL. *)
Theorem part000_download_success
    (url dir logFile : string) (w : World) (resp : Response) :
  let path := pathOf000 dir url in
  let r := Part000.downloadPDF env url dir logFile w in
  let line := ledgerLine url path +:+ LF in
  strings_Contains (fileText w logFile) url = false →
  fs w !! key path = None →
  http_Get env (clock w) url = GetResponse resp →
  ¬ rejected resp →
  (∀ n, clock w < n ≤ clock w + 4 → io_fault env n = None) →
  fs w !! key logFile ≠ Some Dir →
  key logFile ≠ key path →
  r.1 = None
  ∧ fs r.2 = <[key logFile := File (fileText w logFile +:+ line)]>
               (<[key path := File (Body resp)]> (fs w))
  ∧ gets (trace r.2) = gets (trace w) ++ [url]
  ∧ diskWrites (trace r.2)
    = diskWrites (trace w)
      ++ [EvCreate path; EvWrite path (Body resp); EvAppend logFile line].
Proof.
  intros path r line Hfresh Hnone Hget Hacc Hio Hnodir Hapart. subst line.
  assert (Hnofile : Part000.fileExists path w = (false, w)).
  { unfold Part000.fileExists. unfold_sys. by rewrite Hnone. }
  destruct (accepted_tests resp Hacc) as (Hstatus & Hct & Hread & Hlen).
  assert (Hr : ∃ cl tr,
    r = (None,
         {| fs := <[key logFile :=
                      File (fileText w logFile +:+ ledgerLine url path +:+ LF)]>
                    (<[key path := File (Body resp)]> (fs w));
            clock := cl; trace := tr |})
    ∧ gets tr = gets (trace w) ++ [url]
    ∧ diskWrites tr
      = diskWrites (trace w)
        ++ [EvCreate path; EvWrite path (Body resp);
            EvAppend logFile (ledgerLine url path +:+ LF)]).
  { subst r. unfold Part000.downloadPDF. rewrite part000_ledger_read. fold path.
    unfold bind at 1. rewrite Hnofile.
    unfold bind at 1, client_Get, bind, tick, emit, ret. simpl.
    rewrite Hget, Hstatus, Hct, Hread, Hlen. simpl.
    unfold os_Create, file_Write, bind, tick, os_Stat, setNode, emit, ret. simpl.
    rewrite (Hio (S (clock w))) by lia. simpl. rewrite Hnone. simpl.
    rewrite (Hio (S (S (clock w)))) by lia. simpl.
    rewrite insert_insert_eq, Hfresh. simpl.
    rewrite part000_append_ok by
      (simpl; rewrite ?lookup_insert_ne by done; first [apply Hio; lia | done]).
    unfold log, emit. simpl. unfold fileText. simpl. rewrite lookup_insert_ne by done.
    do 2 eexists. split; [reflexivity|].
    rewrite !gets_app, !diskWrites_app. simpl. rewrite !app_nil_r, <- !app_assoc.
    done. }
  destruct Hr as (cl & tr & -> & Hg & Hd). simpl. done.
Qed.

End Variant000More.

(** ** The whole run of [part_000] *)

Section Main000.

Variable env : Env.

Local Abbreviation L := (key Part000.downloadedFilesURLLocation).

Lemma forEach_cons {A} (x : A) l body w :
  forEach (x :: l) body w = forEach l body (body x w).2.
Proof. simpl. unfold bind. by destruct (body x w). Qed.

Lemma part000_fileExists_false w path :
  ¬ isFileAt w path → Part000.fileExists path w = (false, w).
Proof.
  intros Hnofile. unfold Part000.fileExists, isFileAt in *. unfold_sys.
  destruct (fs w !! key path) as [[c|]|]; [|done..]. destruct Hnofile. by exists c.
Qed.

(** Fetching a page of the variant that is not on disk yet. *)
Lemma part000_getData_advance L0 uri file w :
  ¬ isFileAt w file →
  extends L0 w (Part000.getDataFromURL env uri file w).2
  ∧ gets (trace (Part000.getDataFromURL env uri file w).2) = gets (trace w) ++ [uri]
  ∧ sleeps (trace (Part000.getDataFromURL env uri file w).2) = sleeps (trace w).
Proof.
  intros Hnofile.
  unfold Part000.getDataFromURL, Part000.appendByteToFile, body_Close. unfold_sys.
  assert (Hk : fs w !! key file = None ∨ fs w !! key file = Some Dir).
  { unfold isFileAt in Hnofile. destruct (fs w !! key file) as [[c|]|]; eauto.
    destruct Hnofile. eauto. }
  steps; rewrite ?gets_app, ?sleeps_app; simpl; rewrite ?app_nil_r;
    (split_and!; [|done|done]);
    try (by apply extends_same_fs);
    destruct Hk as [Hk|Hk]; try congruence;
    rewrite ?insert_insert_eq;
    try (by eapply extends_insert_new).
Qed.

(** One pass of the first loop of [main]. *)
Lemma part000_fetch_page k w :
  let w' :=
    ((let* cached := Part000.fileExists (Part000.pageFile k) in
      if negb cached
      then Part000.getDataFromURL env (Part000.pageURL k) (Part000.pageFile k)
      else ret tt) w).2 in
  extends L w w'
  ∧ sleeps (trace w') = sleeps (trace w)
  ∧ ∃ new, gets (trace w') = gets (trace w) ++ new
           ∧ new `sublist_of` [Part000.pageURL k].
Proof.
  intros w'.
  assert (Hw' : w' = ((let* cached := Part000.fileExists (Part000.pageFile k) in
                       if negb cached
                       then Part000.getDataFromURL env (Part000.pageURL k)
                              (Part000.pageFile k)
                       else ret tt) w).2) by done.
  clearbody w'. unfold bind at 1 in Hw'.
  destruct (isFileAt_dec w (Part000.pageFile k)) as [Hfile|Hnofile].
  - rewrite (part000_fileExists_true _ _ Hfile) in Hw'. cbn [negb] in Hw'.
    unfold ret in Hw'. cbn [snd] in Hw'. subst w'.
    split_and!; [apply extends_refl|done|].
    exists []. rewrite app_nil_r. split; [done|apply sublist_nil_l].
  - rewrite (part000_fileExists_false _ _ Hnofile) in Hw'. cbn [negb] in Hw'. subst w'.
    destruct (part000_getData_advance L (Part000.pageURL k) (Part000.pageFile k) w Hnofile)
      as (Hext & Hg & Hs).
    split_and!; [done|done|].
    exists [Part000.pageURL k]. done.
Qed.

(** The first loop of [main]: the pages that are missing are fetched. *)
Lemma part000_fetch_pages pages w :
  let w' :=
    (forEach pages
       (fun index =>
          let* cached := Part000.fileExists (Part000.pageFile index) in
          if negb cached
          then Part000.getDataFromURL env (Part000.pageURL index) (Part000.pageFile index)
          else ret tt) w).2 in
  extends L w w'
  ∧ sleeps (trace w') = sleeps (trace w)
  ∧ ∃ new, gets (trace w') = gets (trace w) ++ new
           ∧ new `sublist_of` (Part000.pageURL <$> pages).
Proof.
  cbn zeta. revert w. induction pages as [|k pages IH]; intros w.
  - simpl. split_and!; [apply extends_refl|done|].
    exists []. rewrite app_nil_r. done.
  - rewrite forEach_cons.
    destruct (part000_fetch_page k w) as (Hext & Hs & new1 & Hg & Hsub1).
    cbv beta.
    destruct (IH ((let* cached := Part000.fileExists (Part000.pageFile k) in
                   if negb cached
                   then Part000.getDataFromURL env (Part000.pageURL k) (Part000.pageFile k)
                   else ret tt) w).2) as (Hext' & Hs' & new2 & Hg' & Hsub2).
    split_and!.
    + by eapply extends_trans.
    + by rewrite Hs', Hs.
    + exists (new1 ++ new2). split.
      * by rewrite Hg', Hg, <- app_assoc.
      * rewrite fmap_cons. change (?x :: ?l) with ([x] ++ l).
        by apply sublist_app.
Qed.

Lemma part000_extract_run jsonData w :
  let r := Part000.extractDownloadURLsFromJSON env jsonData w in
  fs r.2 = fs w
  ∧ gets (trace r.2) = gets (trace w)
  ∧ sleeps (trace r.2) = sleeps (trace w)
  ∧ Forall (fun u => Part000.isUrlValid env u = true) r.1.
Proof.
  unfold Part000.extractDownloadURLsFromJSON.
  destruct (json_Unmarshal_Data env jsonData) as [data|err].
  - rewrite part000_result_loop. cbn [app]. unfold ret. cbn [fst snd].
    split_and!; [done..|].
    apply Forall_forall. intros u Hu.
    destruct (part000_removeDuplicates
                (List.filter (Part000.isUrlValid env)
                   (JSON000.DownloadURL
                      <$> concat (JSON000.Variants <$> JSON000.Results data))))
      as (_ & _ & Hel).
    apply Hel in Hu. by apply elem_of_bool_filter in Hu as [_ ?].
  - unfold bind, log, emit, ret. cbn [fst snd fs trace].
    rewrite gets_app, sleeps_app. simpl. rewrite !app_nil_r.
    split_and!; [done..|constructor].
Qed.

Lemma part000_read_run path w :
  let r := Part000.readFileAndReturnAsByte path w in
  fs r.2 = fs w
  ∧ gets (trace r.2) = gets (trace w)
  ∧ sleeps (trace r.2) = sleeps (trace w).
Proof.
  unfold Part000.readFileAndReturnAsByte. unfold_sys.
  steps; rewrite ?gets_app, ?sleeps_app; simpl; rewrite ?app_nil_r; done.
Qed.

(** One pass of the second loop of [main]: the URLs of a page are put in
    front of those collected so far. *)
Lemma part000_collect_page acc k w :
  let r :=
    (let* cached := Part000.fileExists (Part000.pageFile k) in
     if cached then
       let* jsonFileContent := Part000.readFileAndReturnAsByte (Part000.pageFile k) in
       let* newExtractedData := Part000.extractDownloadURLsFromJSON env jsonFileContent in
       ret (Part000.combineMultipleSlices newExtractedData acc)
     else ret acc) w in
  fs r.2 = fs w
  ∧ gets (trace r.2) = gets (trace w)
  ∧ sleeps (trace r.2) = sleeps (trace w)
  ∧ (Forall (fun u => Part000.isUrlValid env u = true) acc →
     Forall (fun u => Part000.isUrlValid env u = true) r.1).
Proof.
  intros r.
  assert (Hr : r = (let* cached := Part000.fileExists (Part000.pageFile k) in
     if cached then
       let* jsonFileContent := Part000.readFileAndReturnAsByte (Part000.pageFile k) in
       let* newExtractedData := Part000.extractDownloadURLsFromJSON env jsonFileContent in
       ret (Part000.combineMultipleSlices newExtractedData acc)
     else ret acc) w) by done.
  clearbody r. unfold bind at 1 in Hr.
  destruct (isFileAt_dec w (Part000.pageFile k)) as [Hfile|Hnofile].
  - rewrite (part000_fileExists_true _ _ Hfile) in Hr. unfold bind at 1 in Hr.
    pose proof (part000_read_run (Part000.pageFile k) w) as (Hfs1 & Hg1 & Hs1).
    destruct (Part000.readFileAndReturnAsByte (Part000.pageFile k) w) as [text w1].
    unfold bind at 1 in Hr.
    pose proof (part000_extract_run text w1) as (Hfs2 & Hg2 & Hs2 & Hvalid).
    destruct (Part000.extractDownloadURLsFromJSON env text w1) as [out w2].
    unfold ret in Hr. subst r. cbn [fst snd] in *.
    split_and!; [congruence..|].
    intros Hacc. unfold Part000.combineMultipleSlices. by apply Forall_app.
  - rewrite (part000_fileExists_false _ _ Hnofile) in Hr. unfold ret in Hr. subst r.
    done.
Qed.

Lemma foldM_cons {A S0} (body : S0 → A → M S0) x l s w :
  foldM body (x :: l) s w = foldM body l (body s x w).1 (body s x w).2.
Proof. simpl. unfold bind. by destruct (body s x w). Qed.

Lemma part000_collect_pages pages acc w :
  let r :=
    foldM
      (fun extractedURL index =>
         let* cached := Part000.fileExists (Part000.pageFile index) in
         if cached then
           let* jsonFileContent :=
             Part000.readFileAndReturnAsByte (Part000.pageFile index) in
           let* newExtractedData :=
             Part000.extractDownloadURLsFromJSON env jsonFileContent in
           ret (Part000.combineMultipleSlices newExtractedData extractedURL)
         else ret extractedURL) pages acc w in
  fs r.2 = fs w
  ∧ gets (trace r.2) = gets (trace w)
  ∧ sleeps (trace r.2) = sleeps (trace w)
  ∧ (Forall (fun u => Part000.isUrlValid env u = true) acc →
     Forall (fun u => Part000.isUrlValid env u = true) r.1).
Proof.
  cbn zeta. revert acc w. induction pages as [|k pages IH]; intros acc w.
  - simpl. done.
  - rewrite foldM_cons. cbv beta.
    destruct (part000_collect_page acc k w) as (Hfs & Hg & Hs & Hvalid).
    set (r1 := (let* cached := Part000.fileExists (Part000.pageFile k) in _) w) in *.
    destruct (IH r1.1 r1.2) as (Hfs' & Hg' & Hs' & Hvalid').
    split_and!; [congruence..|]. intros Hacc. apply Hvalid', Hvalid, Hacc.
Qed.

Lemma part000_append_extends w path content :
  extends (key path) w (Part000.appendAndWriteToFile env path content w).2.
Proof.
  assert (Happ : ∀ c x y, (c +:+ x) +:+ y = c +:+ (x +:+ y)) by apply append_assoc.
  unfold Part000.appendAndWriteToFile. unfold_sys. steps;
    try (by apply extends_same_fs);
    intros k c Hc; simpl;
    (destruct (decide (k = key path)) as [->|Hne];
     [rewrite ?lookup_insert_eq; simplify_eq; eauto;
      try (by eexists; rewrite append_nil_r)
     |rewrite ?lookup_insert_ne by done; done]).
Qed.

(** The set-up of the output directory by the variant. *)
Lemma part000_setup_run L0 w :
  let w' :=
    ((let* dirThere := Part000.directoryExists Part000.outputDir in
      if negb dirThere then Part000.createDirectory env Part000.outputDir else ret tt)
       w).2 in
  extends L0 w w'
  ∧ gets (trace w') = gets (trace w)
  ∧ sleeps (trace w') = sleeps (trace w).
Proof.
  unfold Part000.directoryExists, Part000.createDirectory. unfold_sys.
  steps; rewrite ?gets_app, ?sleeps_app; simpl; rewrite ?app_nil_r;
    (split_and!; [|done|done]);
    first [ by apply extends_same_fs | by eapply extends_insert_new ].
Qed.

(** [downloadPDF] leaves the files that exist as they are, the ledger
    apart, which can only grow. *)
Lemma part000_downloadPDF_advance url dir logFile w :
  extends (key logFile) w (Part000.downloadPDF env url dir logFile w).2.
Proof.
  unfold Part000.downloadPDF. rewrite part000_ledger_read.
  set (path := filepath_Join dir _).
  unfold bind at 1.
  destruct (isFileAt_dec w path) as [Hfile|Hnofile].
  - rewrite (part000_fileExists_true _ _ Hfile).
    destruct (negb (strings_Contains (fileText w logFile) url)).
    + unfold bind at 1. unfold log at 1, emit. cbn [fst snd].
      unfold bind at 1.
      set (w1 := Build_World _ _ _).
      pose proof (part000_append_extends w1 logFile (ledgerLine url path)) as Hext.
      unfold ledgerLine in Hext.
      destruct (Part000.appendAndWriteToFile env logFile _ w1) as [[] w2].
      unfold bind, ret. cbn [fst snd] in *.
      eapply extends_trans; [|exact Hext]. by apply extends_same_fs.
    + unfold bind, log, emit, ret. cbn [fst snd]. by apply extends_same_fs.
  - rewrite (part000_fileExists_false _ _ Hnofile).
    assert (Hk : fs w !! key path = None ∨ fs w !! key path = Some Dir).
    { unfold isFileAt in Hnofile. destruct (fs w !! key path) as [[c|]|]; eauto.
      destruct Hnofile. eauto. }
    unfold bind at 1, client_Get, bind, tick, emit, ret. simpl.
    destruct (http_Get env (clock w) url) as [err|resp]; [by apply extends_same_fs|].
    destruct (negb (StatusCode resp =? 200)); [by apply extends_same_fs|].
    destruct (negb (strings_Contains (ContentType resp) "application/pdf"));
      [by apply extends_same_fs|].
    destruct (ReadErr resp); [by apply extends_same_fs|].
    destruct (String.length (Body resp) =? 0); [by apply extends_same_fs|].
    unfold os_Create, file_Write, bind, tick, os_Stat, setNode, emit, ret. simpl.
    destruct (io_fault env (S (clock w))); simpl; [by apply extends_same_fs|].
    destruct Hk as [Hk|Hk]; rewrite Hk; simpl; [|by apply extends_same_fs].
    destruct (io_fault env (S (S (clock w)))); simpl; rewrite insert_insert_eq.
    { by eapply extends_insert_new. }
    destruct (negb (strings_Contains (fileText w logFile) url)); simpl.
    + set (w1 := Build_World _ _ _).
      pose proof (part000_append_extends w1 logFile (ledgerLine url path)) as Hext.
      unfold ledgerLine in Hext.
      destruct (Part000.appendAndWriteToFile env logFile _ w1) as [[] w2].
      unfold log, emit. cbn [fst snd] in *.
      eapply extends_trans; [by eapply (extends_insert_new _ w)|].
      eapply extends_trans; [exact Hext|]. by apply extends_same_fs.
    + by eapply extends_insert_new.
Qed.

(** One pass of the download loop of the variant. *)
Lemma part000_main_url_advance extractedURL url w :
  let r := Part000.main_url env extractedURL url w in
  extends L w r.2
  ∧ (gets (trace r.2) = gets (trace w) ∨ gets (trace r.2) = gets (trace w) ++ [url])
  ∧ (sleeps (trace r.2) = sleeps (trace w)
     ∨ sleeps (trace r.2) = sleeps (trace w) ++ [3]).
Proof.
  intros r. assert (Hr : r = Part000.main_url env extractedURL url w) by done.
  clearbody r. unfold Part000.main_url in Hr. rewrite part000_ledger_read in Hr.
  destruct (negb (strings_Contains (fileText w Part000.downloadedFilesURLLocation) url)).
  2:{ subst r. unfold ret. cbn [snd]. split_and!; [apply extends_refl|by left..]. }
  unfold bind at 1 in Hr.
  pose proof (part000_downloadPDF_effects env url Part000.outputDir
                Part000.downloadedFilesURLLocation w) as (Hs & Hg & _).
  pose proof (part000_downloadPDF_advance url Part000.outputDir
                Part000.downloadedFilesURLLocation w) as Hext.
  destruct (Part000.downloadPDF env url _ _ w) as [[errorString|] w3]; cbn [fst snd] in *.
  - unfold bind, log, time_Sleep, emit, ret in Hr.
    destruct (strings_Contains errorString "429"); subst r; cbn [fst snd fs trace];
      rewrite ?gets_app, ?sleeps_app; simpl; rewrite ?app_nil_r;
      (split_and!;
       [eapply extends_trans; [exact Hext|]; by apply extends_same_fs
       |done
       |rewrite Hs; eauto]).
  - subst r. unfold ret. cbn [snd]. split_and!; [done|done|by left].
Qed.

Lemma part000_download_loop urls extractedURL w :
  let w' := (forEach urls (Part000.main_url env extractedURL) w).2 in
  extends L w w'
  ∧ ∃ new m,
      gets (trace w') = gets (trace w) ++ new
      ∧ new `sublist_of` urls
      ∧ m ≤ length urls
      ∧ sleeps (trace w') = sleeps (trace w) ++ replicate m 3.
Proof.
  cbn zeta. revert w. induction urls as [|url urls IH]; intros w.
  - simpl. split; [apply extends_refl|]. exists [], 0. simpl. by rewrite !app_nil_r.
  - rewrite forEach_cons.
    destruct (part000_main_url_advance extractedURL url w) as (Hext & Hg & Hs).
    destruct (IH (Part000.main_url env extractedURL url w).2)
      as (Hext' & new & m & Hg' & Hsub & Hm & Hs').
    split; [by eapply extends_trans|].
    destruct Hg as [Hg|Hg], Hs as [Hs|Hs].
    + exists new, m. rewrite Hg', Hs', Hg, Hs.
      split_and!; [done|by apply sublist_cons|simpl; lia|done].
    + exists new, (S m). rewrite Hg', Hs', Hg, Hs, <- app_assoc.
      split_and!; [done|by apply sublist_cons|simpl; lia|done].
    + exists (url :: new), m. rewrite Hg', Hs', Hg, Hs, <- app_assoc.
      split_and!; [done|by apply sublist_skip|simpl; lia|done].
    + exists (url :: new), (S m). rewrite Hg', Hs', Hg, Hs, <- !app_assoc.
      split_and!; [done|by apply sublist_skip|simpl; lia|done].
Qed.

(** X25 — a whole run of the variant.  [main] of [part_000] never
    damages a file that is already there: a regular file that exists at
    the start exists at the end with the same content, the ledger file
    alone may have grown at its end.  Its requests are, in this order, at
    most one per page, to the API URLs of the pages 0 to 75 in increasing
    order, and then at most one per URL, to pairwise distinct URLs that
    [isUrlValid] accepts. *)
Theorem part000_main_is_well_behaved (w : World) :
  let w' := (Part000.main env w).2 in
  (∀ k c, fs w !! k = Some (File c) →
     if decide (k = key Part000.downloadedFilesURLLocation)
     then ∃ x, fs w' !! k = Some (File (c +:+ x))
     else fs w' !! k = Some (File c))
  ∧ ∃ pages urls,
      gets (trace w') = gets (trace w) ++ pages ++ urls
      ∧ pages `sublist_of` (Part000.pageURL <$> seq 0 (S Part000.endLoop))
      ∧ NoDup urls
      ∧ Forall (fun u => Part000.isUrlValid env u = true) urls.
Proof.
  intros w'. assert (Hw' : w' = (Part000.main env w).2) by done. clearbody w'.
  unfold Part000.main in Hw'. unfold bind at 1 in Hw'.
  destruct (part000_fetch_pages (seq 0 (S Part000.endLoop)) w)
    as (Hext1 & _ & new1 & Hg1 & Hsub1).
  destruct (forEach (seq 0 (S Part000.endLoop)) _ w) as [[] w1]. cbn [fst snd] in *.
  unfold bind at 1 in Hw'.
  destruct (part000_collect_pages (seq 0 (S Part000.endLoop)) [] w1)
    as (Hfs2 & Hg2 & _ & Hvalid).
  destruct (foldM _ (seq 0 (S Part000.endLoop)) [] w1) as [collected w2].
  cbn [fst snd] in *. specialize (Hvalid ltac:(constructor)).
  unfold bind at 1 in Hw'.
  destruct (part000_setup_run L w2) as (Hext3 & Hg3 & _).
  unfold bind at 1 in Hext3. unfold bind at 1 in Hg3.
  destruct (Part000.directoryExists Part000.outputDir w2) as [dirThere w2'].
  unfold bind at 1 in Hw'.
  destruct ((if negb dirThere then Part000.createDirectory env Part000.outputDir
             else ret tt) w2') as [[] w3].
  cbn [fst snd] in *.
  destruct (part000_download_loop (Part000.removeDuplicatesFromSlice collected)
              (Part000.removeDuplicatesFromSlice collected) w3)
    as (Hext4 & new4 & m & Hg4 & Hsub4 & _).
  rewrite <- Hw' in Hext4, Hg4.
  destruct (part000_removeDuplicates collected) as (Hnd & _ & Hel).
  split.
  - assert (Hext : extends L w w').
    { eapply extends_trans; [exact Hext1|].
      eapply extends_trans; [by apply extends_same_fs|].
      eapply extends_trans; [exact Hext3|exact Hext4]. }
    exact Hext.
  - exists new1, new4. split_and!.
    + by rewrite Hg4, Hg3, Hg2, Hg1, <- app_assoc.
    + done.
    + eapply sublist_NoDup; [exact Hnd|exact Hsub4].
    + apply Forall_forall. intros u Hu.
      assert (Hin : u ∈ Part000.removeDuplicatesFromSlice collected).
      { eapply elem_of_sublist; [exact Hu|exact Hsub4]. }
      apply Hel in Hin. rewrite Forall_forall in Hvalid. by apply Hvalid.
Qed.

End Main000.

(** ** Concrete runs of the further properties *)


(** The document is fetched into an empty directory: the two files hold
    the body and the ledger line. *)
Lemma download_success_stores_body_witness :
  fs (downloadPDFFile Scenario.serving "https://host/a.pdf" "PDFs" "A Report.PDF"
        "download.txt" ∅ (Scenario.world Scenario.emptyDir)).2
  = <["download.txt" := File ("https://host/a.pdf → PDFs/a_report.pdf" +:+ LF)]>
      (<["PDFs/a_report.pdf" := File "%PDF-1.4"]> Scenario.emptyDir).
Proof.
  destruct (download_success_stores_body Scenario.serving "https://host/a.pdf" "PDFs"
              "A Report.PDF" "download.txt" ∅ (Scenario.world Scenario.emptyDir)
              {| StatusCode := 200; Status := "200 OK"; ContentType := "application/pdf";
                 Body := "%PDF-1.4"; ReadErr := None |})
    as (_ & Hfs & _).
  - apply not_elem_of_empty.
  - reflexivity.
  - reflexivity.
  - intros [H|[H|[H|H]]]; [by apply H|discriminate H|by apply H|discriminate H].
  - intros n _. reflexivity.
  - discriminate.
  - discriminate.
  - exact Hfs.
Defined.

(** The disk fills up during the write: the second call records the
    three bytes that were written as the document. *)
Lemma truncated_file_is_reconciled_witness :
  (downloadPDFFile Scenario.diskFull "https://host/a.pdf" "PDFs" "A Report.PDF"
     "download.txt"
     (downloadPDFFile Scenario.diskFull "https://host/a.pdf" "PDFs" "A Report.PDF"
        "download.txt" ∅ (Scenario.world Scenario.emptyDir)).1.2
     (downloadPDFFile Scenario.diskFull "https://host/a.pdf" "PDFs" "A Report.PDF"
        "download.txt" ∅ (Scenario.world Scenario.emptyDir)).2).1
  = (None, {["https://host/a.pdf"]} ∪ ∅).
Proof.
  destruct (truncated_file_is_reconciled Scenario.diskFull "https://host/a.pdf" "PDFs"
              "A Report.PDF" "download.txt" ∅ (Scenario.world Scenario.emptyDir)
              {| StatusCode := 200; Status := "200 OK"; ContentType := "application/pdf";
                 Body := "%PDF-1.4"; ReadErr := None |}
              {| fault_text := "no space left on device"; fault_written := 3 |})
    as (_ & _ & Hsecond & _).
  - apply not_elem_of_empty.
  - reflexivity.
  - reflexivity.
  - intros [H|[H|[H|H]]]; [by apply H|discriminate H|by apply H|discriminate H].
  - reflexivity.
  - reflexivity.
  - exact Hsecond.
Defined.

(** The ledger cannot be opened: the file on disk is still accepted. *)
Lemma reconciliation_without_ledger_witness :
  (downloadPDFFile Scenario.readOnly "https://host/a.pdf" "PDFs" "A Report.PDF"
     "download.txt" ∅ (Scenario.world Scenario.onDisk)).1
  = (None, {["https://host/a.pdf"]} ∪ ∅)
  ∧ fs (downloadPDFFile Scenario.readOnly "https://host/a.pdf" "PDFs" "A Report.PDF"
          "download.txt" ∅ (Scenario.world Scenario.onDisk)).2
    = Scenario.onDisk.
Proof.
  destruct (reconciliation_without_ledger Scenario.readOnly "https://host/a.pdf" "PDFs"
              "A Report.PDF" "download.txt" ∅ (Scenario.world Scenario.onDisk)
              {| fault_text := "permission denied"; fault_written := 0 |})
    as (Hres & Hfs & _).
  - apply not_elem_of_empty.
  - exists "%PDF-1.4". reflexivity.
  - reflexivity.
  - split; [exact Hres|exact Hfs].
Defined.

(** A document whose URL contains 429 and that the server does not
    have: the 404 costs three minutes and a second request. *)
Lemma url_with_429_triggers_backoff_witness :
  sleeps (trace (main_item Scenario.missing ∅
                   {| URL := "https://host/doc429.pdf"; ItemFileName := "doc429.pdf" |}
                   (Scenario.world Scenario.emptyDir)).2)
  = [3]
  ∧ gets (trace (main_item Scenario.missing ∅
                   {| URL := "https://host/doc429.pdf"; ItemFileName := "doc429.pdf" |}
                   (Scenario.world Scenario.emptyDir)).2)
    = ["https://host/doc429.pdf"; "https://host/doc429.pdf"].
Proof.
  apply (url_with_429_triggers_backoff Scenario.missing ∅
           {| URL := "https://host/doc429.pdf"; ItemFileName := "doc429.pdf" |}
           (Scenario.world Scenario.emptyDir)).
  - reflexivity.
  - apply not_elem_of_empty.
  - intros [c Hc]. discriminate Hc.
  - intros resp Hget. injection Hget as <-. left. discriminate.
Defined.

(** One document, fetched without failure: it is in the ledger set and
    on disk. *)
Lemma clean_pass_records_every_item_witness :
  "https://host/a.pdf"
    ∈ (main_items Scenario.serving
         [ {| URL := "https://host/a.pdf"; ItemFileName := "A Report.PDF" |} ] ∅
         (Scenario.world Scenario.emptyDir)).1.
Proof.
  apply (clean_pass_records_every_item Scenario.serving
           [ {| URL := "https://host/a.pdf"; ItemFileName := "A Report.PDF" |} ] ∅
           (Scenario.world Scenario.emptyDir)
           ltac:(apply NoDup_singleton) ltac:(vm_compute; reflexivity)
           {| URL := "https://host/a.pdf"; ItemFileName := "A Report.PDF" |}).
  apply list_elem_of_singleton. reflexivity.
Defined.

(** A second entry is appended to a ledger of one entry. *)
Lemma ledger_round_trip_witness :
  (loadDownloadLogToMap "download.txt"
     (appendLineToFile Scenario.offline "download.txt"
        (ledgerLine "https://host/b.pdf" "PDFs/b.pdf")
        (Scenario.world Scenario.oneEntry)).2).1
  = {["https://host/b.pdf"]}
    ∪ (loadDownloadLogToMap "download.txt" (Scenario.world Scenario.oneEntry)).1.
Proof.
  apply (ledger_round_trip Scenario.offline "download.txt" "https://host/b.pdf"
           "PDFs/b.pdf" (Scenario.world Scenario.oneEntry)).
  - reflexivity.
  - reflexivity.
  - discriminate.
  - right. exists "https://host/abc.pdf → PDFs/0a1b.pdf". reflexivity.
  - reflexivity.
  - reflexivity.
  - reflexivity.
Defined.

(** The ledger of one entry loads as its URL. *)
Lemma ledger_decode_witness :
  loadDownloadLogToMap "download.txt" (Scenario.world Scenario.oneEntry)
  = (list_to_set [("https://host/abc.pdf", "PDFs/0a1b.pdf")].*1,
     Scenario.world Scenario.oneEntry).
Proof.
  apply (ledger_decode "download.txt" [("https://host/abc.pdf", "PDFs/0a1b.pdf")]
           (Scenario.world Scenario.oneEntry)).
  - reflexivity.
  - repeat constructor.
Defined.

(** Without a network the page request fails and nothing is written. *)
Lemma page_download_refused_leaves_disk_witness :
  fs (downloadDataFromURL Scenario.offline (apiURL 0) (jsonFileName 0)
        (Scenario.world Scenario.emptyDir)).2
  = Scenario.emptyDir.
Proof.
  destruct (page_download_refused_leaves_disk Scenario.offline (apiURL 0) (jsonFileName 0)
              (Scenario.world Scenario.emptyDir)) as (Hfs & _).
  - intros resp Hget. discriminate Hget.
  - exact Hfs.
Defined.

(** The disk fills up while page 0 is copied: three bytes stay on disk
    and the page counts as fetched. *)
Lemma page_download_keeps_what_arrived_witness :
  fs (downloadDataFromURL Scenario.diskFull (apiURL 0) (jsonFileName 0)
        (Scenario.world Scenario.emptyDir)).2
  = <["basf_0.json" := File "pag"]> Scenario.emptyDir.
Proof.
  destruct (page_download_keeps_what_arrived Scenario.diskFull (apiURL 0) (jsonFileName 0)
              (Scenario.world Scenario.emptyDir)
              {| StatusCode := 200; Status := "200 OK"; ContentType := "application/json";
                 Body := "page0"; ReadErr := None |}) as (Hfs & _).
  - reflexivity.
  - reflexivity.
  - reflexivity.
  - discriminate.
  - exact Hfs.
Defined.

(** An HTML page saved as page 0: no request, no item. *)
Lemma undecodable_page_yields_nothing_witness :
  (main_page Scenario.garbled ∅ 0 (Scenario.world Scenario.cachedHTML)).1 = ∅
  ∧ gets (trace (main_page Scenario.garbled ∅ 0
                   (Scenario.world Scenario.cachedHTML)).2) = [].
Proof.
  rewrite (undecodable_page_yields_nothing Scenario.garbled ∅ 0
             (Scenario.world Scenario.cachedHTML) "<html>"
             "invalid character '<' looking for beginning of value"
             eq_refl eq_refl).
  split; reflexivity.
Defined.

(** Without a network page 0 is skipped. *)
Lemma unfetchable_page_is_skipped_witness :
  (main_page Scenario.offline ∅ 0 (Scenario.world Scenario.emptyDir)).1 = ∅
  ∧ gets (trace (main_page Scenario.offline ∅ 0 (Scenario.world Scenario.emptyDir)).2)
    = [apiURL 0].
Proof.
  destruct (unfetchable_page_is_skipped Scenario.offline ∅ 0
              (Scenario.world Scenario.emptyDir)) as (Hs & _ & Hg & _).
  - intros [c Hc]. discriminate Hc.
  - intros resp Hget. discriminate Hget.
  - split; [exact Hs|exact Hg].
Defined.

(** A document from an earlier run is still there, byte for byte, after
    a whole run. *)
Lemma main_preserves_existing_files_witness :
  fs (main Scenario.serving (Scenario.world Scenario.oneEntry)).2 !! "PDFs/0a1b.pdf"
  = Some (File "%PDF-1.4").
Proof.
  exact (main_preserves_existing_files Scenario.serving (Scenario.world Scenario.oneEntry)
           "PDFs/0a1b.pdf" "%PDF-1.4" eq_refl).
Defined.

(** The variant finds the file of the URL [0a1b] on disk: no request,
    and the skip comes back as an error. *)
Lemma part000_existing_file_is_reported_as_error_witness :
  gets (trace (Part000.main_url Scenario.offline [] "0a1b"
                 (Scenario.world Scenario.hashed)).2) = []
  ∧ EvLog "file already exists, skipping: PDFs/30613162.pdf (URL: 0a1b)"
      ∈ trace (Part000.main_url Scenario.offline [] "0a1b"
                 (Scenario.world Scenario.hashed)).2.
Proof.
  destruct (part000_existing_file_is_reported_as_error Scenario.offline [] "0a1b"
              (Scenario.world Scenario.hashed)) as (_ & Hg & Hlog & _).
  - reflexivity.
  - exists "%PDF-1.4". reflexivity.
  - split; [exact Hg|exact Hlog].
Defined.

(** The variant fetches a document into an empty directory. *)
Lemma part000_download_success_witness :
  (Part000.downloadPDF Scenario.serving "https://host/a.pdf" "PDFs/" "download.txt"
     (Scenario.world Scenario.emptyDir)).1 = None
  ∧ gets (trace (Part000.downloadPDF Scenario.serving "https://host/a.pdf" "PDFs/"
                   "download.txt" (Scenario.world Scenario.emptyDir)).2)
    = ["https://host/a.pdf"].
Proof.
  destruct (part000_download_success Scenario.serving "https://host/a.pdf" "PDFs/"
              "download.txt" (Scenario.world Scenario.emptyDir)
              {| StatusCode := 200; Status := "200 OK"; ContentType := "application/pdf";
                 Body := "%PDF-1.4"; ReadErr := None |})
    as (Hres & _ & Hg & _).
  - reflexivity.
  - vm_compute. reflexivity.
  - reflexivity.
  - intros [H|[H|[H|H]]]; [by apply H|discriminate H|by apply H|discriminate H].
  - intros n _. reflexivity.
  - discriminate.
  - vm_compute. discriminate.
  - split; [exact Hres|exact Hg].
Defined.

(** The variant meets a 404: the request is the only effect. *)
Lemma part000_failure_atomicity_witness :
  ∃ err,
    Part000.downloadPDF Scenario.missing "https://host/a.pdf" "PDFs/" "download.txt"
      (Scenario.world Scenario.emptyDir)
    = (Some err, requested (Scenario.world Scenario.emptyDir) "https://host/a.pdf").
Proof.
  apply (part000_failure_atomicity Scenario.missing "https://host/a.pdf" "PDFs/"
           "download.txt" (Scenario.world Scenario.emptyDir)
           {| StatusCode := 404; Status := "404 Not Found"; ContentType := "text/html";
              Body := ""; ReadErr := None |}).
  - intros [c Hc]. vm_compute in Hc. discriminate Hc.
  - reflexivity.
  - left. discriminate.
Defined.
